(** * nfc-mfclassic: MIFARE Classic read / write / payload extraction

    A shallow embedding of [examples/nfc-mfclassic.c] (libnfc) and the
    properties of its sector-authenticated block-transaction engine.

    Conventions
    - a [uint32_t] is a [Z] with its wrap-around written out ([wrap32]);
    - a byte is a [Byte.byte]; a byte array is a [list byte];
    - [mifare_tag] (256 blocks of 16 bytes) is a [list (list byte)];
    - the C globals live in the record [state]; every function takes the
      state and returns the new one;
    - the reader device is abstract ([transport]); every call the program
      makes to it is appended to the ghost log [calls]. *)

From Stdlib Require Import ZArith List Bool Lia Sorted.
From Stdlib.Strings Require Import Byte.
From stdpp Require Import base list.
Import ListNotations.
Local Open Scope Z_scope.

(** ** Machine integers *)

Definition wrap32 (z : Z) : Z := z mod 2 ^ 32.

(** ** Sector geometry (nfc-mfclassic.c, lines 70-92) *)

Definition is_first_block (uiBlock : Z) : bool :=
  if uiBlock <? 128 then uiBlock mod 4 =? 0 else uiBlock mod 16 =? 0.

Definition is_trailer_block (uiBlock : Z) : bool :=
  if uiBlock <? 128 then wrap32 (uiBlock + 1) mod 4 =? 0
  else wrap32 (uiBlock + 1) mod 16 =? 0.

Definition get_trailer_block (uiFirstBlock : Z) : Z :=
  if uiFirstBlock <? 128
  then wrap32 (uiFirstBlock + wrap32 (3 - uiFirstBlock mod 4))
  else wrap32 (uiFirstBlock + wrap32 (15 - uiFirstBlock mod 16)).

(** The sector a block belongs to, read off the geometry: two blocks are in
    the same sector when they have the same trailer. *)
Definition same_sector (a b : Z) : Prop :=
  get_trailer_block a = get_trailer_block b.

(** ** Byte arrays *)

(** [memcpy dst doff src soff n] is [dst] after
    [memcpy (dst + doff, src + soff, n)]. *)
Definition memcpy (dst : list byte) (doff : nat) (src : list byte)
    (soff n : nat) : list byte :=
  take doff dst ++ take n (drop soff src) ++ drop (doff + n) dst.

(** [sub a off n] is the [n] bytes of [a] from offset [off]. *)
Definition sub (a : list byte) (off n : nat) : list byte :=
  take n (drop off a).

(** The candidate keys of the brute-force authenticator (lines 51-61). *)
Definition keys : list byte :=
  [ xff; xff; xff; xff; xff; xff;
    xd3; xf7; xd3; xf7; xd3; xf7;
    xa0; xa1; xa2; xa3; xa4; xa5;
    xb0; xb1; xb2; xb3; xb4; xb5;
    x4d; x3a; x99; xc3; x51; xdd;
    x1a; x98; x2c; x7e; x45; x9a;
    xaa; xbb; xcc; xdd; xee; xff;
    x00; x00; x00; x00; x00; x00 ].

Definition num_keys : nat := length keys / 6.

(** The [key_index]-th candidate, [keys + key_index * 6]. *)
Definition candidate (key_index : nat) : list byte :=
  sub keys (key_index * 6) 6.

(** ** Block and parameter layouts *)

(** Modelled from the spec: the declarations of [mifaretag.h]
    ([mifare_block], [mifare_tag], [mifare_param]) are not part of the
    sources at hand. A block is 16 bytes; seen as a trailer it is Key A
    (6 bytes), access bits (4 bytes), Key B (6 bytes); seen as data it is 16
    opaque bytes. A tag is the sequence of its blocks. *)
Definition block := list byte.
Definition mifare_tag := list block.

Definition off_abtKeyA : nat := 0.
Definition off_abtAccessBits : nat := 6.
Definition off_abtKeyB : nat := 10.

Definition mbt_abtKeyA (b : block) : list byte := sub b off_abtKeyA 6.
Definition mbt_abtAccessBits (b : block) : list byte := sub b off_abtAccessBits 4.
Definition mbt_abtKeyB (b : block) : list byte := sub b off_abtKeyB 6.
Definition mbd_abtData (b : block) : list byte := sub b 0 16.

(** Modelled from the spec: the command parameter [mp] is one 16-byte
    buffer, seen as authentication data (the key, 6 bytes, then the uid,
    4 bytes) or as the 16 bytes of a block. *)
Definition mifare_param := list byte.
Definition off_mpa_abtKey : nat := 0.
Definition off_mpa_abtUid : nat := 6.
Definition mpa_abtKey (p : mifare_param) : list byte := sub p off_mpa_abtKey 6.
Definition mpa_abtUid (p : mifare_param) : list byte := sub p off_mpa_abtUid 4.
Definition mpd_abtData (p : mifare_param) : list byte := sub p 0 16.

(** [amb t i] is [t.amb[i]]. *)
Definition amb (t : mifare_tag) (i : Z) : block := t !!! Z.to_nat i.

(** [amb_update t i f] is [t] after [t.amb[i]] was changed by [f]. *)
Definition amb_update (t : mifare_tag) (i : Z) (f : block -> block) : mifare_tag :=
  alter f (Z.to_nat i) t.

(** ** The reader device *)

Inductive mifare_cmd := MC_AUTH_A | MC_AUTH_B | MC_READ | MC_WRITE.

Record nfc_target_info := mk_nti {
  abtAtqa : list byte;
  btSak : byte;
  abtUid : list byte
}.

(** Modelled from the spec: the transport collaborator (tag selection and
    the MIFARE commands of libnfc proper) is outside the sources at hand.
    Its contract is: select a tag (a tag or not found), authenticate a
    block with a key (yes or no), read a block (16 bytes or failure),
    write a block (yes or no). [dev] is the state of the device and of
    the tag in its field. *)
Record transport (dev : Type) := mk_transport {
  tr_select : dev -> option (list byte) -> option nfc_target_info * dev;
  tr_authenticate : dev -> mifare_cmd -> Z -> list byte -> list byte -> bool * dev;
  tr_read : dev -> Z -> option (list byte) * dev;
  tr_write : dev -> Z -> list byte -> bool * dev
}.
Arguments tr_select {dev}.
Arguments tr_authenticate {dev}.
Arguments tr_read {dev}.
Arguments tr_write {dev}.

(** One entry of the ghost log: a call to the device and its answer. *)
Inductive call :=
| CallSelect (init : option (list byte)) (ok : bool)
| CallAuth (mc : mifare_cmd) (uiBlock : Z) (key uid : list byte) (ok : bool)
| CallRead (uiBlock : Z) (ok : bool)
| CallWrite (uiBlock : Z) (data : list byte) (ok : bool).

(** What the program prints, without the formatting. *)
Inductive output :=
| OutHeader (n : Z)               (* "Reading out %d blocks |", "Writing %d blocks |" *)
| OutProgress (bFailure : bool)   (* 'x' or '.' *)
| OutTagRemoved                   (* "Error: tag was removed" *)
| OutAuthFailed (uiBlock : Z)     (* "Error: authentication failed for block %02x" *)
| OutTrailerFailed (uiBlock : Z)  (* "failed to write trailer block %d" *)
| OutDone (n total : Z).          (* "Done, %d of %d blocks read/written." *)

(** ** The program state (the globals of lines 43-50, the ghost log, stdout) *)

Record state (dev : Type) := mk_state {
  pnd : dev;
  nti : nfc_target_info;
  mp : mifare_param;
  mtKeys : mifare_tag;
  mtDump : mifare_tag;
  bUseKeyA : bool;
  bUseKeyFile : bool;
  uiBlocks : Z;
  calls : list call;
  stdout : list output
}.
Arguments mk_state {dev}.
Arguments pnd {dev}.
Arguments nti {dev}.
Arguments mp {dev}.
Arguments mtKeys {dev}.
Arguments mtDump {dev}.
Arguments bUseKeyA {dev}.
Arguments bUseKeyFile {dev}.
Arguments uiBlocks {dev}.
Arguments calls {dev}.
Arguments stdout {dev}.

(** Control flow of a loop body: go on with the locals [a], or leave the
    function with the value [r]. *)
Inductive flow (A : Type) :=
| Continue (a : A)
| Return (r : bool).
Arguments Continue {A}.
Arguments Return {A}.

(** A counted loop: [n] iterations from index [i], the index moved by
    [next] after each one; a [Return] of the body leaves the loop. *)
Fixpoint iterate {L S : Type} (body : Z -> L -> S -> flow L * S)
    (next : Z -> Z) (n : nat) (i : Z) (loc : L) (st : S) : flow L * S :=
  match n with
  | O => (Continue loc, st)
  | Datatypes.S n' =>
      match body i loc st with
      | (Continue loc', st') => iterate body next n' (next i) loc' st'
      | (Return r, st') => (Return r, st')
      end
  end.

Section Engine.
Context {dev : Type} (T : transport dev).

Definition set_dev (d : dev) (c : call) (st : state dev) : state dev :=
  mk_state d (nti st) (mp st) (mtKeys st) (mtDump st)
    (bUseKeyA st) (bUseKeyFile st) (uiBlocks st) (calls st ++ [c]) (stdout st).

Definition set_nti (ti : nfc_target_info) (st : state dev) : state dev :=
  mk_state (pnd st) ti (mp st) (mtKeys st) (mtDump st)
    (bUseKeyA st) (bUseKeyFile st) (uiBlocks st) (calls st) (stdout st).

Definition set_mp (p : mifare_param) (st : state dev) : state dev :=
  mk_state (pnd st) (nti st) p (mtKeys st) (mtDump st)
    (bUseKeyA st) (bUseKeyFile st) (uiBlocks st) (calls st) (stdout st).

Definition set_mtKeys (t : mifare_tag) (st : state dev) : state dev :=
  mk_state (pnd st) (nti st) (mp st) t (mtDump st)
    (bUseKeyA st) (bUseKeyFile st) (uiBlocks st) (calls st) (stdout st).

Definition set_mtDump (t : mifare_tag) (st : state dev) : state dev :=
  mk_state (pnd st) (nti st) (mp st) (mtKeys st) t
    (bUseKeyA st) (bUseKeyFile st) (uiBlocks st) (calls st) (stdout st).

Definition printf (o : output) (st : state dev) : state dev :=
  mk_state (pnd st) (nti st) (mp st) (mtKeys st) (mtDump st)
    (bUseKeyA st) (bUseKeyFile st) (uiBlocks st) (calls st) (stdout st ++ [o]).

(** [nfc_initiator_select_tag (pnd, NM_ISO14443A_106, init, len, pti)]:
    [pti] says whether the answer is stored into [nti] ([&nti]) or
    dropped ([NULL]). *)
Definition nfc_initiator_select_tag (init : option (list byte)) (pti : bool)
    (st : state dev) : bool * state dev :=
  match tr_select T (pnd st) init with
  | (Some ti, d) =>
      let st1 := set_dev d (CallSelect init true) st in
      (true, if pti then set_nti ti st1 else st1)
  | (None, d) => (false, set_dev d (CallSelect init false) st)
  end.

(** [nfc_initiator_mifare_cmd (pnd, mc, uiBlock, &mp)]: the key and uid,
    or the data to write, are taken from [mp]; the data read is put
    into [mp]. *)
Definition nfc_initiator_mifare_cmd (mc : mifare_cmd) (uiBlock : Z)
    (st : state dev) : bool * state dev :=
  match mc with
  | MC_AUTH_A | MC_AUTH_B =>
      let key := mpa_abtKey (mp st) in
      let uid := mpa_abtUid (mp st) in
      let '(ok, d) := tr_authenticate T (pnd st) mc uiBlock key uid in
      (ok, set_dev d (CallAuth mc uiBlock key uid ok) st)
  | MC_READ =>
      match tr_read T (pnd st) uiBlock with
      | (Some data, d) =>
          (true, set_mp (memcpy (mp st) 0 data 0 16)
                   (set_dev d (CallRead uiBlock true) st))
      | (None, d) => (false, set_dev d (CallRead uiBlock false) st)
      end
  | MC_WRITE =>
      let data := mpd_abtData (mp st) in
      let '(ok, d) := tr_write T (pnd st) uiBlock data in
      (ok, set_dev d (CallWrite uiBlock data ok) st)
  end.

(** Lines 63-68. *)
Definition print_success_or_failure (bFailure : bool) (uiBlockCounter : Z)
    (st : state dev) : Z * state dev :=
  (wrap32 (uiBlockCounter + (if bFailure then 0 else 4)),
   printf (OutProgress bFailure) st).

(** The body of the brute-force loop of [authenticate] (lines 133-150). *)
Definition authenticate_body (mc : mifare_cmd) (uiBlock : Z) (key_index : Z)
    (loc : unit) (st : state dev) : flow unit * state dev :=
  let st1 := set_mp (memcpy (mp st) off_mpa_abtKey keys (Z.to_nat key_index * 6) 6) st in
  let '(ok, st2) := nfc_initiator_mifare_cmd mc uiBlock st1 in
  if ok then
    let key := mpa_abtKey (mp st2) in
    let st3 :=
      if bUseKeyA st2
      then set_mtKeys (amb_update (mtKeys st2) uiBlock
                         (fun b => memcpy b off_abtKeyA key 0 6)) st2
      else set_mtKeys (amb_update (mtKeys st2) uiBlock
                         (fun b => memcpy b off_abtKeyB key 0 6)) st2 in
    (Return true, st3)
  else
    let '(_, st3) := nfc_initiator_select_tag (Some (mpa_abtUid (mp st2))) false st2 in
    (Continue tt, st3).

(** Lines 94-154. *)
Definition authenticate (uiBlock : Z) (st : state dev) : bool * state dev :=
  if bUseKeyFile st then
    let st1 := set_mp (memcpy (mp st) off_mpa_abtUid (abtUid (nti st)) 0 4) st in
    let uiTrailerBlock := get_trailer_block uiBlock in
    let '(mc, st2) :=
      if bUseKeyA st1
      then (MC_AUTH_A,
            set_mp (memcpy (mp st1) off_mpa_abtKey
                      (mbt_abtKeyA (amb (mtKeys st1) uiTrailerBlock)) 0 6) st1)
      else (MC_AUTH_B,
            set_mp (memcpy (mp st1) off_mpa_abtKey
                      (mbt_abtKeyB (amb (mtKeys st1) uiTrailerBlock)) 0 6) st1) in
    let '(ok, st3) := nfc_initiator_mifare_cmd mc uiBlock st2 in
    if ok then (true, st3) else (false, st3)
  else
    let mc := if bUseKeyA st then MC_AUTH_A else MC_AUTH_B in
    let st1 := set_mp (memcpy (mp st) off_mpa_abtUid (abtUid (nti st)) 0 4) st in
    match iterate (authenticate_body mc uiBlock) Z.succ num_keys 0 tt st1 with
    | (Return r, st2) => (r, st2)
    | (Continue _, st2) => (false, st2)
    end.

(** The body of the loop of [read_card] (lines 165-216), for one [iBlock];
    the locals are [bFailure] and [uiReadBlocks]. *)
Definition read_card_body (iBlock : Z) (loc : bool * Z) (st : state dev)
    : flow (bool * Z) * state dev :=
  let '(bFailure, uiReadBlocks) := loc in
  if is_trailer_block iBlock then
    let '(uiReadBlocks, st) :=
      if negb (iBlock =? uiBlocks st)
      then print_success_or_failure bFailure uiReadBlocks st
      else (uiReadBlocks, st) in
    let reselect :=
      if bFailure then
        let '(ok, st) := nfc_initiator_select_tag None true st in
        if negb ok
        then (Return true, printf OutTagRemoved st)       (* return 1; *)
        else (Continue false, st)
      else (Continue bFailure, st) in
    match reselect with
    | (Return r, st) => (Return r, st)
    | (Continue bFailure, st) =>
        let '(ok, st) := authenticate iBlock st in
        if negb ok
        then (Return false, printf (OutAuthFailed iBlock) st)
        else
          let '(ok, st) := nfc_initiator_mifare_cmd MC_READ iBlock st in
          if ok then
            let st := set_mtDump (amb_update (mtDump st) iBlock
                        (fun b => memcpy b off_abtKeyA
                                    (amb (mtKeys st) iBlock) off_abtKeyA 6)) st in
            let st := set_mtDump (amb_update (mtDump st) iBlock
                        (fun b => memcpy b off_abtAccessBits (mp st) 6 4)) st in
            let st := set_mtDump (amb_update (mtDump st) iBlock
                        (fun b => memcpy b off_abtKeyB
                                    (amb (mtKeys st) iBlock) off_abtKeyB 6)) st in
            (Continue (bFailure, uiReadBlocks), st)
          else (Continue (bFailure, uiReadBlocks), st)
    end
  else
    if negb bFailure then
      let '(ok, st) := nfc_initiator_mifare_cmd MC_READ iBlock st in
      if ok
      then (Continue (bFailure, uiReadBlocks),
            set_mtDump (amb_update (mtDump st) iBlock
                          (fun b => memcpy b 0 (mp st) 0 16)) st)
      else (Continue (true, uiReadBlocks), st)
    else (Continue (bFailure, uiReadBlocks), st).

(** Lines 156-223. The loop runs for [iBlock] = [uiBlocks], ..., 0, that is
    [uiBlocks + 1] times. *)
Definition read_card (st : state dev) : bool * state dev :=
  let st := printf (OutHeader (uiBlocks st + 1)) st in
  match iterate read_card_body Z.pred (Z.to_nat (uiBlocks st + 1)) (uiBlocks st)
          (false, 0) st with
  | (Return r, st) => (r, st)
  | (Continue (bFailure, uiReadBlocks), st) =>
      let '(uiReadBlocks, st) := print_success_or_failure bFailure uiReadBlocks st in
      (true, printf (OutDone uiReadBlocks (uiBlocks st + 1)) st)
  end.

(** The first half of the body of the loop of [write_card] (lines 236-263):
    what is done when [uiBlock] is the first block of a sector. *)
Definition write_card_first (uiBlock : Z) (loc : bool * Z) (st : state dev)
    : flow (bool * Z) * state dev :=
  let '(bFailure, uiWriteBlocks) := loc in
  if is_first_block uiBlock then
    let '(uiWriteBlocks, st) :=
      if negb (uiBlock =? uiBlocks st)
      then print_success_or_failure bFailure uiWriteBlocks st
      else (uiWriteBlocks, st) in
    let reselect :=
      if bFailure then
        let '(ok, st) := nfc_initiator_select_tag None true st in
        if negb ok
        then (Return false, printf OutTagRemoved st)
        else (Continue false, st)
      else (Continue bFailure, st) in
    match reselect with
    | (Return r, st) => (Return r, st)
    | (Continue bFailure, st) =>
        let '(ok, st) := authenticate uiBlock st in
        if negb ok
        then (Return false, printf (OutAuthFailed uiBlock) st)
        else (Continue (bFailure, uiWriteBlocks), st)
    end
  else (Continue (bFailure, uiWriteBlocks), st).

(** The second half of the body (lines 265-289): the write of [uiBlock]. *)
Definition write_card_block (uiBlock : Z) (loc : bool * Z) (st : state dev)
    : flow (bool * Z) * state dev :=
  let '(bFailure, uiWriteBlocks) := loc in
  if is_trailer_block uiBlock then
    let st := set_mp (memcpy (mp st) 0 (amb (mtDump st) uiBlock) off_abtKeyA 6) st in
    let st := set_mp (memcpy (mp st) 6 (amb (mtDump st) uiBlock) off_abtAccessBits 4) st in
    let st := set_mp (memcpy (mp st) 10 (amb (mtDump st) uiBlock) off_abtKeyB 6) st in
    let '(ok, st) := nfc_initiator_mifare_cmd MC_WRITE uiBlock st in
    if negb ok
    then (Continue (true, uiWriteBlocks), printf (OutTrailerFailed uiBlock) st)
    else (Continue (bFailure, uiWriteBlocks), st)
  else if uiBlock =? 0 then (Continue (bFailure, uiWriteBlocks), st)  (* continue; *)
  else if negb bFailure then
    let st := set_mp (memcpy (mp st) 0 (amb (mtDump st) uiBlock) 0 16) st in
    let '(ok, st) := nfc_initiator_mifare_cmd MC_WRITE uiBlock st in
    if negb ok
    then (Continue (true, uiWriteBlocks), st)
    else (Continue (bFailure, uiWriteBlocks), st)
  else (Continue (bFailure, uiWriteBlocks), st).

(** The body of the loop of [write_card] (lines 234-290), for one
    [uiBlock]; the locals are [bFailure] and [uiWriteBlocks]. *)
Definition write_card_body (uiBlock : Z) (loc : bool * Z) (st : state dev)
    : flow (bool * Z) * state dev :=
  match write_card_first uiBlock loc st with
  | (Return r, st) => (Return r, st)
  | (Continue loc, st) => write_card_block uiBlock loc st
  end.

(** Lines 225-297. The loop runs for [uiBlock] = 0, ..., [uiBlocks], that is
    [uiBlocks + 1] times. *)
Definition write_card (st : state dev) : bool * state dev :=
  let st := printf (OutHeader (uiBlocks st + 1)) st in
  match iterate write_card_body Z.succ (Z.to_nat (uiBlocks st + 1)) 0
          (false, 0) st with
  | (Return r, st) => (r, st)
  | (Continue (bFailure, uiWriteBlocks), st) =>
      let '(uiWriteBlocks, st) := print_success_or_failure bFailure uiWriteBlocks st in
      (true, printf (OutDone uiWriteBlocks (uiBlocks st + 1)) st)
  end.

(** Lines 478-495 of [main]: the pass over the card and, after a read pass
    that returned true, the dump that is written to the dump file. *)
Definition main_pass (atAction_read : bool) (st : state dev)
    : option mifare_tag * state dev :=
  if atAction_read then
    let '(ok, st) := read_card st in
    if ok then (Some (mtDump st), st) else (None, st)
  else
    let '(_, st) := write_card st in (None, st).

End Engine.

(** ** The payload extractor (lines 299-314) *)

(** The body of the inner loop, for one [uiBlockIndex]; the local is
    [szPayloadIndex], the state is the payload buffer. *)
Definition extract_block (abDump : list byte) (uiSectorIndex uiBlockIndex : Z)
    (szPayloadIndex : Z) (pbPayload : list byte) : flow Z * list byte :=
  let szDumpOffset := uiSectorIndex * 16 * 4 + uiBlockIndex * 16 in
  (Continue (szPayloadIndex + 16),
   memcpy pbPayload (Z.to_nat szPayloadIndex) abDump (Z.to_nat szDumpOffset) 16).

(** The body of the outer loop, for one [uiSectorIndex]. *)
Definition extract_sector (abDump : list byte) (uiSectorIndex : Z)
    (szPayloadIndex : Z) (pbPayload : list byte) : flow Z * list byte :=
  iterate (extract_block abDump uiSectorIndex) Z.succ 3 0 szPayloadIndex pbPayload.

Definition mifare_classic_extract_payload (abDump pbPayload : list byte) : list byte :=
  snd (iterate (extract_sector abDump) Z.succ 15 1 0 pbPayload).

(** ** Logs *)

(** What is new in the log of [st'] with respect to the log of [st]. *)
Definition new_calls {dev : Type} (st st' : state dev) : list call :=
  drop (length (calls st)) (calls st').

(** The reads of a log, in order: block and answer. *)
Definition reads_of (l : list call) : list (Z * bool) :=
  omap (fun c => match c with CallRead b ok => Some (b, ok) | _ => None end) l.

(** The authentications of a log, in order: command, block, key, answer. *)
Definition auths_of (l : list call) : list (mifare_cmd * Z * list byte * bool) :=
  omap (fun c => match c with
                 | CallAuth mc b key _ ok => Some (mc, b, key, ok)
                 | _ => None
                 end) l.

(** The writes of block [t] in a log, in order: data and answer. *)
Definition writes_to (t : Z) (l : list call) : list (list byte * bool) :=
  omap (fun c => match c with
                 | CallWrite b data ok => if b =? t then Some (data, ok) else None
                 | _ => None
                 end) l.

(** The call is a tag selection, or an authentication of block [b]. *)
Definition auth_at (b : Z) (c : call) : Prop :=
  match c with
  | CallSelect _ _ => True
  | CallAuth _ b' _ _ _ => b' = b
  | _ => False
  end.

(** The call is a tag selection, or a command for a block satisfying [P]. *)
Definition blocks_in (P : Z -> Prop) (c : call) : Prop :=
  match c with
  | CallSelect _ _ => True
  | CallAuth _ b _ _ _ | CallRead b _ | CallWrite b _ _ => P b
  end.

(** The call is not a write of block 0. *)
Definition not_write0 (c : call) : Prop :=
  match c with
  | CallWrite b _ _ => b <> 0
  | _ => True
  end.

(** The call is one that [nfc_initiator_mifare_cmd (pnd, mc, b, &mp)] makes. *)
Definition cmd_call (mc : mifare_cmd) (b : Z) (c : call) : Prop :=
  match mc, c with
  | (MC_AUTH_A | MC_AUTH_B), CallAuth mc' b' _ _ _ => mc' = mc /\ b' = b
  | MC_READ, CallRead b' _ => b' = b
  | MC_WRITE, CallWrite b' _ _ => b' = b
  | _, _ => False
  end.

(** [evolves Q st st']: [st'] is [st] after some calls to the device, all
    of which satisfy [Q]; the settings of the session are the same. *)
Definition evolves {dev : Type} (Q : call -> Prop) (st st' : state dev) : Prop :=
  uiBlocks st' = uiBlocks st /\
  bUseKeyA st' = bUseKeyA st /\
  bUseKeyFile st' = bUseKeyFile st /\
  exists l, calls st' = calls st ++ l /\ Forall Q l.


(** ** Reference definitions for the statements *)

(** The 16 bytes of data block [blk] (0, 1 or 2) of the 4-block sector
    [sector] of a dump, read by position. *)
Definition data_block_bytes (abDump : list byte) (sector blk : nat) : list byte :=
  sub abDump (sector * 64 + blk * 16) 16.

(** The data blocks of the sectors 1 to 15, in ascending block order. *)
Definition payload_1_15 (abDump : list byte) : list byte :=
  flat_map (fun s => flat_map (data_block_bytes abDump s) [0; 1; 2]%nat) (seq 1 15).

(** The 16 bytes of a block seen as a trailer: Key A, access bits, Key B. *)
Definition trailer_fields (blk : block) : list byte :=
  mbt_abtKeyA blk ++ mbt_abtAccessBits blk ++ mbt_abtKeyB blk.

(** Where [authenticate] stores a key it found, inside a block of [mtKeys]. *)
Definition key_offset (useA : bool) : nat :=
  if useA then off_abtKeyA else off_abtKeyB.

(** The index of the first candidate key that [accept] accepts. *)
Definition first_accepted (accept : list byte -> bool) : option nat :=
  find (fun j => accept (candidate j)) (seq 0 num_keys).

(** ** Concrete devices and cards, to run the program on *)

Fixpoint bytes_eqb (a b : list byte) : bool :=
  match a, b with
  | [], [] => true
  | x :: a', y :: b' => Byte.eqb x y && bytes_eqb a' b'
  | _, _ => false
  end.

(** A card in the field of a reader that answers each command by a fixed
    rule: whether selection succeeds, which keys a block accepts, what a
    block reads as, whether a block can be written. *)
Record card := mk_card {
  card_select : bool;
  card_auth : mifare_cmd -> Z -> list byte -> bool;
  card_read : Z -> option (list byte);
  card_write : Z -> bool
}.

Definition card_nti : nfc_target_info :=
  mk_nti [x04; x00] x08 [xde; xad; xbe; xef].

Definition card_transport (c : card) : transport unit :=
  mk_transport unit
    (fun d _ => (if card_select c then Some card_nti else None, d))
    (fun d mc b key _ => (card_auth c mc b key, d))
    (fun d b => (card_read c b, d))
    (fun d b _ => (card_write c b, d)).

Definition zero_block : block := repeat x00 16.
Definition zero_tag : mifare_tag := repeat zero_block 256.

(** The block whose 16 bytes all are [v]. *)
Definition fill_block (v : byte) : block := repeat v 16.

(** A tag whose block [k] is filled with the byte of value [k]. *)
Definition marker_tag : mifare_tag :=
  map (fun k => repeat (default x00 (Byte.of_nat k)) 16) (seq 0 256).

(** A 1K dump whose block [k] is filled with the byte of value [k]. *)
Definition marker_dump : list byte :=
  flat_map (fun k => repeat (default x00 (Byte.of_nat k)) 16) (seq 0 64).

(** The state [main] hands to [read_card]: the dump zeroed (line 399), the
    tag selected, no key file, [blocks] the last block of the card. *)
Definition read_start (useA : bool) (blocks : Z) : state unit :=
  mk_state tt card_nti (repeat x00 16) zero_tag zero_tag useA false blocks [] [].

(** The state [main] hands to [write_card], with the dump [dump] loaded. *)
Definition write_start (useA : bool) (blocks : Z) (dump : mifare_tag) : state unit :=
  mk_state tt card_nti (repeat x00 16) zero_tag dump useA false blocks [] [].

(** A card on which every command succeeds with any key; each block reads
    as 16 bytes [xa5]. *)
Definition good_card : card :=
  mk_card true (fun _ _ _ => true) (fun _ => Some (fill_block xa5)) (fun _ => true).

(** [good_card], except that the blocks satisfying [bad] cannot be read. *)
Definition card_unreadable_at (bad : Z -> bool) : card :=
  mk_card true (fun _ _ _ => true)
    (fun b => if bad b then None else Some (fill_block xa5)) (fun _ => true).

(** [card_unreadable_at bad] taken out of the field before the program
    selects it again. *)
Definition card_removed (bad : Z -> bool) : card :=
  mk_card false (fun _ _ _ => true)
    (fun b => if bad b then None else Some (fill_block xa5)) (fun _ => true).

(** [good_card], except that the blocks satisfying [bad] cannot be written,
    and that selection answers [sel]. *)
Definition card_unwritable_at (sel : bool) (bad : Z -> bool) : card :=
  mk_card sel (fun _ _ _ => true) (fun _ => Some (fill_block xa5))
    (fun b => negb (bad b)).

(** A card all of whose sectors have the key [k], as Key A and as Key B. *)
Definition card_with_key (k : list byte) : card :=
  mk_card true (fun _ _ key => bytes_eqb key k)
    (fun _ => Some (fill_block xa5)) (fun _ => true).


(** ** Further reference definitions *)

(** The blocks read in a log, in order. *)
Definition read_blocks (l : list call) : list Z := map fst (reads_of l).

(** The writes of a log, in order: block, data and answer. *)
Definition writes_of (l : list call) : list (Z * list byte * bool) :=
  omap (fun c => match c with
                 | CallWrite b data ok => Some (b, data, ok)
                 | _ => None
                 end) l.

(** The blocks written in a log, in order. *)
Definition written_blocks (l : list call) : list Z :=
  map (fun w => fst (fst w)) (writes_of l).

Definition is_read (c : call) : bool :=
  match c with CallRead _ _ => true | _ => false end.

Definition is_write (c : call) : bool :=
  match c with CallWrite _ _ _ => true | _ => false end.

(** The state [main] hands to a pass after it loaded the key file [keys]:
    as [read_start] and [write_start], with [bUseKeyFile] set. *)
Definition keyfile_start (useA : bool) (blocks : Z) (keys dump : mifare_tag)
    : state unit :=
  mk_state tt card_nti (repeat x00 16) keys dump useA true blocks [] [].

(** The calls of the brute-force loop of [authenticate] for the candidates
    it is refused, from candidate number [j] on: the authentication with
    the candidate, refused, then the selection of the tag by its uid, whose
    answers are [sel]. *)
Fixpoint refused_attempts (mc : mifare_cmd) (b : Z) (uid : list byte) (j : nat)
    (sel : list bool) : list call :=
  match sel with
  | [] => []
  | ok :: sel' =>
      CallAuth mc b (candidate j) uid false :: CallSelect (Some uid) ok
        :: refused_attempts mc b uid (Datatypes.S j) sel'
  end.

(** The arrays [mtKeys] and [mtDump] as C declares them: 256 blocks of 16
    bytes. *)
Definition wf_tag (t : mifare_tag) : Prop :=
  length t = 256%nat /\ Forall (fun b : block => length b = 16%nat) t.

(** What the read loop puts into a block [b] of the dump after a read that
    succeeded, [p] being the parameter buffer that holds the data read and
    [K] the block of [mtKeys] (lines 195-215): for a trailer block, Key A
    and Key B of [K] around the access bits read; for another block, the
    16 bytes read. *)
Definition stored_block (trailer : bool) (K : block) (p : mifare_param) (b : block)
    : block :=
  if trailer
  then memcpy (memcpy (memcpy b off_abtKeyA K off_abtKeyA 6)
                 off_abtAccessBits p 6 4) off_abtKeyB K off_abtKeyB 6
  else memcpy b 0 p 0 16.

(** What [st'] printed after [st]. *)
Definition new_stdout {dev : Type} (st st' : state dev) : list output :=
  drop (length (stdout st)) (stdout st').

(** The progress marks of an output, in order: [true] for 'x', [false]
    for '.'. *)
Definition marks_of (out : list output) : list bool :=
  omap (fun o => match o with OutProgress b => Some b | _ => None end) out.

(** The number of blocks [b] in [0, n) that satisfy [p]. *)
Fixpoint count_below (p : Z -> bool) (n : nat) : nat :=
  match n with
  | O => O
  | Datatypes.S m => ((if p (Z.of_nat m) then 1 else 0) + count_below p m)%nat
  end.

(** The number of '.' marks among progress marks. *)
Definition successes (marks : list bool) : nat :=
  length (List.filter negb marks).

(** ** The actions of [main] (lines 381-537) *)

Inductive exit_status := EXIT_SUCCESS | EXIT_FAILURE.

(** [fread (buf, 1, 4096, pf) != 4096], for the 4096 bytes of a [mifare_tag]
    (lines 389, 409) or of [abDump] (line 518): the first 4096 bytes of the
    file, when the file has them. *)
Definition fread_4096 (file : list byte) : option (list byte) :=
  if (length file <? 4096)%nat then None else Some (take 4096 file).

(** Modelled from the spec: a [mifare_tag] lies over its 4096 bytes as 256
    blocks of 16 bytes, block [k] at offset [16 * k] (the dump file format);
    the declaration in [mifaretag.h] is not part of the sources at hand. *)
Definition tag_of_bytes (bs : list byte) : mifare_tag :=
  map (fun k => sub bs (k * 16) 16) (seq 0 256).

Definition bytes_of_tag (t : mifare_tag) : list byte := concat t.

Definition byte_to_Z (b : byte) : Z := Z.of_N (Byte.to_N b).

(** The globals before the tag is selected; [nti] is not read before the
    selection of line 443 sets it. *)
Definition nti_zero : nfc_target_info := mk_nti (repeat x00 2) x00 (repeat x00 10).

Definition session_start {dev : Type} (d : dev) (keys dump : mifare_tag)
    (useA useKeyFile : bool) : state dev :=
  mk_state d nti_zero (repeat x00 16) keys dump useA useKeyFile 0 [] [].

(** What a run of [main] for the actions read and write leaves: the exit
    status, the state when the reader was connected, and the 4096 bytes
    written to the dump file when [fwrite] wrote them all. What [main]
    itself prints is not modelled. *)
Record session_result (dev : Type) := mk_result {
  exit_code : exit_status;
  final : option (state dev);
  dump_written : option (list byte)
}.
Arguments mk_result {dev}.
Arguments exit_code {dev}.
Arguments final {dev}.
Arguments dump_written {dev}.

Section Session.
Context {dev : Type} (T : transport dev).

Definition set_uiBlocks (n : Z) (st : state dev) : state dev :=
  mk_state (pnd st) (nti st) (mp st) (mtKeys st) (mtDump st)
    (bUseKeyA st) (bUseKeyFile st) n (calls st) (stdout st).

(** Lines 442-497: the selection of the tag, the test of its SAK, the number
    of blocks from its ATQA, the pass, and the dump file after a read pass.
    [fwrite_ok] says whether the [fwrite] of line 485 writes the 4096 bytes
    (the [fopen] of line 484 is taken to succeed; the code does not test
    it). The comparison of the uid with the one of the key file (lines
    458-469) only prints and is left out. *)
Definition main_tag (atAction_read fwrite_ok : bool) (st : state dev)
    : session_result dev :=
  let '(ok, st) := nfc_initiator_select_tag T None true st in
  if negb ok then mk_result EXIT_FAILURE (Some st) None
  else if Z.land (byte_to_Z (btSak (nti st))) 8 =? 0
  then mk_result EXIT_FAILURE (Some st) None
  else
    let b4K := Byte.eqb (nth 1 (abtAtqa (nti st)) x00) x02 in
    let st := set_uiBlocks (if b4K then 255 else 63) st in
    match main_pass T atAction_read st with
    | (Some dump, st) =>
        if fwrite_ok
        then mk_result EXIT_SUCCESS (Some st) (Some (bytes_of_tag dump))
        else mk_result EXIT_FAILURE (Some st) None
    | (None, st) => mk_result EXIT_SUCCESS (Some st) None
    end.

(** Lines 381-497, the actions read and write after the arguments were
    parsed: the key file when one is used, the dump zeroed or loaded from
    the dump file, the reader, then [main_tag]. [keys_file] and [dump_file]
    are the contents of the files when they can be opened; [connect] is
    the reader that lines 420-438 connect and configure, when there is
    one. *)
Definition main_rw (atAction_read useA useKeyFile : bool)
    (keys_file dump_file : option (list byte)) (connect : option dev)
    (fwrite_ok : bool) : session_result dev :=
  let keys :=
    if useKeyFile
    then match keys_file with
         | None => None
         | Some f => option_map tag_of_bytes (fread_4096 f)
         end
    else Some zero_tag in
  match keys with
  | None => mk_result EXIT_FAILURE None None
  | Some keys =>
      let dump :=
        if atAction_read then Some zero_tag
        else match dump_file with
             | None => None
             | Some f => option_map tag_of_bytes (fread_4096 f)
             end in
      match dump with
      | None => mk_result EXIT_FAILURE None None
      | Some dump =>
          match connect with
          | None => mk_result EXIT_FAILURE None None
          | Some d =>
              main_tag atAction_read fwrite_ok
                (session_start d keys dump useA useKeyFile)
          end
      end
  end.

End Session.


(** * Properties *)

(** ** Sector geometry *)

Ltac geom :=
  unfold same_sector, get_trailer_block, is_first_block, is_trailer_block, wrap32 in *;
  change (2 ^ 32) with 4294967296 in *;
  repeat match goal with
    | |- context [?a <? ?b] => destruct (Z.ltb_spec a b)
    | H : context [?a <? ?b] |- _ => destruct (Z.ltb_spec a b)
    | |- context [?a <=? ?b] => destruct (Z.leb_spec a b)
    | |- context [?a =? ?b] => destruct (Z.eqb_spec a b)
    | H : context [?a =? ?b] |- _ => destruct (Z.eqb_spec a b)
    end;
  try (Z.div_mod_to_equations; lia).

Lemma get_trailer_block_small (x : Z) :
  0 <= x < 128 -> get_trailer_block x = x + 3 - x mod 4.
Proof. intros. geom. Qed.

Lemma get_trailer_block_big (x : Z) :
  128 <= x < 2 ^ 32 -> get_trailer_block x = x + 15 - x mod 16.
Proof. intros. geom. Qed.

Lemma is_trailer_not_first (x : Z) :
  0 <= x < 2 ^ 32 -> is_trailer_block x = true -> is_first_block x = false.
Proof. intros; geom; try reflexivity; try discriminate. Qed.

Lemma get_trailer_block_idem (x : Z) :
  0 <= x < 2 ^ 32 ->
  get_trailer_block (get_trailer_block x) = get_trailer_block x.
Proof.
  intros Hx.
  destruct (Z_lt_le_dec x 128).
  - rewrite (get_trailer_block_small x) by lia.
    rewrite get_trailer_block_small; Z.div_mod_to_equations; lia.
  - rewrite (get_trailer_block_big x) by lia.
    rewrite get_trailer_block_big;
      change (2 ^ 32) with 4294967296 in *; Z.div_mod_to_equations; lia.
Qed.

(** C8. For every block [b] of a 1K card ([0..63]) or a 4K card ([0..255]),
    the sector of [b] is the run of 4 blocks (below block 128) or 16 blocks
    (from block 128 on) that ends at [get_trailer_block b] and starts at a
    multiple of 4, respectively of 16; it stays inside the card and on its
    side of block 128; among its blocks exactly the first one satisfies
    [is_first_block] and exactly the last one satisfies [is_trailer_block];
    [get_trailer_block] sends each of its blocks to that last one; and
    [get_trailer_block] is idempotent. *)
Theorem sector_geometry (b : Z) :
  0 <= b <= 255 ->
  let t := get_trailer_block b in
  let f := t - (if b <? 128 then 3 else 15) in
  (0 <= f <= b /\ b <= t <= (if b <=? 63 then 63 else 255)) /\
  (if b <? 128 then f mod 4 = 0 /\ t < 128 else 128 <= f /\ f mod 16 = 0) /\
  (forall x, 0 <= x < 2 ^ 32 -> (same_sector x b <-> f <= x <= t)) /\
  (forall x, f <= x <= t -> get_trailer_block x = t) /\
  (forall x, f <= x <= t -> (is_first_block x = true <-> x = f)) /\
  (forall x, f <= x <= t -> (is_trailer_block x = true <-> x = t)) /\
  get_trailer_block (get_trailer_block b) = get_trailer_block b.
Proof.
  intros Hb t f.
  assert (Ht : t = if b <? 128 then b + 3 - b mod 4 else b + 15 - b mod 16).
  { subst t. destruct (Z.ltb_spec b 128).
    - apply get_trailer_block_small; lia.
    - apply get_trailer_block_big; change (2 ^ 32) with 4294967296; lia. }
  assert (Hsec : forall x, 0 <= x < 2 ^ 32 -> (same_sector x b <-> f <= x <= t)).
  { intros x Hx. unfold same_sector. fold t. subst f. rewrite Ht.
    change (2 ^ 32) with 4294967296 in Hx.
    destruct (Z.ltb_spec b 128); destruct (Z_lt_le_dec x 128).
    - rewrite get_trailer_block_small by lia. Z.div_mod_to_equations; lia.
    - rewrite get_trailer_block_big by (change (2 ^ 32) with 4294967296; lia).
      Z.div_mod_to_equations; lia.
    - rewrite get_trailer_block_small by lia. Z.div_mod_to_equations; lia.
    - rewrite get_trailer_block_big by (change (2 ^ 32) with 4294967296; lia).
      Z.div_mod_to_equations; lia. }
  assert (Hrange : 0 <= f <= b /\ b <= t <= (if b <=? 63 then 63 else 255)).
  { subst f. rewrite Ht.
    destruct (Z.ltb_spec b 128); destruct (Z.leb_spec b 63);
      Z.div_mod_to_equations; lia. }
  assert (Hin : forall x, f <= x <= t -> 0 <= x < 2 ^ 32).
  { intros x Hx. change (2 ^ 32) with 4294967296.
    destruct (Z.leb_spec b 63); lia. }
  split; [exact Hrange|]. split.
  { subst f. rewrite Ht. destruct (Z.ltb_spec b 128); Z.div_mod_to_equations; lia. }
  split; [exact Hsec|].
  split; [|split; [|split]].
  - intros x Hx. apply (Hsec x); auto.
  - intros x Hx. subst f. rewrite Ht in *. clear Hsec Hin Hrange Ht t.
    unfold is_first_block.
    destruct (Z.ltb_spec b 128); destruct (Z.ltb_spec x 128);
      match goal with
      | |- context [?a =? ?c] => destruct (Z.eqb_spec a c)
      end; split; intros; try discriminate; try reflexivity;
      Z.div_mod_to_equations; lia.
  - intros x Hx. subst f. rewrite Ht in *. clear Hsec Hin Hrange Ht t.
    unfold is_trailer_block, wrap32. change (2 ^ 32) with 4294967296.
    destruct (Z.ltb_spec b 128); destruct (Z.ltb_spec x 128);
      match goal with
      | |- context [?a =? ?c] => destruct (Z.eqb_spec a c)
      end; split; intros; try discriminate; try reflexivity;
      Z.div_mod_to_equations; lia.
  - apply get_trailer_block_idem. change (2 ^ 32) with 4294967296. lia.
Qed.

Lemma sector_geometry_witness :
  let t := get_trailer_block 130 in
  let f := t - 15 in
  (0 <= f <= 130 /\ 130 <= t <= 255) /\
  (128 <= f /\ f mod 16 = 0) /\
  (forall x, 0 <= x < 2 ^ 32 -> (same_sector x 130 <-> f <= x <= t)) /\
  (forall x, f <= x <= t -> get_trailer_block x = t) /\
  (forall x, f <= x <= t -> (is_first_block x = true <-> x = f)) /\
  (forall x, f <= x <= t -> (is_trailer_block x = true <-> x = t)) /\
  get_trailer_block (get_trailer_block 130) = get_trailer_block 130.
Proof. apply (sector_geometry 130). lia. Defined.

(** ** Byte arrays *)

Lemma length_sub (a : list byte) (off n : nat) :
  (off + n <= length a)%nat -> length (sub a off n) = n.
Proof. intros H. unfold sub. rewrite length_take, length_drop. lia. Qed.

Lemma memcpy_at_end (W R src : list byte) (doff soff n : nat) :
  length W = doff ->
  memcpy (W ++ R) doff src soff n = (W ++ sub src soff n) ++ drop n R.
Proof.
  intros HW. unfold memcpy, sub.
  rewrite take_app_length' by auto.
  rewrite drop_app_add' by auto.
  now rewrite <- app_assoc.
Qed.

(** ** The payload extractor *)

Lemma extract_blocks_run (D : list byte) (s : nat) :
  forall (n b idx : nat) (W R : list byte),
    length W = idx ->
    (s * 64 + (b + n) * 16 <= length D)%nat ->
    iterate (extract_block D (Z.of_nat s)) Z.succ n (Z.of_nat b) (Z.of_nat idx) (W ++ R)
    = (Continue (Z.of_nat (idx + 16 * n)),
       (W ++ flat_map (data_block_bytes D s) (seq b n)) ++ drop (16 * n) R).
Proof.
  induction n as [|n IH]; intros b idx W R HW HD.
  - cbn [iterate seq flat_map]. rewrite drop_0, app_nil_r.
    do 2 f_equal. lia.
  - cbn [iterate seq flat_map]. unfold extract_block at 1.
    replace (Z.to_nat (Z.of_nat idx)) with idx by lia.
    replace (Z.to_nat (Z.of_nat s * 16 * 4 + Z.of_nat b * 16))
      with (s * 64 + b * 16)%nat by lia.
    rewrite memcpy_at_end by auto.
    replace (Z.succ (Z.of_nat b)) with (Z.of_nat (Datatypes.S b)) by lia.
    replace (Z.of_nat idx + 16) with (Z.of_nat (idx + 16)) by lia.
    rewrite IH.
    + rewrite drop_drop. unfold data_block_bytes at 2.
      rewrite <- !app_assoc.
      do 2 f_equal; [lia|].
      do 3 f_equal. lia.
    + rewrite length_app, length_sub; lia.
    + lia.
Qed.

Lemma length_data_blocks (D : list byte) (s : nat) :
  forall (n b : nat),
    (s * 64 + (b + n) * 16 <= length D)%nat ->
    length (flat_map (data_block_bytes D s) (seq b n)) = (16 * n)%nat.
Proof.
  induction n as [|n IH]; intros b HD; cbn [seq flat_map]; [reflexivity|].
  rewrite length_app, IH by lia.
  unfold data_block_bytes. rewrite length_sub; lia.
Qed.

Lemma extract_sectors_run (D : list byte) :
  forall (n s idx : nat) (W R : list byte),
    length W = idx ->
    ((s + n) * 64 <= length D)%nat ->
    iterate (extract_sector D) Z.succ n (Z.of_nat s) (Z.of_nat idx) (W ++ R)
    = (Continue (Z.of_nat (idx + 48 * n)),
       (W ++ flat_map (fun s => flat_map (data_block_bytes D s) [0; 1; 2]%nat) (seq s n))
         ++ drop (48 * n) R).
Proof.
  induction n as [|n IH]; intros s idx W R HW HD.
  - cbn [iterate seq flat_map]. rewrite drop_0, app_nil_r.
    do 2 f_equal. lia.
  - cbn [iterate seq flat_map]. unfold extract_sector at 1.
    change 0 with (Z.of_nat 0).
    rewrite extract_blocks_run by (auto; lia).
    replace (Z.succ (Z.of_nat s)) with (Z.of_nat (Datatypes.S s)) by lia.
    rewrite IH.
    + rewrite drop_drop. change (seq 0 3) with [0; 1; 2]%nat.
      cbn [flat_map]. rewrite <- !app_assoc. cbn [app].
      do 2 f_equal; [lia|].
      do 5 f_equal. lia.
    + rewrite length_app, length_data_blocks; lia.
    + lia.
Qed.

Lemma length_payload_sectors (D : list byte) :
  forall (n s : nat),
    ((s + n) * 64 <= length D)%nat ->
    length (flat_map (fun s => flat_map (data_block_bytes D s) [0; 1; 2]%nat) (seq s n))
    = (48 * n)%nat.
Proof.
  induction n as [|n IH]; intros s HD; cbn [seq]; [reflexivity|].
  change (flat_map ?f (s :: ?l)) with (f s ++ flat_map f l).
  rewrite length_app, IH by lia.
  change [0; 1; 2]%nat with (seq 0 3).
  rewrite length_data_blocks; lia.
Qed.

Lemma sector_data_contiguous (D : list byte) (s : nat) :
  flat_map (data_block_bytes D s) [0; 1; 2]%nat = sub D (s * 64) 48.
Proof.
  cbn [flat_map]. unfold data_block_bytes, sub. rewrite app_nil_r.
  replace (s * 64 + 0 * 16)%nat with (s * 64)%nat by lia.
  replace (s * 64 + 1 * 16)%nat with (s * 64 + 16)%nat by lia.
  replace (s * 64 + 2 * 16)%nat with (s * 64 + 16 + 16)%nat by lia.
  rewrite <- !drop_drop.
  rewrite !take_take_drop. reflexivity.
Qed.

Lemma lookup_payload_sectors (D : list byte) :
  forall (n s i : nat),
    ((s + n) * 64 <= length D)%nat ->
    (i < 48 * n)%nat ->
    flat_map (fun s => flat_map (data_block_bytes D s) [0; 1; 2]%nat) (seq s n) !! i
    = D !! (64 * (s + i / 48) + i mod 48)%nat.
Proof.
  induction n as [|n IH]; intros s i HD Hi; [lia|].
  cbn [seq].
  change (flat_map ?f (s :: ?l)) with (f s ++ flat_map f l). cbv beta.
  rewrite sector_data_contiguous.
  assert (HL : length (sub D (s * 64) 48) = 48%nat) by (apply length_sub; lia).
  destruct (Nat.lt_ge_cases i 48) as [Hlt|Hge].
  - rewrite lookup_app_l by lia.
    unfold sub. rewrite lookup_take_lt, lookup_drop by lia.
    rewrite Nat.div_small, Nat.mod_small by lia. f_equal. lia.
  - rewrite lookup_app_r by lia. rewrite HL.
    rewrite IH by lia.
    replace i with ((i - 48) + 1 * 48)%nat at 3 4 by lia.
    rewrite Nat.div_add, Nat.Div0.mod_add by lia.
    f_equal. lia.
Qed.

(** C6. For a dump of at least the 1K size, the first 720 bytes the
    extractor writes are the data blocks 0, 1, 2 of the sectors 1 to 15, in
    ascending block order (15 x 3 x 16 = 720 bytes); the output bytes after
    them are left as they were; and output byte [i] is the dump byte at
    offset [64 * (i / 48 + 1) + i mod 48], which is neither in sector 0
    (offset below 64) nor in a trailer block (offset modulo 64 from 48 on). *)
Theorem extract_payload_1K (abDump pbPayload : list byte) :
  (1024 <= length abDump)%nat ->
  (720 <= length pbPayload)%nat ->
  let out := mifare_classic_extract_payload abDump pbPayload in
  take 720 out = payload_1_15 abDump /\
  length (payload_1_15 abDump) = 720%nat /\
  drop 720 out = drop 720 pbPayload /\
  length out = length pbPayload /\
  (forall i : nat, (i < 720)%nat ->
     let o := (64 * (i / 48 + 1) + i mod 48)%nat in
     out !! i = abDump !! o /\ (64 <= o < 1024)%nat /\ (o mod 64 < 48)%nat).
Proof.
  intros HD HP out.
  assert (Hlen : length (payload_1_15 abDump) = 720%nat).
  { unfold payload_1_15. rewrite length_payload_sectors; lia. }
  assert (Hout : out = payload_1_15 abDump ++ drop 720 pbPayload).
  { subst out. unfold mifare_classic_extract_payload.
    change 1 with (Z.of_nat 1). change 0 with (Z.of_nat 0).
    change pbPayload with ([] ++ pbPayload) at 1.
    rewrite extract_sectors_run by (cbn [length]; lia).
    reflexivity. }
  rewrite Hout.
  split; [|split; [|split; [|split]]].
  - rewrite take_app_length'; auto.
  - exact Hlen.
  - rewrite drop_app_length'; auto.
  - rewrite length_app, Hlen, length_drop. lia.
  - intros i Hi o. split; [|split].
    + rewrite lookup_app_l by lia.
      unfold payload_1_15. rewrite lookup_payload_sectors by lia.
      subst o. f_equal. lia.
    + subst o. pose proof (Nat.Div0.div_lt_upper_bound i 48 15).
      pose proof (Nat.mod_upper_bound i 48). lia.
    + subst o. pose proof (Nat.mod_upper_bound i 48).
      replace (64 * (i / 48 + 1) + i mod 48)%nat
        with (i mod 48 + (i / 48 + 1) * 64)%nat by lia.
      rewrite Nat.Div0.mod_add. rewrite Nat.mod_small; lia.
Qed.

Lemma extract_payload_1K_witness :
  let out := mifare_classic_extract_payload marker_dump (repeat x00 4096) in
  take 720 out = payload_1_15 marker_dump /\
  length (payload_1_15 marker_dump) = 720%nat /\
  drop 720 out = drop 720 (repeat x00 4096) /\
  length out = length (repeat x00 4096) /\
  (forall i : nat, (i < 720)%nat ->
     let o := (64 * (i / 48 + 1) + i mod 48)%nat in
     out !! i = marker_dump !! o /\ (64 <= o < 1024)%nat /\ (o mod 64 < 48)%nat).
Proof.
  apply (extract_payload_1K marker_dump (repeat x00 4096)).
  - vm_compute. lia.
  - rewrite repeat_length. lia.
Defined.

(** ** Counted loops *)


Lemma iter_pred (n : nat) (i : Z) : Nat.iter n Z.pred i = i - Z.of_nat n.
Proof.
  induction n as [|n IH]; [simpl; lia|].
  rewrite Nat.iter_succ, IH. lia.
Qed.

Lemma iter_succ (n : nat) (i : Z) : Nat.iter n Z.succ i = i + Z.of_nat n.
Proof.
  induction n as [|n IH]; [simpl; lia|].
  rewrite Nat.iter_succ, IH. lia.
Qed.

(** A loop keeps what each run of its body keeps: [R] relates the state
    before and after the body, at each index the loop goes through. *)
Lemma iterate_rel {L S : Type} (body : Z -> L -> S -> flow L * S) (next : Z -> Z)
    (R : S -> S -> Prop) :
  (forall s, R s s) ->
  (forall s1 s2 s3, R s1 s2 -> R s2 s3 -> R s1 s3) ->
  forall n i loc st,
    (forall (k : nat) loc st, (k < n)%nat -> R st (snd (body (Nat.iter k next i) loc st))) ->
    R st (snd (iterate body next n i loc st)).
Proof.
  intros Hrefl Htrans.
  induction n as [|n IH]; intros i loc st Hbody; cbn [iterate]; [apply Hrefl|].
  pose proof (Hbody 0%nat loc st ltac:(lia)) as Hb. simpl in Hb.
  destruct (body i loc st) as [[loc'|r] st']; cbn [snd] in *; [|exact Hb].
  eapply Htrans; [exact Hb|]. apply IH.
  intros k loc0 st0 Hk. rewrite <- Nat.iter_succ_r. apply Hbody. lia.
Qed.

(** The rule for a loop with an invariant: [I k] holds before the [k]-th
    run of the body; a run that leaves the function establishes [Post]. *)
Lemma iterate_inv {L S : Type} (body : Z -> L -> S -> flow L * S) (next : Z -> Z)
    (I : nat -> L -> S -> Prop) (Post : bool -> S -> Prop) (n : nat) (i : Z) :
  (forall (k : nat) loc st, (k < n)%nat -> I k loc st ->
     match body (Nat.iter k next i) loc st with
     | (Continue loc', st') => I (Datatypes.S k) loc' st'
     | (Return r, st') => Post r st'
     end) ->
  forall loc st, I 0%nat loc st ->
    match iterate body next n i loc st with
    | (Continue loc', st') => I n loc' st'
    | (Return r, st') => Post r st'
    end.
Proof.
  revert i I. induction n as [|n IH]; intros i I Hbody loc st H0; cbn [iterate]; [exact H0|].
  pose proof (Hbody 0%nat loc st ltac:(lia) H0) as Hb. simpl in Hb.
  destruct (body i loc st) as [[loc'|r] st']; [|exact Hb].
  apply (IH (next i) (fun k => I (Datatypes.S k))); [|exact Hb].
  intros k loc0 st0 Hk HI.
  rewrite <- Nat.iter_succ_r. apply Hbody; [lia|exact HI].
Qed.

(** ** The engine: what a run adds to the log *)

Section EngineProps.
Context {dev : Type} (T : transport dev).

Lemma evolves_refl (Q : call -> Prop) (st : state dev) : evolves Q st st.
Proof.
  repeat split. exists []. rewrite app_nil_r. split; [reflexivity|constructor].
Qed.

Lemma evolves_trans (Q : call -> Prop) (s1 s2 s3 : state dev) :
  evolves Q s1 s2 -> evolves Q s2 s3 -> evolves Q s1 s3.
Proof.
  intros (A1 & B1 & C1 & l1 & E1 & F1) (A2 & B2 & C2 & l2 & E2 & F2).
  repeat split; try congruence.
  exists (l1 ++ l2). split.
  - rewrite E2, E1. now rewrite app_assoc.
  - apply Forall_app; auto.
Qed.

Lemma evolves_mono (Q Q' : call -> Prop) (s s' : state dev) :
  (forall c, Q c -> Q' c) -> evolves Q s s' -> evolves Q' s s'.
Proof.
  intros HQ (A & B & C & l & E & F). repeat split; auto.
  exists l. split; auto. eapply Forall_impl; eauto.
Qed.

Lemma evolves_new_calls (Q : call -> Prop) (s s' : state dev) :
  evolves Q s s' -> calls s' = calls s ++ new_calls s s' /\ Forall Q (new_calls s s').
Proof.
  intros (_ & _ & _ & l & E & F). unfold new_calls.
  rewrite E, drop_app_length. auto.
Qed.

Lemma evolves_set_dev (Q : call -> Prop) (d : dev) (c : call) (st : state dev) :
  Q c -> evolves Q st (set_dev d c st).
Proof.
  intros Hc. repeat split. exists [c]. split; [reflexivity|].
  constructor; [exact Hc|constructor].
Qed.

Lemma evolves_printf_r (Q : call -> Prop) (o : output) (s s' : state dev) :
  evolves Q s s' -> evolves Q s (printf o s').
Proof. intros H. exact H. Qed.

Lemma evolves_set_mp_r (Q : call -> Prop) (p : mifare_param) (s s' : state dev) :
  evolves Q s s' -> evolves Q s (set_mp p s').
Proof. intros H. exact H. Qed.

Lemma evolves_set_nti_r (Q : call -> Prop) (ti : nfc_target_info) (s s' : state dev) :
  evolves Q s s' -> evolves Q s (set_nti ti s').
Proof. intros H. exact H. Qed.

Lemma evolves_set_mtKeys_r (Q : call -> Prop) (t : mifare_tag) (s s' : state dev) :
  evolves Q s s' -> evolves Q s (set_mtKeys t s').
Proof. intros H. exact H. Qed.

Lemma evolves_set_mtDump_r (Q : call -> Prop) (t : mifare_tag) (s s' : state dev) :
  evolves Q s s' -> evolves Q s (set_mtDump t s').
Proof. intros H. exact H. Qed.

Lemma select_evolves (Q : call -> Prop) (init : option (list byte)) (pti : bool)
    (st : state dev) :
  (forall ok, Q (CallSelect init ok)) ->
  evolves Q st (snd (nfc_initiator_select_tag T init pti st)).
Proof.
  intros HQ. unfold nfc_initiator_select_tag.
  destruct (tr_select T (pnd st) init) as [[ti|] d]; cbn [snd].
  - destruct pti; [apply evolves_set_nti_r|]; apply evolves_set_dev; auto.
  - apply evolves_set_dev; auto.
Qed.

Lemma mifare_cmd_evolves (Q : call -> Prop) (mc : mifare_cmd) (b : Z)
    (st : state dev) :
  (forall c, cmd_call mc b c -> Q c) ->
  evolves Q st (snd (nfc_initiator_mifare_cmd T mc b st)).
Proof.
  intros HQ. unfold nfc_initiator_mifare_cmd.
  destruct mc.
  - destruct (tr_authenticate T _ _ _ _ _) as [ok d]; cbn [snd].
    apply evolves_set_dev, HQ. cbn. auto.
  - destruct (tr_authenticate T _ _ _ _ _) as [ok d]; cbn [snd].
    apply evolves_set_dev, HQ. cbn. auto.
  - destruct (tr_read T _ _) as [[data|] d]; cbn [snd].
    + apply evolves_set_mp_r, evolves_set_dev, HQ. cbn. auto.
    + apply evolves_set_dev, HQ. cbn. auto.
  - destruct (tr_write T _ _ _) as [ok d]; cbn [snd].
    apply evolves_set_dev, HQ. cbn. auto.
Qed.

(** Backward chaining through the states of a run: the setters are peeled
    off the final state, each call to the device is accounted for by its
    own [evolves] fact. *)
Ltac ev_chain :=
  repeat first
    [ apply evolves_refl
    | apply evolves_printf_r
    | apply evolves_set_mp_r
    | apply evolves_set_nti_r
    | apply evolves_set_mtKeys_r
    | apply evolves_set_mtDump_r
    | match goal with
      | H : evolves _ ?a ?b |- evolves ?Q _ ?b =>
          apply (evolves_trans Q _ a b); [|eapply evolves_mono; [|exact H]]
      end ].

(** Names the result of the next call to the device in the goal, with the
    fact of what it added to the log. *)
Ltac ev_call :=
  match goal with
  | |- context [nfc_initiator_mifare_cmd T ?mc ?b ?st] =>
      let H := fresh "Hcmd" in
      pose proof (mifare_cmd_evolves (cmd_call mc b) mc b st (fun c h => h)) as H;
      destruct (nfc_initiator_mifare_cmd T mc b st) as [? ?]; cbn [snd fst] in H
  | |- context [nfc_initiator_select_tag T ?init ?pti ?st] =>
      let H := fresh "Hsel" in
      pose proof (select_evolves (fun c => exists ok, c = CallSelect init ok)
                    init pti st (fun ok => ex_intro _ ok eq_refl)) as H;
      destruct (nfc_initiator_select_tag T init pti st) as [? ?]; cbn [snd fst] in H
  end.

Lemma authenticate_body_evolves (mc : mifare_cmd) (b key_index : Z) (loc : unit)
    (st : state dev) :
  mc = MC_AUTH_A \/ mc = MC_AUTH_B ->
  evolves (auth_at b) st (snd (authenticate_body T mc b key_index loc st)).
Proof.
  intros Hmc. unfold authenticate_body.
  ev_call. destruct b0.
  - destruct (bUseKeyA s); cbn [snd]; ev_chain;
      intros c Hc; destruct Hmc; subst mc; destruct c; cbn in *; tauto.
  - ev_call. cbn [snd]. ev_chain.
    + intros c Hc; destruct Hmc; subst mc; destruct c; cbn in *; tauto.
    + intros c [ok ->]. exact I.
Qed.

Lemma authenticate_evolves (b : Z) (st : state dev) :
  evolves (auth_at b) st (snd (authenticate T b st)).
Proof.
  unfold authenticate. destruct (bUseKeyFile st).
  - destruct (bUseKeyA (set_mp _ st)).
    + ev_call. destruct b0; cbn [snd]; ev_chain;
        intros c Hc; destruct c; cbn in *; tauto.
    + ev_call. destruct b0; cbn [snd]; ev_chain;
        intros c Hc; destruct c; cbn in *; tauto.
  - match goal with
    | |- context [iterate ?body ?next ?n ?i ?loc ?s] =>
        pose proof (iterate_rel body next (evolves (auth_at b))
                      (evolves_refl _) (evolves_trans _) n i loc s) as Hit
    end.
    match type of Hit with
    | ?A -> _ => assert (Hb : A); [|specialize (Hit Hb); clear Hb]
    end.
    { intros k loc0 st0 _. apply authenticate_body_evolves.
      destruct (bUseKeyA st); auto. }
    destruct (iterate _ _ _ _ _ _) as [[[]|r] s2]; cbn [snd] in *; ev_chain; auto.
Qed.

Lemma write_card_first_evolves (i : Z) (loc : bool * Z) (st : state dev) :
  evolves (auth_at i) st (snd (write_card_first T i loc st)).
Proof.
  unfold write_card_first. destruct loc as [bFailure cnt].
  destruct (is_first_block i); [|apply evolves_refl].
  destruct (negb (i =? uiBlocks st)); unfold print_success_or_failure.
  - destruct bFailure.
    + ev_call. destruct b; cbn [negb snd].
      * pose proof (authenticate_evolves i s) as Ha.
        destruct (authenticate T i s) as [ok s']; cbn [snd] in Ha.
        destruct ok; cbn [negb snd]; ev_chain; auto; intros c [ok ->]; exact I.
      * ev_chain. intros c [ok ->]; exact I.
    + pose proof (authenticate_evolves i (printf (OutProgress false) st)) as Ha.
      destruct (authenticate T i _) as [ok s']; cbn [snd] in Ha.
      destruct ok; cbn [negb snd]; ev_chain; auto.
  - destruct bFailure.
    + ev_call. destruct b; cbn [negb snd].
      * pose proof (authenticate_evolves i s) as Ha.
        destruct (authenticate T i s) as [ok s']; cbn [snd] in Ha.
        destruct ok; cbn [negb snd]; ev_chain; auto; intros c [ok ->]; exact I.
      * ev_chain. intros c [ok ->]; exact I.
    + pose proof (authenticate_evolves i st) as Ha.
      destruct (authenticate T i _) as [ok s']; cbn [snd] in Ha.
      destruct ok; cbn [negb snd]; ev_chain; auto.
Qed.

Lemma write_card_block_evolves (i : Z) (loc : bool * Z) (st : state dev) :
  evolves (fun c => i <> 0 /\ exists data ok, c = CallWrite i data ok) st
    (snd (write_card_block T i loc st)).
Proof.
  unfold write_card_block. destruct loc as [bFailure cnt].
  destruct (is_trailer_block i) eqn:Etr.
  - assert (i <> 0) by (intros ->; discriminate).
    ev_call. destruct b; cbn [negb snd]; ev_chain;
      intros c Hc; destruct c; cbn in Hc; try tauto; subst; eauto.
  - destruct (Z.eqb_spec i 0); [apply evolves_refl|].
    destruct bFailure; cbn [negb]; [apply evolves_refl|].
    ev_call. destruct b; cbn [negb snd]; ev_chain;
      intros c Hc; destruct c; cbn in Hc; try tauto; subst; eauto.
Qed.

Lemma write_card_body_evolves (i : Z) (loc : bool * Z) (st : state dev) :
  evolves (fun c => auth_at i c \/ (i <> 0 /\ exists data ok, c = CallWrite i data ok))
    st (snd (write_card_body T i loc st)).
Proof.
  unfold write_card_body.
  pose proof (write_card_first_evolves i loc st) as H1.
  destruct (write_card_first T i loc st) as [[loc'|r] s1]; cbn [snd] in *.
  - pose proof (write_card_block_evolves i loc' s1) as H2.
    destruct (write_card_block T i loc' s1) as [fl s2]; cbn [snd] in *.
    ev_chain; auto.
  - ev_chain; auto.
Qed.

Lemma write_card_evolves (Q : call -> Prop) (st : state dev) :
  (forall i c, auth_at i c \/ (i <> 0 /\ exists data ok, c = CallWrite i data ok) -> Q c) ->
  evolves Q st (snd (write_card T st)).
Proof.
  intros HQ. unfold write_card.
  match goal with
  | |- context [iterate ?body ?next ?n ?i ?loc ?s] =>
      pose proof (iterate_rel body next (evolves Q)
                    (evolves_refl _) (evolves_trans _) n i loc s) as Hit
  end.
  match type of Hit with
  | ?A -> _ => assert (Hb : A); [|specialize (Hit Hb); clear Hb]
  end.
  { intros k loc0 st0 _. eapply evolves_mono; [|apply write_card_body_evolves].
    intros c Hc. exact (HQ _ c Hc). }
  destruct (iterate _ _ _ _ _ _) as [[[bFailure cnt]|r] s2]; cbn [snd] in *;
    unfold print_success_or_failure; cbn [snd]; ev_chain; auto.
Qed.

(** C9. Whatever the dump, the card and the device, and whatever the number
    of blocks, none of the calls that [write_card] makes to the device is a
    write of block 0. *)
Theorem write_card_never_writes_block0 (st : state dev) :
  Forall not_write0 (new_calls st (snd (write_card T st))) /\
  (forall data ok,
     ~ In (CallWrite 0 data ok) (new_calls st (snd (write_card T st)))).
Proof.
  destruct (evolves_new_calls not_write0 st (snd (write_card T st))) as [_ HF].
  { apply write_card_evolves.
    intros i c [Hc|[Hi (d & o & ->)]]; [destruct c; cbn in *; tauto|exact Hi]. }
  split; [exact HF|].
  intros data ok Hin.
  rewrite Forall_forall in HF. apply list_elem_of_In in Hin.
  specialize (HF _ Hin). cbn in HF. congruence.
Qed.

(** ** The brute-force authenticator *)

Lemma length_candidate (k : nat) : (k < num_keys)%nat -> length (candidate k) = 6%nat.
Proof.
  intros Hk. unfold candidate. apply length_sub.
  change (length keys) with 48%nat. change num_keys with 8%nat in Hk. lia.
Qed.

Lemma mpa_abtKey_memcpy (p : mifare_param) (k : nat) :
  (k < num_keys)%nat ->
  mpa_abtKey (memcpy p off_mpa_abtKey keys (k * 6) 6) = candidate k.
Proof.
  intros Hk. unfold mpa_abtKey, memcpy, sub, off_mpa_abtKey.
  rewrite take_0, drop_0. cbn [app].
  fold (sub keys (k * 6) 6). fold (candidate k).
  rewrite take_app_length'; [reflexivity|].
  symmetry. now apply length_candidate.
Qed.

Lemma select_fields (init : option (list byte)) (pti : bool) (st : state dev) :
  let s' := snd (nfc_initiator_select_tag T init pti st) in
  mtKeys s' = mtKeys st /\ mtDump s' = mtDump st /\ mp s' = mp st /\
  bUseKeyA s' = bUseKeyA st /\
  exists ok, calls s' = calls st ++ [CallSelect init ok].
Proof.
  unfold nfc_initiator_select_tag.
  destruct (tr_select T (pnd st) init) as [[ti|] d]; [destruct pti|];
    cbn; repeat split; eauto.
Qed.

Lemma find_first_accepted (g : nat -> bool) (n s k : nat) :
  (s <= k < s + n)%nat -> g k = true ->
  (forall j, (s <= j < k)%nat -> g j = false) ->
  find g (seq s n) = Some k.
Proof.
  revert s. induction n as [|n IH]; intros s Hk Hgk Hlt; [lia|].
  cbn [seq find].
  destruct (Nat.eq_dec s k) as [->|Hne].
  - now rewrite Hgk.
  - rewrite (Hlt s) by lia. apply IH; [lia|exact Hgk|].
    intros j Hj. apply Hlt. lia.
Qed.

Lemma find_none_accepted (f : nat -> bool) (l : list nat) :
  (forall j, In j l -> f j = false) -> find f l = None.
Proof.
  induction l as [|x l IH]; intros H; [reflexivity|].
  cbn [find]. rewrite (H x) by (left; reflexivity).
  apply IH. intros j Hj. apply H. now right.
Qed.

Lemma mifare_cmd_auth (mc : mifare_cmd) (b : Z) (st : state dev) :
  mc = MC_AUTH_A \/ mc = MC_AUTH_B ->
  exists ok d,
    tr_authenticate T (pnd st) mc b (mpa_abtKey (mp st)) (mpa_abtUid (mp st)) = (ok, d) /\
    nfc_initiator_mifare_cmd T mc b st
    = (ok, set_dev d (CallAuth mc b (mpa_abtKey (mp st)) (mpa_abtUid (mp st)) ok) st).
Proof.
  intros [-> | ->]; unfold nfc_initiator_mifare_cmd;
    destruct (tr_authenticate T _ _ _ _ _) as [ok d]; eauto.
Qed.

Lemma auths_of_app (l1 l2 : list call) : auths_of (l1 ++ l2) = auths_of l1 ++ auths_of l2.
Proof. unfold auths_of. apply omap_app. Qed.

(** What a run of [authenticate] without key file does: the candidates are
    tried in order, each once, up to the first one the device accepts,
    which is stored into block [b] of [mtKeys]. *)
Lemma brute_force_run (b : Z) (st : state dev) :
  bUseKeyFile st = false ->
  let mc := if bUseKeyA st then MC_AUTH_A else MC_AUTH_B in
  let rejected := fun j =>
    exists d uid, fst (tr_authenticate T d mc b (candidate j) uid) = false in
  let tried := fun k => map (fun j => (mc, b, candidate j, false)) (seq 0 k) in
  match authenticate T b st with
  | (false, st') =>
      mtKeys st' = mtKeys st /\
      (exists l, calls st' = calls st ++ l /\ auths_of l = tried num_keys) /\
      (forall j, (j < num_keys)%nat -> rejected j)
  | (true, st') =>
      exists k, (k < num_keys)%nat /\
        mtKeys st' = amb_update (mtKeys st) b
                       (fun blk => memcpy blk (key_offset (bUseKeyA st)) (candidate k) 0 6) /\
        (exists l uid, calls st' = calls st ++ l ++ [CallAuth mc b (candidate k) uid true] /\
                       auths_of l = tried k) /\
        (forall j, (j < k)%nat -> rejected j) /\
        (exists d uid, fst (tr_authenticate T d mc b (candidate k) uid) = true)
  end.
Proof.
  intros Hmode mc rejected tried. unfold authenticate. rewrite Hmode. fold mc.
  assert (Hmc : mc = MC_AUTH_A \/ mc = MC_AUTH_B) by (subst mc; destruct (bUseKeyA st); auto).
  set (st1 := set_mp _ st).
  pose (I := fun (k : nat) (_ : unit) (s : state dev) =>
    bUseKeyA s = bUseKeyA st /\ mtKeys s = mtKeys st /\
    (exists l, calls s = calls st ++ l /\ auths_of l = tried k) /\
    (forall j, (j < k)%nat -> rejected j)).
  pose (Post := fun (r : bool) (s : state dev) =>
    r = true /\ exists k, (k < num_keys)%nat /\
      mtKeys s = amb_update (mtKeys st) b
                   (fun blk => memcpy blk (key_offset (bUseKeyA st)) (candidate k) 0 6) /\
      (exists l uid, calls s = calls st ++ l ++ [CallAuth mc b (candidate k) uid true] /\
                     auths_of l = tried k) /\
      (forall j, (j < k)%nat -> rejected j) /\
      (exists d uid, fst (tr_authenticate T d mc b (candidate k) uid) = true)).
  pose proof (iterate_inv (authenticate_body T mc b) Z.succ I Post num_keys 0) as Hit.
  match type of Hit with
  | ?A -> _ => assert (Hb : A); [|specialize (Hit Hb tt st1); clear Hb]
  end.
  { intros k [] s Hk (HA & HK & (l & Hl & Hau) & Hrej).
    rewrite iter_succ. unfold authenticate_body.
    replace (Z.to_nat (0 + Z.of_nat k)) with k by lia.
    set (s1 := set_mp _ s).
    destruct (mifare_cmd_auth mc b s1 Hmc) as (ok & d & Htr & ->).
    assert (Hkey : mpa_abtKey (mp s1) = candidate k)
      by (subst s1; cbn [mp set_mp]; now apply mpa_abtKey_memcpy).
    rewrite Hkey in *.
    destruct ok.
    - assert (HP : Post true
        (set_mtKeys (amb_update (mtKeys st) b
            (fun blk => memcpy blk (key_offset (bUseKeyA st)) (candidate k) 0 6))
           (set_dev d (CallAuth mc b (candidate k) (mpa_abtUid (mp s1)) true) s1))).
      { split; [reflexivity|]. exists k. split; [exact Hk|]. split; [reflexivity|].
        split; [|split; [exact Hrej|]].
        - exists l, (mpa_abtUid (mp s1)). split; [|exact Hau].
          cbn [calls set_mtKeys set_dev]. subst s1. cbn [calls set_mp].
          rewrite Hl. now rewrite app_assoc.
        - exists (pnd s1), (mpa_abtUid (mp s1)). now rewrite Htr. }
      cbn [bUseKeyA set_dev mp]. subst s1. cbn [bUseKeyA set_mp mtKeys set_dev mp] in *.
      rewrite Hkey, HA, HK. unfold key_offset in HP.
      destruct (bUseKeyA st); exact HP.
    - set (s2 := set_dev _ _ s1).
      pose proof (select_fields (Some (mpa_abtUid (mp s2))) false s2) as HS.
      destruct (nfc_initiator_select_tag T _ false s2) as [x s3].
      cbn [snd] in HS. destruct HS as (SK & _ & _ & SA & oks & SC).
      unfold I. subst s2 s1. cbn [mtKeys bUseKeyA calls set_dev set_mp] in SK, SA, SC.
      split; [congruence|]. split; [congruence|]. split.
      + exists (l ++ [CallAuth mc b (candidate k) (mpa_abtUid (mp (set_mp
                   (memcpy (mp s) off_mpa_abtKey keys (k * 6) 6) s))) false;
                      CallSelect (Some (mpa_abtUid (mp (set_dev d
                   (CallAuth mc b (candidate k) (mpa_abtUid (mp (set_mp
                   (memcpy (mp s) off_mpa_abtKey keys (k * 6) 6) s))) false)
                   (set_mp (memcpy (mp s) off_mpa_abtKey keys (k * 6) 6) s))))) oks]).
        split.
        * rewrite SC, Hl. rewrite <- !app_assoc. reflexivity.
        * rewrite auths_of_app, Hau. unfold tried.
          rewrite seq_S, map_app. reflexivity.
      + intros j Hj. destruct (Nat.eq_dec j k) as [->|Hne].
        * exists (pnd (set_mp (memcpy (mp s) off_mpa_abtKey keys (k * 6) 6) s)),
            (mpa_abtUid (mp (set_mp (memcpy (mp s) off_mpa_abtKey keys (k * 6) 6) s))).
          now rewrite Htr.
        * apply Hrej. lia. }
  match type of Hit with
  | ?A -> _ => assert (H0 : A); [|specialize (Hit H0); clear H0]
  end.
  { unfold I. subst st1. cbn [bUseKeyA mtKeys calls set_mp].
    split; [reflexivity|]. split; [reflexivity|]. split.
    - exists []. now rewrite app_nil_r.
    - intros j Hj. lia. }
  destruct (iterate _ _ _ _ _ _) as [[[]|r] s2].
  - destruct Hit as (_ & HK & Hl & Hrej). auto.
  - destruct Hit as (-> & Hk). exact Hk.
Qed.

Lemma new_calls_app (st st' : state dev) (l : list call) :
  calls st' = calls st ++ l -> new_calls st st' = l.
Proof. intros H. unfold new_calls. rewrite H. apply drop_app_length. Qed.

(** C4. Without key file, [authenticate] makes [n] authentication calls to
    the device, for the candidate keys number 0 to [n - 1] in the order of
    the table [keys], one call per candidate, all for the requested key
    letter and block; all of them are refused except, when the result is
    success, the last one. On failure all [num_keys] candidates were tried.
    When the device accepts a key by a fixed rule [accept], the result is
    success at the first accepted candidate and failure when there is none;
    so a card whose key is the 3rd candidate gives success after exactly 3
    attempts. *)
Theorem authenticate_brute_force (uiBlock : Z) (st : state dev) :
  bUseKeyFile st = false ->
  let mc := if bUseKeyA st then MC_AUTH_A else MC_AUTH_B in
  let r := authenticate T uiBlock st in
  exists n : nat,
    (n <= num_keys)%nat /\
    auths_of (new_calls st (snd r)) =
      map (fun j => (mc, uiBlock, candidate j, fst r && Nat.eqb (Datatypes.S j) n))
          (seq 0 n) /\
    (if fst r then (1 <= n)%nat else n = num_keys) /\
    (forall accept : list byte -> bool,
       (forall d key uid, fst (tr_authenticate T d mc uiBlock key uid) = accept key) ->
       match first_accepted accept with
       | Some j => fst r = true /\ n = Datatypes.S j
       | None => fst r = false /\ n = num_keys
       end) /\
    ((forall d key uid,
        fst (tr_authenticate T d mc uiBlock key uid) = bytes_eqb key (candidate 2)) ->
     fst r = true /\ n = 3%nat).
Proof.
  intros Hmode mc r.
  pose proof (brute_force_run uiBlock st Hmode) as Hrun. fold mc in Hrun.
  cbv zeta in Hrun. subst r.
  destruct (authenticate T uiBlock st) as [[|] st']; cbn [fst snd].
  - destruct Hrun as (k & Hk & _ & (l & uid & Hl & Hau) & Hrej & (d0 & uid0 & Hacc)).
    assert (Hgen : forall accept : list byte -> bool,
       (forall d key uid, fst (tr_authenticate T d mc uiBlock key uid) = accept key) ->
       first_accepted accept = Some k).
    { intros accept Hac. unfold first_accepted.
      apply find_first_accepted; [lia|now rewrite <- (Hac d0 _ uid0)|].
      intros j Hj. destruct (Hrej j) as (d & u & Hf); [lia|]. now rewrite <- (Hac d _ u). }
    exists (Datatypes.S k). split; [lia|]. split; [|split; [lia|split]].
    + rewrite (new_calls_app st st' _ Hl), auths_of_app, Hau.
      rewrite seq_S, map_app. cbn [map Nat.add auths_of omap app].
      rewrite Nat.eqb_refl. f_equal.
      apply map_ext_in. intros j Hj. apply in_seq in Hj.
      destruct (Nat.eqb_spec (Datatypes.S j) (Datatypes.S k)); [lia|reflexivity].
    + intros accept Hac. rewrite (Hgen accept Hac). auto.
    + intros Hac. specialize (Hgen _ Hac).
      assert (E : first_accepted (fun key => bytes_eqb key (candidate 2)) = Some 2%nat)
        by (vm_compute; reflexivity).
      rewrite E in Hgen. inversion Hgen; subst. auto.
  - destruct Hrun as (_ & (l & Hl & Hau) & Hrej).
    assert (Hgen : forall accept : list byte -> bool,
       (forall d key uid, fst (tr_authenticate T d mc uiBlock key uid) = accept key) ->
       first_accepted accept = None).
    { intros accept Hac. unfold first_accepted. apply find_none_accepted.
      intros j Hj. apply in_seq in Hj.
      destruct (Hrej j) as (d & u & Hf); [lia|]. now rewrite <- (Hac d _ u). }
    exists num_keys. split; [lia|]. split; [|split; [reflexivity|split]].
    + rewrite (new_calls_app st st' _ Hl), Hau. reflexivity.
    + intros accept Hac. rewrite (Hgen accept Hac). auto.
    + intros Hac. specialize (Hgen _ Hac).
      assert (E : first_accepted (fun key => bytes_eqb key (candidate 2)) = Some 2%nat)
        by (vm_compute; reflexivity).
      rewrite E in Hgen. discriminate.
Qed.

Lemma first_block_not_trailer (b : Z) :
  0 <= b -> is_first_block b = true -> get_trailer_block b <> b /\ 0 <= get_trailer_block b.
Proof.
  intros Hb Hf. unfold is_first_block, get_trailer_block, wrap32 in *.
  destruct (Z.ltb_spec b 128);
    match type of Hf with (?a =? ?c) = true => destruct (Z.eqb_spec a c) end;
    try discriminate; change (2 ^ 32) with 4294967296;
    split; Z.div_mod_to_equations; lia.
Qed.

Lemma memcpy_key_fields (old key : list byte) (useA : bool) :
  length old = 16%nat -> length key = 6%nat ->
  let new := memcpy old (key_offset useA) key 0 6 in
  (if useA
   then mbt_abtKeyA new = key /\ mbt_abtKeyB new = mbt_abtKeyB old
   else mbt_abtKeyB new = key /\ mbt_abtKeyA new = mbt_abtKeyA old) /\
  mbt_abtAccessBits new = mbt_abtAccessBits old /\
  length new = 16%nat.
Proof.
  intros Ho Hk.
  do 17 (destruct old as [|? old]; try discriminate Ho).
  do 7 (destruct key as [|? key]; try discriminate Hk).
  destruct useA; cbn; auto.
Qed.

(** C10. When [authenticate] without key file succeeds for block [uiBlock],
    its last call to the device is the accepted authentication with some
    candidate key, and that key is what block [uiBlock] of [mtKeys] then
    holds in its Key A field (when Key A was asked for) or in its Key B
    field (when Key B was); the other fields of that block and all other
    blocks of [mtKeys] are as before. In particular for a first block of a
    sector, which is where [write_card] authenticates, the trailer block of
    the sector is another block and its entry is unchanged. *)
Theorem authenticate_caches_at_block (uiBlock : Z) (st st' : state dev) :
  bUseKeyFile st = false ->
  0 <= uiBlock < Z.of_nat (length (mtKeys st)) ->
  length (amb (mtKeys st) uiBlock) = 16%nat ->
  authenticate T uiBlock st = (true, st') ->
  let mc := if bUseKeyA st then MC_AUTH_A else MC_AUTH_B in
  let old := amb (mtKeys st) uiBlock in
  let new := amb (mtKeys st') uiBlock in
  exists (k : nat) (uid : list byte),
    (k < num_keys)%nat /\
    last (calls st') = Some (CallAuth mc uiBlock (candidate k) uid true) /\
    (if bUseKeyA st
     then mbt_abtKeyA new = candidate k /\ mbt_abtKeyB new = mbt_abtKeyB old
     else mbt_abtKeyB new = candidate k /\ mbt_abtKeyA new = mbt_abtKeyA old) /\
    mbt_abtAccessBits new = mbt_abtAccessBits old /\
    (forall j, 0 <= j -> j <> uiBlock -> amb (mtKeys st') j = amb (mtKeys st) j) /\
    length (mtKeys st') = length (mtKeys st) /\
    (is_first_block uiBlock = true ->
     get_trailer_block uiBlock <> uiBlock /\
     amb (mtKeys st') (get_trailer_block uiBlock)
     = amb (mtKeys st) (get_trailer_block uiBlock)).
Proof.
  intros Hmode Hb Hlen Hauth mc old new.
  pose proof (brute_force_run uiBlock st Hmode) as Hrun. fold mc in Hrun.
  cbv zeta in Hrun. rewrite Hauth in Hrun.
  destruct Hrun as (k & Hk & HK & (l & uid & Hl & _) & _ & _).
  assert (Hne : forall j, 0 <= j -> j <> uiBlock ->
                          amb (mtKeys st') j = amb (mtKeys st) j).
  { intros j Hj Hjb. unfold amb. rewrite HK. unfold amb_update.
    apply list_lookup_total_alter_ne. lia. }
  assert (Hnew : new = memcpy old (key_offset (bUseKeyA st)) (candidate k) 0 6).
  { subst new old. unfold amb. rewrite HK. unfold amb_update, mifare_tag, block in *.
    rewrite list_lookup_total_alter_eq by lia. reflexivity. }
  destruct (memcpy_key_fields old (candidate k) (bUseKeyA st) Hlen
              (length_candidate k Hk)) as (HF & HAB & _).
  cbv zeta in HF, HAB. rewrite <- Hnew in HF, HAB.
  exists k, uid. split; [exact Hk|]. split.
  { rewrite Hl, app_assoc. apply last_snoc. }
  split; [exact HF|]. split; [exact HAB|]. split; [exact Hne|]. split.
  { rewrite HK. unfold amb_update. apply length_alter. }
  intros Hfirst.
  destruct (first_block_not_trailer uiBlock ltac:(lia) Hfirst) as [Hd Hge].
  split; [exact Hd|]. apply Hne; auto.
Qed.

(** ** The write of one block *)

Lemma mifare_cmd_write (b : Z) (st : state dev) :
  exists ok d,
    tr_write T (pnd st) b (mpd_abtData (mp st)) = (ok, d) /\
    nfc_initiator_mifare_cmd T MC_WRITE b st
    = (ok, set_dev d (CallWrite b (mpd_abtData (mp st)) ok) st).
Proof.
  unfold nfc_initiator_mifare_cmd.
  destruct (tr_write T _ _ _) as [ok d]; eauto.
Qed.

Lemma trailer_param (p : mifare_param) (blk : block) :
  length blk = 16%nat ->
  mpd_abtData
    (memcpy (memcpy (memcpy p 0 blk off_abtKeyA 6) 6 blk off_abtAccessBits 4)
       10 blk off_abtKeyB 6)
  = mbt_abtKeyA blk ++ mbt_abtAccessBits blk ++ mbt_abtKeyB blk.
Proof.
  intros Hl. do 17 (destruct blk as [|? blk]; try discriminate Hl).
  reflexivity.
Qed.

Lemma data_param (p : mifare_param) (blk : block) :
  length blk = 16%nat ->
  mpd_abtData (memcpy p 0 blk 0 16) = mbd_abtData blk.
Proof.
  intros Hl. do 17 (destruct blk as [|? blk]; try discriminate Hl).
  reflexivity.
Qed.

Lemma trailer_fields_whole (blk : block) :
  length blk = 16%nat ->
  trailer_fields blk = blk.
Proof.
  intros Hl. do 17 (destruct blk as [|? blk]; try discriminate Hl).
  reflexivity.
Qed.

(** The write of one block in [write_card], for a dump whose block [uiBlock]
    has its 16 bytes. *)
Lemma write_card_block_step (uiBlock : Z) (bFailure : bool) (cnt : Z)
    (st : state dev) :
  length (amb (mtDump st) uiBlock) = 16%nat ->
  let blk := amb (mtDump st) uiBlock in
  let r := write_card_block T uiBlock (bFailure, cnt) st in
  mtDump (snd r) = mtDump st /\
  (if is_trailer_block uiBlock then
     exists ok,
       new_calls st (snd r)
       = [CallWrite uiBlock
            (mbt_abtKeyA blk ++ mbt_abtAccessBits blk ++ mbt_abtKeyB blk) ok] /\
       fst r = Continue (bFailure || negb ok, cnt)
   else if (uiBlock =? 0) || bFailure then
     snd r = st /\ fst r = Continue (bFailure, cnt)
   else
     exists ok,
       new_calls st (snd r) = [CallWrite uiBlock (mbd_abtData blk) ok] /\
       fst r = Continue (negb ok, cnt)) /\
  (forall loc,
     write_card_body T uiBlock loc st =
     match write_card_first T uiBlock loc st with
     | (Return x, s) => (Return x, s)
     | (Continue loc', s) => write_card_block T uiBlock loc' s
     end) /\
  (is_first_block uiBlock = false ->
   forall loc, write_card_first T uiBlock loc st = (Continue loc, st)) /\
  (0 <= uiBlock < 2 ^ 32 -> is_trailer_block uiBlock = true ->
   is_first_block uiBlock = false).
Proof.
  intros Hlen blk r.
  split; [|split; [|split; [|split]]].
  - subst r. unfold write_card_block.
    destruct (is_trailer_block uiBlock).
    + match goal with
      | |- context [nfc_initiator_mifare_cmd T MC_WRITE uiBlock ?s] =>
          destruct (mifare_cmd_write uiBlock s) as (ok & d & _ & ->)
      end.
      destruct ok; reflexivity.
    + destruct (uiBlock =? 0); [reflexivity|].
      destruct bFailure; [reflexivity|]. cbn [negb].
      match goal with
      | |- context [nfc_initiator_mifare_cmd T MC_WRITE uiBlock ?s] =>
          destruct (mifare_cmd_write uiBlock s) as (ok & d & _ & ->)
      end.
      destruct ok; reflexivity.
  - subst r. unfold write_card_block.
    destruct (is_trailer_block uiBlock).
    + match goal with
      | |- context [nfc_initiator_mifare_cmd T MC_WRITE uiBlock ?s] =>
          destruct (mifare_cmd_write uiBlock s) as (ok & d & _ & ->)
      end.
      cbn [mp set_mp mtDump]. fold blk. rewrite (trailer_param _ blk Hlen).
      exists ok. destruct ok; cbn [negb fst snd]; rewrite ?orb_false_r, ?orb_true_r;
        (split; [apply new_calls_app; reflexivity|reflexivity]).
    + destruct (uiBlock =? 0); [cbn; auto|].
      destruct bFailure; [cbn; auto|]. cbn [negb orb].
      match goal with
      | |- context [nfc_initiator_mifare_cmd T MC_WRITE uiBlock ?s] =>
          destruct (mifare_cmd_write uiBlock s) as (ok & d & _ & ->)
      end.
      cbn [mp set_mp mtDump]. fold blk. rewrite (data_param _ blk Hlen).
      exists ok. destruct ok; cbn [negb fst snd];
        (split; [apply new_calls_app; reflexivity|reflexivity]).
  - intros loc. unfold write_card_body.
    destruct (write_card_first T uiBlock loc st) as [[loc'|x] s]; reflexivity.
  - intros Hnf [f c]. unfold write_card_first. now rewrite Hnf.
  - apply is_trailer_not_first.
Qed.

(** ** The read of one block *)

Lemma mifare_cmd_read (b : Z) (st : state dev) :
  exists ok st',
    nfc_initiator_mifare_cmd T MC_READ b st = (ok, st') /\
    calls st' = calls st ++ [CallRead b ok] /\
    uiBlocks st' = uiBlocks st /\ bUseKeyA st' = bUseKeyA st /\
    bUseKeyFile st' = bUseKeyFile st.
Proof.
  unfold nfc_initiator_mifare_cmd.
  destruct (tr_read T (pnd st) b) as [[data|] d]; eexists _, _; split; try reflexivity;
    cbn; auto.
Qed.

Ltac fin :=
  match goal with
  | F : forall c, _ \/ _ -> _ |- _ => intros c Hc; apply F; cbv beta in Hc; tauto
  end.

Lemma read_card_body_evolves (i : Z) (loc : bool * Z) (st : state dev) :
  evolves (blocks_in (fun b => b = i)) st (snd (read_card_body T i loc st)).
Proof.
  assert (Hauth : forall c, auth_at i c -> blocks_in (fun b => b = i) c)
    by (intros c; destruct c; cbn; tauto).
  assert (Hsel : forall init c, (exists ok, c = CallSelect init ok) ->
                                blocks_in (fun b => b = i) c)
    by (intros init c [ok ->]; exact I).
  assert (Hrd : forall c, cmd_call MC_READ i c -> blocks_in (fun b => b = i) c)
    by (intros c; destruct c; cbn; tauto).
  pose (fin := fun c (Hc : auth_at i c \/ cmd_call MC_READ i c \/
                              exists ok, c = CallSelect None ok) =>
    match Hc with
    | or_introl h => Hauth c h
    | or_intror (or_introl h) => Hrd c h
    | or_intror (or_intror h) => Hsel None c h
    end).
  unfold read_card_body. destruct loc as [bFailure cnt].
  destruct (is_trailer_block i).
  - destruct (negb (i =? uiBlocks st)); unfold print_success_or_failure;
      destruct bFailure.
    + ev_call. destruct b; cbn [negb snd]; [|ev_chain; fin].
      pose proof (authenticate_evolves i s) as Ha.
      destruct (authenticate T i s) as [ok s']; cbn [snd] in Ha.
      destruct ok; cbn [negb snd]; [|ev_chain; fin].
      ev_call. destruct b; cbn [snd]; ev_chain; fin.
    + pose proof (authenticate_evolves i (printf (OutProgress false) st)) as Ha.
      destruct (authenticate T i _) as [ok s']; cbn [snd] in Ha.
      destruct ok; cbn [negb snd]; [|ev_chain; fin].
      ev_call. destruct b; cbn [snd]; ev_chain; fin.
    + ev_call. destruct b; cbn [negb snd]; [|ev_chain; fin].
      pose proof (authenticate_evolves i s) as Ha.
      destruct (authenticate T i s) as [ok s']; cbn [snd] in Ha.
      destruct ok; cbn [negb snd]; [|ev_chain; fin].
      ev_call. destruct b; cbn [snd]; ev_chain; fin.
    + pose proof (authenticate_evolves i st) as Ha.
      destruct (authenticate T i _) as [ok s']; cbn [snd] in Ha.
      destruct ok; cbn [negb snd]; [|ev_chain; fin].
      ev_call. destruct b; cbn [snd]; ev_chain; fin.
  - destruct bFailure; cbn [negb]; [apply evolves_refl|].
    ev_call. destruct b; cbn [snd]; ev_chain; fin.
Qed.

Lemma read_loop_evolves (n : nat) (i : Z) (loc : bool * Z) (st : state dev) :
  evolves (blocks_in (fun b => i - Z.of_nat n < b <= i)) st
    (snd (iterate (read_card_body T) Z.pred n i loc st)).
Proof.
  apply iterate_rel; [apply evolves_refl|apply evolves_trans|].
  intros k loc0 st0 Hk. rewrite iter_pred.
  eapply evolves_mono; [|apply read_card_body_evolves].
  intros c Hc. destruct c; cbn in *; lia.
Qed.

(** A data block when the failure flag is set: nothing is done. *)
Lemma read_data_skipped (i cnt : Z) (st : state dev) :
  is_trailer_block i = false ->
  read_card_body T i (true, cnt) st = (Continue (true, cnt), st).
Proof. intros Htr. unfold read_card_body. now rewrite Htr. Qed.

(** A data block when the failure flag is clear: one read, and the flag is
    set when it fails. *)
Lemma read_data_attempted (i cnt : Z) (st : state dev) :
  is_trailer_block i = false ->
  exists ok st',
    read_card_body T i (false, cnt) st = (Continue (negb ok, cnt), st') /\
    calls st' = calls st ++ [CallRead i ok].
Proof.
  intros Htr. unfold read_card_body. rewrite Htr. cbn [negb].
  destruct (mifare_cmd_read i st) as (ok & s1 & -> & Hc & _).
  exists ok. destruct ok; cbn [negb]; eexists; (split; [reflexivity|exact Hc]).
Qed.

(** After a trailer block the failure flag is clear. *)
Lemma read_trailer_clears (i : Z) (loc : bool * Z) (st : state dev) :
  is_trailer_block i = true ->
  match read_card_body T i loc st with
  | (Continue (f, _), _) => f = false
  | (Return _, _) => True
  end.
Proof.
  intros Htr. unfold read_card_body. destruct loc as [bFailure cnt]. rewrite Htr.
  destruct (negb (i =? uiBlocks st)); unfold print_success_or_failure;
    destruct bFailure;
    repeat match goal with
      | |- context [nfc_initiator_select_tag T ?a ?b ?c] =>
          destruct (nfc_initiator_select_tag T a b c) as [[] ?]; cbn [negb]
      | |- context [authenticate T ?a ?b] =>
          destruct (authenticate T a b) as [[] ?]; cbn [negb]
      | |- context [nfc_initiator_mifare_cmd T ?a ?b ?c] =>
          destruct (nfc_initiator_mifare_cmd T a b c) as [[] ?]
      end; auto.
Qed.

(** ** Runs of data blocks in the read pass *)




(** ** Splitting a log at a call *)



(** ** The read pass around blocks 8 and 5 *)


Lemma Forall_weaken {A : Type} (P Q : A -> Prop) (l : list A) :
  (forall x, P x -> Q x) -> Forall P l -> Forall Q l.
Proof. intros H HF. induction HF; constructor; auto. Qed.

Lemma evolves_calls (Q : call -> Prop) (s s' : state dev) :
  evolves Q s s' -> exists l, calls s' = calls s ++ l /\ Forall Q l.
Proof. intros (_ & _ & _ & H). exact H. Qed.









(** ** The tag gone at the selection inside a pass *)

Lemma select_fails (init : option (list byte)) (pti : bool) (st : state dev) :
  (forall d, fst (tr_select T d init) = None) ->
  fst (nfc_initiator_select_tag T init pti st) = false.
Proof.
  intros H. unfold nfc_initiator_select_tag. specialize (H (pnd st)).
  destruct (tr_select T (pnd st) init) as [[ti|] d]; [discriminate|reflexivity].
Qed.

(** In [read_card], on any device: a trailer block reached with the failure
    flag set, the tag not answering the selection, ends the function with
    the value true. *)
Lemma read_card_body_tag_removed (i cnt : Z) (st : state dev) :
  is_trailer_block i = true ->
  (forall d, fst (tr_select T d None) = None) ->
  fst (read_card_body T i (true, cnt) st) = Return true.
Proof.
  intros Htr Hsel. unfold read_card_body. rewrite Htr.
  destruct (negb (i =? uiBlocks st)); unfold print_success_or_failure;
    match goal with
    | |- context [nfc_initiator_select_tag T None true ?S] =>
        pose proof (select_fails None true S Hsel) as Hf;
        destruct (nfc_initiator_select_tag T None true S) as [ok s1];
        cbn [fst] in Hf; subst ok; reflexivity
    end.
Qed.

(** In [write_card], in the same situation at the first block of a sector,
    the function ends with the value false. *)
Lemma write_card_first_tag_removed (i cnt : Z) (st : state dev) :
  is_first_block i = true ->
  (forall d, fst (tr_select T d None) = None) ->
  fst (write_card_first T i (true, cnt) st) = Return false.
Proof.
  intros Hfb Hsel. unfold write_card_first. rewrite Hfb.
  destruct (negb (i =? uiBlocks st)); unfold print_success_or_failure;
    match goal with
    | |- context [nfc_initiator_select_tag T None true ?S] =>
        pose proof (select_fails None true S Hsel) as Hf;
        destruct (nfc_initiator_select_tag T None true S) as [ok s1];
        cbn [fst] in Hf; subst ok; reflexivity
    end.
Qed.

(** ** The trailer blocks in a complete write pass *)

Lemma writes_to_app (t : Z) (l1 l2 : list call) :
  writes_to t (l1 ++ l2) = writes_to t l1 ++ writes_to t l2.
Proof. unfold writes_to. apply omap_app. Qed.

Lemma writes_to_none (Q : call -> Prop) (t : Z) (l : list call) :
  (forall data ok, ~ Q (CallWrite t data ok)) ->
  Forall Q l -> writes_to t l = [].
Proof.
  intros HQ HF. induction HF as [|c l Hc HF IH]; [reflexivity|].
  change (c :: l) with ([c] ++ l). rewrite writes_to_app, IH, app_nil_r.
  destruct c; try reflexivity. cbn.
  destruct (Z.eqb_spec uiBlock t); [|reflexivity].
  subst. exfalso. eapply HQ; eauto.
Qed.

Lemma mifare_cmd_mtDump (mc : mifare_cmd) (b : Z) (st : state dev) :
  mtDump (snd (nfc_initiator_mifare_cmd T mc b st)) = mtDump st.
Proof.
  unfold nfc_initiator_mifare_cmd. destruct mc.
  - destruct (tr_authenticate T _ _ _ _ _); reflexivity.
  - destruct (tr_authenticate T _ _ _ _ _); reflexivity.
  - destruct (tr_read T _ _) as [[data|] d]; reflexivity.
  - destruct (tr_write T _ _ _); reflexivity.
Qed.

Lemma authenticate_mtDump (b : Z) (st : state dev) :
  mtDump (snd (authenticate T b st)) = mtDump st.
Proof.
  unfold authenticate. destruct (bUseKeyFile st).
  - destruct (bUseKeyA (set_mp _ st));
      match goal with
      | |- context [nfc_initiator_mifare_cmd T ?mc b ?s] =>
          pose proof (mifare_cmd_mtDump mc b s) as H;
          destruct (nfc_initiator_mifare_cmd T mc b s) as [[] s']; exact H
      end.
  - match goal with
    | |- context [iterate ?body ?next ?n ?i ?loc ?s] =>
        pose proof (iterate_rel body next (fun x y : state dev => mtDump y = mtDump x)
                      (fun _ => eq_refl)
                      (fun x y z (h1 : mtDump y = mtDump x)
                           (h2 : mtDump z = mtDump y) => eq_trans h2 h1)
                      n i loc s) as Hit
    end.
    match type of Hit with
    | ?A -> _ => assert (Hb : A); [|specialize (Hit Hb); clear Hb]
    end.
    { intros k loc0 s0 _. unfold authenticate_body.
      match goal with
      | |- context [nfc_initiator_mifare_cmd T ?mc b ?s] =>
          pose proof (mifare_cmd_mtDump mc b s) as H;
          destruct (nfc_initiator_mifare_cmd T mc b s) as [[] s1]; cbn [snd] in H
      end.
      - destruct (bUseKeyA s1); exact H.
      - match goal with
        | |- context [nfc_initiator_select_tag T ?a ?p ?s] =>
            destruct (select_fields a p s) as (_ & HD & _);
            destruct (nfc_initiator_select_tag T a p s) as [x s2]; cbn [snd] in *
        end.
        cbn [mtDump set_mp] in H. congruence. }
    destruct (iterate _ _ _ _ _ _) as [[[]|r] s2]; exact Hit.
Qed.

(** The part of the body for a first block leaves the dump as it is, and
    leaves the function with the value false only. *)
Lemma write_card_first_keeps (i : Z) (loc : bool * Z) (st : state dev) :
  mtDump (snd (write_card_first T i loc st)) = mtDump st /\
  match fst (write_card_first T i loc st) with
  | Return r => r = false
  | Continue _ => True
  end.
Proof.
  unfold write_card_first. destruct loc as [bFailure cnt].
  destruct (is_first_block i); [|cbn; auto].
  destruct (negb (i =? uiBlocks st)); unfold print_success_or_failure;
    destruct bFailure;
    repeat match goal with
      | |- context [nfc_initiator_select_tag T ?a ?p ?s] =>
          destruct (select_fields a p s) as (_ & HD & _);
          destruct (nfc_initiator_select_tag T a p s) as [[] s1]; cbn [snd negb] in *
      | |- context [authenticate T i ?s] =>
          pose proof (authenticate_mtDump i s) as HA;
          destruct (authenticate T i s) as [[] s2]; cbn [snd negb] in *
      end; cbn [fst snd mtDump printf] in *; split; auto; congruence.
Qed.

(** In a write pass that runs to its end, each trailer block of the card is
    written exactly once, with the Key A, access bits and Key B of the
    dump. *)
Lemma write_card_trailers_once (st : state dev) :
  (forall t, 0 <= t <= uiBlocks st -> length (amb (mtDump st) t) = 16%nat) ->
  fst (write_card T st) = true ->
  forall t, 0 <= t <= uiBlocks st -> is_trailer_block t = true ->
    exists ok,
      writes_to t (new_calls st (snd (write_card T st)))
      = [(trailer_fields (amb (mtDump st) t), ok)].
Proof.
  intros Hwf Hret.
  pose (I := fun (k : nat) (_ : bool * Z) (s : state dev) =>
    mtDump s = mtDump st /\
    exists l, calls s = calls st ++ l /\
      (forall t, 0 <= t < Z.of_nat k -> is_trailer_block t = true ->
         exists ok, writes_to t l = [(trailer_fields (amb (mtDump st) t), ok)]) /\
      (forall t, Z.of_nat k <= t -> writes_to t l = [])).
  pose (Post := fun (r : bool) (_ : state dev) => r = false).
  pose proof (iterate_inv (write_card_body T) Z.succ I Post
                (Z.to_nat (uiBlocks st + 1)) 0) as Hit.
  match type of Hit with
  | ?A -> _ => assert (Hb : A); [|specialize (Hit Hb); clear Hb]
  end.
  { intros k [f c] s Hk (HD & l & Hl & Hdone & Hnone).
    rewrite iter_succ. replace (0 + Z.of_nat k) with (Z.of_nat k) by lia.
    unfold write_card_body.
    pose proof (write_card_first_evolves (Z.of_nat k) (f, c) s) as H1.
    destruct (write_card_first_keeps (Z.of_nat k) (f, c) s) as [HD1 HR1].
    destruct (write_card_first T (Z.of_nat k) (f, c) s) as [[[f1 c1]|r] s1];
      cbn [fst snd] in *; [|exact HR1].
    destruct (evolves_calls _ _ _ H1) as (l1 & Hl1 & HF1).
    assert (Hw1 : forall t, writes_to t l1 = []).
    { intros t. apply (writes_to_none (auth_at (Z.of_nat k))); [|exact HF1].
      intros data ok Hq. exact Hq. }
    assert (Hlen : length (amb (mtDump s1) (Z.of_nat k)) = 16%nat)
      by (rewrite HD1, HD; apply Hwf; lia).
    destruct (write_card_block_step (Z.of_nat k) f1 c1 s1 Hlen) as (HD2 & Hspec & _).
    pose proof (write_card_block_evolves (Z.of_nat k) (f1, c1) s1) as H2.
    destruct (write_card_block T (Z.of_nat k) (f1, c1) s1) as [res s2];
      cbn [fst snd] in *.
    destruct (evolves_calls _ _ _ H2) as (l2 & Hl2 & HF2).
    rewrite (new_calls_app s1 s2 l2 Hl2) in Hspec.
    assert (Hw2 : forall t, t <> Z.of_nat k -> writes_to t l2 = []).
    { intros t Ht.
      apply (writes_to_none
               (fun c => Z.of_nat k <> 0 /\
                         exists data ok, c = CallWrite (Z.of_nat k) data ok));
        [|exact HF2].
      intros data ok (_ & d & o & E). inversion E. congruence. }
    assert (Hres : exists loc', res = Continue loc').
    { destruct (is_trailer_block (Z.of_nat k)).
      - destruct Hspec as (ok & _ & ->). eauto.
      - destruct ((Z.of_nat k =? 0) || f1).
        + destruct Hspec as (_ & ->). eauto.
        + destruct Hspec as (ok & _ & ->). eauto. }
    destruct Hres as (loc' & ->).
    split; [congruence|].
    exists (l ++ l1 ++ l2). split; [rewrite Hl2, Hl1, Hl, <- !app_assoc; reflexivity|].
    split.
    - intros t Ht Htr. rewrite !writes_to_app, Hw1. cbn [app].
      destruct (Z.eq_dec t (Z.of_nat k)) as [->|Hne].
      + rewrite Hnone by lia. cbn [app]. rewrite Htr in Hspec.
        rewrite HD1, HD in Hspec.
        destruct Hspec as (ok & -> & _). exists ok. cbn.
        rewrite Z.eqb_refl. reflexivity.
      + rewrite (Hw2 t Hne), app_nil_r. apply Hdone; [lia|exact Htr].
    - intros t Ht. rewrite !writes_to_app, Hw1, (Hw2 t) by lia.
      rewrite Hnone by lia. reflexivity. }
  unfold write_card in *.
  set (st0 := printf (OutHeader (uiBlocks st + 1)) st) in *.
  change (uiBlocks st0) with (uiBlocks st) in *.
  specialize (Hit (false, 0) st0).
  match type of Hit with
  | ?A -> _ => assert (H0 : A); [|specialize (Hit H0); clear H0]
  end.
  { split; [reflexivity|]. exists []. split; [now rewrite app_nil_r|].
    split; [intros t Ht; lia|reflexivity]. }
  destruct (iterate _ _ _ 0 (false, 0) st0) as [[[f c]|r] s'].
  - destruct Hit as (_ & l & Hl & Hdone & _).
    intros t Ht Htr. unfold print_success_or_failure. cbn [snd].
    rewrite (new_calls_app st _ l) by exact Hl.
    apply Hdone; [lia|exact Htr].
  - cbn [fst] in Hret. unfold Post in Hit. congruence.
Qed.

Lemma amb_length_16 (t : mifare_tag) (i : Z) :
  Forall (fun b : block => length b = 16%nat) t ->
  0 <= i < Z.of_nat (length t) ->
  length (amb t i) = 16%nat.
Proof.
  intros HF Hi. unfold amb, mifare_tag, block in *.
  apply (Forall_lookup_total_1 (fun b : list byte => length b = 16%nat) t (Z.to_nat i) HF).
  lia.
Qed.

(** C7. The write half of the loop body of [write_card], for a dump whose
    block [uiBlock] has its 16 bytes. For a trailer block: whatever the
    failure flag, exactly one write of the block is sent, its data being
    Key A, access bits and Key B of the block of the dump, and the flag is
    set when the write fails (kept otherwise). For another block: nothing is
    sent when the flag is set (or for block 0), the flag staying as it is;
    when the flag is clear exactly one write of the 16 bytes of the dump is
    sent, and the flag is set when it fails. The dump is not changed. In the
    loop body the write comes after the part for the first block of a
    sector, which does nothing for a block that is not a first block; a
    trailer block is never a first block. And over a pass that runs to its
    end, each trailer block of the card is written exactly once, with the
    trailer fields of the dump. *)
Theorem write_card_block_spec :
  (forall (uiBlock : Z) (bFailure : bool) (cnt : Z) (st : state dev),
     length (amb (mtDump st) uiBlock) = 16%nat ->
     let blk := amb (mtDump st) uiBlock in
     let r := write_card_block T uiBlock (bFailure, cnt) st in
     mtDump (snd r) = mtDump st /\
     (if is_trailer_block uiBlock then
        exists ok,
          new_calls st (snd r) = [CallWrite uiBlock (trailer_fields blk) ok] /\
          fst r = Continue (bFailure || negb ok, cnt)
      else if (uiBlock =? 0) || bFailure then
        snd r = st /\ fst r = Continue (bFailure, cnt)
      else
        exists ok,
          new_calls st (snd r) = [CallWrite uiBlock (mbd_abtData blk) ok] /\
          fst r = Continue (negb ok, cnt)) /\
     (forall loc,
        write_card_body T uiBlock loc st =
        match write_card_first T uiBlock loc st with
        | (Return x, s) => (Return x, s)
        | (Continue loc', s) => write_card_block T uiBlock loc' s
        end) /\
     (is_first_block uiBlock = false ->
      forall loc, write_card_first T uiBlock loc st = (Continue loc, st)) /\
     (0 <= uiBlock < 2 ^ 32 -> is_trailer_block uiBlock = true ->
      is_first_block uiBlock = false)) /\
  (forall st : state dev,
     (forall t, 0 <= t <= uiBlocks st -> length (amb (mtDump st) t) = 16%nat) ->
     fst (write_card T st) = true ->
     forall t, 0 <= t <= uiBlocks st -> is_trailer_block t = true ->
       exists ok,
         writes_to t (new_calls st (snd (write_card T st)))
         = [(trailer_fields (amb (mtDump st) t), ok)]).
Proof.
  split.
  - intros uiBlock bFailure cnt st Hlen. exact (write_card_block_step uiBlock bFailure cnt st Hlen).
  - exact write_card_trailers_once.
Qed.

(** ** The count of a write pass in which everything succeeds *)

Lemma authenticate_all_ok (b : Z) (st : state dev) :
  (forall d mc b key uid, fst (tr_authenticate T d mc b key uid) = true) ->
  fst (authenticate T b st) = true.
Proof.
  intros Hall. destruct (bUseKeyFile st) eqn:Emode.
  - unfold authenticate. rewrite Emode.
    destruct (bUseKeyA (set_mp _ st));
      match goal with
      | |- context [nfc_initiator_mifare_cmd T ?mc b ?s] =>
          destruct (mifare_cmd_auth mc b s) as (ok & d & Htr & ->); [auto|];
          specialize (Hall (pnd s) mc b (mpa_abtKey (mp s)) (mpa_abtUid (mp s)));
          rewrite Htr in Hall; cbn [fst] in Hall; subst ok; reflexivity
      end.
  - pose proof (brute_force_run b st Emode) as Hrun. cbv zeta in Hrun.
    destruct (authenticate T b st) as [[|] st']; [reflexivity|].
    destruct Hrun as (_ & _ & Hrej).
    destruct (Hrej 0%nat) as (d & uid & Hf); [unfold num_keys; cbn; lia|].
    rewrite Hall in Hf. discriminate.
Qed.

(** On any device, for a 1K card on which every authentication and every
    write succeeds, [write_card] reports 68 of 64 blocks. *)
Lemma write_card_count_all_ok (st : state dev) :
  uiBlocks st = 63 ->
  (forall d mc b key uid, fst (tr_authenticate T d mc b key uid) = true) ->
  (forall d b data, fst (tr_write T d b data) = true) ->
  fst (write_card T st) = true /\
  last (stdout (snd (write_card T st))) = Some (OutDone 68 64).
Proof.
  intros HU Hauth Hwrite.
  pose (Inv := fun (k : nat) (loc : bool * Z) (s : state dev) =>
    fst loc = false /\ snd loc = 4 * ((Z.of_nat k + 3) / 4) /\ uiBlocks s = 63).
  pose proof (iterate_inv (write_card_body T) Z.succ Inv (fun _ _ => False) 64 0) as Hit.
  match type of Hit with
  | ?A -> _ => assert (Hb : A); [|specialize (Hit Hb); clear Hb]
  end.
  { intros k [f c] s Hk (Hf & Hc & Hu). cbn [fst snd] in Hf, Hc. subst f.
    rewrite iter_succ. replace (0 + Z.of_nat k) with (Z.of_nat k) by lia.
    unfold write_card_body.
    assert (Hfirst : exists c1 s1,
      write_card_first T (Z.of_nat k) (false, c) s = (Continue (false, c1), s1) /\
      c1 = 4 * ((Z.of_nat (Datatypes.S k) + 3) / 4) /\ uiBlocks s1 = 63).
    { unfold write_card_first, is_first_block.
      destruct (Z.ltb_spec (Z.of_nat k) 128); [|lia].
      destruct (Z.eqb_spec (Z.of_nat k mod 4) 0) as [Hm|Hm].
      - rewrite Hu. destruct (Z.eqb_spec (Z.of_nat k) 63) as [E|E];
          [rewrite E in Hm; discriminate|].
        cbn [negb]. unfold print_success_or_failure.
        pose proof (authenticate_all_ok (Z.of_nat k) (printf (OutProgress false) s) Hauth) as Ha.
        pose proof (authenticate_evolves (Z.of_nat k) (printf (OutProgress false) s)) as He.
        destruct (authenticate T _ _) as [ok s1]. cbn [fst snd] in Ha, He. subst ok.
        cbn [negb]. eexists _, s1. split; [reflexivity|]. split.
        + unfold wrap32. rewrite Hc. change (2 ^ 32) with 4294967296.
          Z.div_mod_to_equations. lia.
        + destruct He as (He & _). rewrite He. exact Hu.
      - exists c, s. split; [reflexivity|]. split; [|exact Hu].
        rewrite Hc. Z.div_mod_to_equations. lia. }
    destruct Hfirst as (c1 & s1 & -> & Hc1 & Hu1).
    pose proof (write_card_block_evolves (Z.of_nat k) (false, c1) s1) as He.
    unfold write_card_block in *.
    destruct (is_trailer_block (Z.of_nat k)).
    - match goal with
      | |- context [nfc_initiator_mifare_cmd T MC_WRITE ?b ?x] =>
          destruct (mifare_cmd_write b x) as (ok & d & Htr & E); rewrite E in *;
          specialize (Hwrite (pnd x) b (mpd_abtData (mp x)));
          rewrite Htr in Hwrite; cbn [fst] in Hwrite; subst ok
      end.
      cbn [negb snd] in *. destruct He as (He & _).
      repeat split; auto; rewrite He; exact Hu1.
    - destruct (Z.of_nat k =? 0); [repeat split; auto|]. cbn [negb] in *.
      match goal with
      | |- context [nfc_initiator_mifare_cmd T MC_WRITE ?b ?x] =>
          destruct (mifare_cmd_write b x) as (ok & d & Htr & E); rewrite E in *;
          specialize (Hwrite (pnd x) b (mpd_abtData (mp x)));
          rewrite Htr in Hwrite; cbn [fst] in Hwrite; subst ok
      end.
      cbn [negb snd] in *. destruct He as (He & _).
      repeat split; auto; rewrite He; exact Hu1. }
  unfold write_card.
  set (st0 := printf (OutHeader (uiBlocks st + 1)) st).
  change (uiBlocks st0) with (uiBlocks st). rewrite HU.
  change (Z.to_nat (63 + 1)) with 64%nat.
  specialize (Hit (false, 0) st0).
  match type of Hit with
  | ?A -> _ => assert (H0 : A); [|specialize (Hit H0); clear H0]
  end.
  { repeat split. exact HU. }
  destruct (iterate _ _ 64 0 (false, 0) st0) as [[[f c]|r] s']; [|contradiction].
  destruct Hit as (Hf & Hc & Hu). cbn [fst snd] in Hf, Hc. subst f c.
  unfold print_success_or_failure. cbn [fst snd stdout printf].
  split; [reflexivity|]. rewrite last_snoc.
  cbn [uiBlocks printf]. rewrite Hu. reflexivity.
Qed.

(** ** The order of the reads and of the writes of a pass *)

Lemma reads_of_app (l1 l2 : list call) : reads_of (l1 ++ l2) = reads_of l1 ++ reads_of l2.
Proof. unfold reads_of. apply omap_app. Qed.

Lemma read_blocks_app (l1 l2 : list call) :
  read_blocks (l1 ++ l2) = read_blocks l1 ++ read_blocks l2.
Proof. unfold read_blocks. now rewrite reads_of_app, map_app. Qed.

Lemma writes_of_app (l1 l2 : list call) :
  writes_of (l1 ++ l2) = writes_of l1 ++ writes_of l2.
Proof. unfold writes_of. apply omap_app. Qed.

Lemma written_blocks_app (l1 l2 : list call) :
  written_blocks (l1 ++ l2) = written_blocks l1 ++ written_blocks l2.
Proof. unfold written_blocks. now rewrite writes_of_app, map_app. Qed.

Lemma auth_at_no_transfer (i : Z) (l : list call) :
  Forall (auth_at i) l ->
  reads_of l = [] /\ writes_of l = [] /\
  Forall (fun c => is_read c = false /\ is_write c = false) l.
Proof.
  induction 1 as [|c l Hc HF (IH1 & IH2 & IH3)]; [repeat split; constructor|].
  destruct c; cbn in Hc; try contradiction; cbn; repeat split; auto.
Qed.

Lemma StronglySorted_snoc {A : Type} (R : A -> A -> Prop) (l : list A) (a : A) :
  StronglySorted R l -> Forall (fun x => R x a) l -> StronglySorted R (l ++ [a]).
Proof.
  induction 1 as [|x l HS IH HF]; intros Ha; cbn.
  - constructor; constructor.
  - inversion Ha; subst. constructor; [apply IH; assumption|].
    apply Forall_app. split; [assumption|]. constructor; [assumption|constructor].
Qed.

(** What one run of the body of the read loop sends: selections of the tag
    and authentications of the block, then at most one read of the block. *)
Lemma read_card_body_log (i : Z) (loc : bool * Z) (st : state dev) :
  exists l0 lr,
    calls (snd (read_card_body T i loc st)) = calls st ++ l0 ++ lr /\
    Forall (auth_at i) l0 /\
    (lr = [] \/ exists ok, lr = [CallRead i ok]).
Proof.
  assert (Hsel : forall c, (exists ok, c = CallSelect None ok) -> auth_at i c)
    by (intros c [ok ->]; exact I).
  assert (Hfin : forall s s' : state dev, evolves (auth_at i) s s' ->
            exists l0 lr, calls s' = calls s ++ l0 ++ lr /\ Forall (auth_at i) l0 /\
                          (lr = [] \/ exists ok, lr = [CallRead i ok])).
  { intros s s' E. destruct (evolves_calls _ _ _ E) as (l & Hl & HF).
    exists l, []. rewrite app_nil_r. auto. }
  assert (Hrd : forall s s2 s3 final : state dev, forall ok,
            evolves (auth_at i) s s2 ->
            calls s3 = calls s2 ++ [CallRead i ok] ->
            calls final = calls s3 ->
            exists l0 lr, calls final = calls s ++ l0 ++ lr /\ Forall (auth_at i) l0 /\
                          (lr = [] \/ exists ok, lr = [CallRead i ok])).
  { intros s s2 s3 final ok E H3 Hf. destruct (evolves_calls _ _ _ E) as (l & Hl & HF).
    exists l, [CallRead i ok]. rewrite Hf, H3, Hl, <- app_assoc. eauto. }
  unfold read_card_body. destruct loc as [bFailure cnt].
  destruct (is_trailer_block i).
  - destruct (negb (i =? uiBlocks st)); unfold print_success_or_failure;
      destruct bFailure;
      try (ev_call; destruct b; cbn [negb snd]; [|apply Hfin; ev_chain; auto]);
      match goal with
      | |- context [authenticate T i ?S] =>
          pose proof (authenticate_evolves i S) as Ha;
          destruct (authenticate T i S) as [oka s2]; cbn [snd] in Ha;
          destruct oka; cbn [negb snd]; [|apply Hfin; ev_chain; auto];
          destruct (mifare_cmd_read i s2) as (okr & s3 & -> & Hc & _);
          destruct okr; cbn [snd];
          (eapply (Hrd st s2 s3); [ev_chain; auto|exact Hc|reflexivity])
      end.
  - destruct bFailure; cbn [negb]; [apply Hfin, evolves_refl|].
    destruct (mifare_cmd_read i st) as (okr & s3 & -> & Hc & _).
    destruct okr; cbn [snd];
      (eapply (Hrd st st s3); [apply evolves_refl|exact Hc|reflexivity]).
Qed.

Lemma read_blocks_bound (P : Z -> Prop) (l : list call) :
  Forall (blocks_in P) l -> Forall P (read_blocks l).
Proof.
  induction 1 as [|c l Hc HF IH]; [constructor|].
  destruct c; cbn in *; auto.
Qed.

(** X1. The calls of a read pass, on any device and for any number of
    blocks: none is a write, every command is for a block of the card
    ([0..uiBlocks]), and the blocks read are strictly decreasing, so that no
    block is read twice. *)
Theorem read_card_log_order (st : state dev) :
  let l := new_calls st (snd (read_card T st)) in
  Forall (fun c => is_write c = false /\
                   blocks_in (fun b => 0 <= b <= uiBlocks st) c) l /\
  StronglySorted Z.gt (read_blocks l).
Proof.
  set (U := uiBlocks st).
  set (n := Z.to_nat (U + 1)).
  pose (Inv := fun (k : nat) (s : state dev) =>
    exists l, calls s = calls st ++ l /\
      Forall (fun c => is_write c = false /\
                       blocks_in (fun b => U - Z.of_nat k < b <= U) c) l /\
      StronglySorted Z.gt (read_blocks l)).
  assert (Hmono : forall k s, (k <= n)%nat -> Inv k s ->
            exists l, calls s = calls st ++ l /\
              Forall (fun c => is_write c = false /\
                               blocks_in (fun b => 0 <= b <= U) c) l /\
              StronglySorted Z.gt (read_blocks l)).
  { intros k s Hk (l & Hl & HF & HS). exists l. split; [exact Hl|]. split; [|exact HS].
    eapply Forall_weaken; [|exact HF]. intros c [Hw Hb]. split; [exact Hw|].
    destruct c; cbn in *; lia. }
  pose proof (iterate_inv (read_card_body T) Z.pred
                (fun k (_ : bool * Z) s => Inv k s)
                (fun (_ : bool) s => exists k, (k <= n)%nat /\ Inv k s) n U) as Hit.
  match type of Hit with
  | ?A -> _ => assert (Hb : A); [|specialize (Hit Hb); clear Hb]
  end.
  { intros k loc s Hk (l & Hl & HF & HS). rewrite iter_pred.
    destruct (read_card_body_log (U - Z.of_nat k) loc s) as (l0 & lr & Hc & H0 & Hr).
    assert (HI : Inv (Datatypes.S k) (snd (read_card_body T (U - Z.of_nat k) loc s))).
    { destruct (auth_at_no_transfer _ _ H0) as (R0 & _ & F0).
      exists (l ++ l0 ++ lr). split; [rewrite Hc, Hl, <- !app_assoc; reflexivity|].
      split.
      - apply Forall_app. split.
        + eapply Forall_weaken; [|exact HF]. intros c [Hw Hb]. split; [exact Hw|].
          destruct c; cbn in *; lia.
        + apply Forall_app. split.
          * rewrite Forall_forall in H0, F0. apply Forall_forall. intros c Hin.
            split; [apply (F0 c Hin)|].
            specialize (H0 c Hin). destruct c; cbn in *; try contradiction; lia.
          * destruct Hr as [->|[ok ->]]; repeat constructor; cbn; lia.
      - rewrite !read_blocks_app. unfold read_blocks at 2. rewrite R0. cbn [map app].
        destruct Hr as [->|[ok ->]]; cbn; [rewrite app_nil_r; exact HS|].
        apply StronglySorted_snoc; [exact HS|].
        assert (HB : Forall (fun b => U - Z.of_nat k < b <= U) (read_blocks l)).
        { apply read_blocks_bound. eapply Forall_weaken; [|exact HF].
          intros c [_ Hb]. exact Hb. }
        eapply Forall_weaken; [|exact HB]. intros x Hx. cbv beta in Hx. lia. }
    destruct (read_card_body T (U - Z.of_nat k) loc s) as [[loc'|r] s'];
      cbn [snd] in HI; [exact HI|].
    exists (Datatypes.S k). split; [lia|exact HI]. }
  unfold read_card. fold U.
  set (st0 := printf (OutHeader (U + 1)) st).
  change (uiBlocks st0) with U. fold n.
  specialize (Hit (false, 0) st0).
  match type of Hit with
  | ?A -> _ => assert (H0 : A); [|specialize (Hit H0); clear H0]
  end.
  { exists []. split; [now rewrite app_nil_r|]. split; constructor. }
  assert (Hfinal : exists l, calls (snd
     match iterate (read_card_body T) Z.pred n U (false, 0) st0 with
     | (Continue (bFailure, uiReadBlocks), st1) =>
         let '(uiReadBlocks0, st2) :=
           print_success_or_failure bFailure uiReadBlocks st1 in
         (true, printf (OutDone uiReadBlocks0 (uiBlocks st2 + 1)) st2)
     | (Return r, st1) => (r, st1)
     end) = calls st ++ l /\
     Forall (fun c => is_write c = false /\ blocks_in (fun b => 0 <= b <= U) c) l /\
     StronglySorted Z.gt (read_blocks l)).
  { destruct (iterate _ _ n U (false, 0) st0) as [[[f c]|r] s'].
    - apply (Hmono n s'); [lia|exact Hit].
    - destruct Hit as (k & Hk & HI). apply (Hmono k s'); [exact Hk|exact HI]. }
  destruct Hfinal as (l & Hl & HF & HS).
  cbv zeta. rewrite (new_calls_app st _ l Hl). split; assumption.
Qed.

(** What the write half of the body sends: nothing, or one write of the
    block, which is not block 0; the dump is left as it is. *)
Lemma write_card_block_log (i : Z) (loc : bool * Z) (st : state dev) :
  mtDump (snd (write_card_block T i loc st)) = mtDump st /\
  exists lw,
    calls (snd (write_card_block T i loc st)) = calls st ++ lw /\
    (lw = [] \/ (i <> 0 /\ exists data ok, lw = [CallWrite i data ok])).
Proof.
  unfold write_card_block. destruct loc as [bFailure cnt].
  destruct (is_trailer_block i) eqn:Etr.
  - assert (i <> 0) by (intros ->; discriminate).
    match goal with
    | |- context [nfc_initiator_mifare_cmd T MC_WRITE i ?s] =>
        destruct (mifare_cmd_write i s) as (ok & d & _ & ->)
    end.
    destruct ok; cbn [negb snd]; (split; [reflexivity|]);
      eexists; (split; [reflexivity|]); right; eauto.
  - destruct (Z.eqb_spec i 0);
      [split; [reflexivity|]; exists []; rewrite app_nil_r; auto|].
    destruct bFailure; cbn [negb];
      [split; [reflexivity|]; exists []; rewrite app_nil_r; auto|].
    match goal with
    | |- context [nfc_initiator_mifare_cmd T MC_WRITE i ?s] =>
        destruct (mifare_cmd_write i s) as (ok & d & _ & ->)
    end.
    destruct ok; cbn [negb snd]; (split; [reflexivity|]);
      eexists; (split; [reflexivity|]); right; eauto.
Qed.

Lemma written_blocks_bound (P : Z -> Prop) (l : list call) :
  Forall (blocks_in P) l -> Forall P (written_blocks l).
Proof.
  induction 1 as [|c l Hc HF IH]; [constructor|].
  destruct c; cbn in *; auto.
Qed.

(** X2. The calls of a write pass, on any device and for any number of
    blocks: none is a read, every command is for a block of the card
    ([0..uiBlocks]), the blocks written are strictly increasing, so that no
    block is written twice, and the dump in memory is the same after the
    pass. *)
Theorem write_card_log_order (st : state dev) :
  let l := new_calls st (snd (write_card T st)) in
  Forall (fun c => is_read c = false /\
                   blocks_in (fun b => 0 <= b <= uiBlocks st) c) l /\
  StronglySorted Z.lt (written_blocks l) /\
  mtDump (snd (write_card T st)) = mtDump st.
Proof.
  set (U := uiBlocks st).
  set (n := Z.to_nat (U + 1)).
  pose (Inv := fun (k : nat) (s : state dev) =>
    mtDump s = mtDump st /\
    exists l, calls s = calls st ++ l /\
      Forall (fun c => is_read c = false /\
                       blocks_in (fun b => 0 <= b < Z.of_nat k) c) l /\
      StronglySorted Z.lt (written_blocks l)).
  assert (Hmono : forall k s, (k <= n)%nat -> Inv k s ->
            mtDump s = mtDump st /\
            exists l, calls s = calls st ++ l /\
              Forall (fun c => is_read c = false /\
                               blocks_in (fun b => 0 <= b <= U) c) l /\
              StronglySorted Z.lt (written_blocks l)).
  { intros k s Hk (HD & l & Hl & HF & HS). split; [exact HD|].
    exists l. split; [exact Hl|]. split; [|exact HS].
    eapply Forall_weaken; [|exact HF]. intros c [Hw Hb]. split; [exact Hw|].
    destruct c; cbn in *; lia. }
  pose proof (iterate_inv (write_card_body T) Z.succ
                (fun k (_ : bool * Z) s => Inv k s)
                (fun (_ : bool) s => exists k, (k <= n)%nat /\ Inv k s) n 0) as Hit.
  match type of Hit with
  | ?A -> _ => assert (Hb : A); [|specialize (Hit Hb); clear Hb]
  end.
  { intros k loc s Hk (HD & l & Hl & HF & HS). rewrite iter_succ.
    replace (0 + Z.of_nat k) with (Z.of_nat k) by lia.
    assert (HI : Inv (Datatypes.S k) (snd (write_card_body T (Z.of_nat k) loc s))).
    { unfold write_card_body.
      pose proof (write_card_first_evolves (Z.of_nat k) loc s) as H1.
      destruct (write_card_first_keeps (Z.of_nat k) loc s) as [HD1 _].
      destruct (write_card_first T (Z.of_nat k) loc s) as [[loc'|r] s1];
        cbn [fst snd] in *;
        destruct (evolves_calls _ _ _ H1) as (l1 & Hl1 & HF1);
        destruct (auth_at_no_transfer _ _ HF1) as (_ & W1 & F1);
        assert (HF1' : Forall (fun c => is_read c = false /\
                   blocks_in (fun b => 0 <= b < Z.of_nat (Datatypes.S k)) c) l1)
          by (rewrite Forall_forall in HF1, F1; apply Forall_forall; intros c Hin;
              split; [apply (F1 c Hin)|];
              specialize (HF1 c Hin); destruct c; cbn in *; try contradiction; lia);
        assert (HF' : Forall (fun c => is_read c = false /\
                   blocks_in (fun b => 0 <= b < Z.of_nat (Datatypes.S k)) c) l)
          by (eapply Forall_weaken; [|exact HF]; intros c [Hw Hb];
              split; [exact Hw|]; destruct c; cbn in *; lia).
      - destruct (write_card_block_log (Z.of_nat k) loc' s1) as (HD2 & lw & Hlw & Hw).
        split; [congruence|].
        exists (l ++ l1 ++ lw). split; [rewrite Hlw, Hl1, Hl, <- !app_assoc; reflexivity|].
        split.
        + apply Forall_app. split; [exact HF'|]. apply Forall_app. split; [exact HF1'|].
          destruct Hw as [->|(Hne & data & ok & ->)]; repeat constructor; cbn; lia.
        + rewrite !written_blocks_app. unfold written_blocks at 2. rewrite W1.
          cbn [map app].
          destruct Hw as [->|(Hne & data & ok & ->)]; cbn; [rewrite app_nil_r; exact HS|].
          apply StronglySorted_snoc; [exact HS|].
          assert (HB : Forall (fun b => 0 <= b < Z.of_nat k) (written_blocks l)).
          { apply written_blocks_bound. eapply Forall_weaken; [|exact HF].
            intros c [_ Hb]. exact Hb. }
          eapply Forall_weaken; [|exact HB]. intros x Hx. cbv beta in Hx. lia.
      - split; [congruence|].
        exists (l ++ l1). split; [rewrite Hl1, Hl, <- !app_assoc; reflexivity|].
        split; [apply Forall_app; split; assumption|].
        rewrite written_blocks_app. unfold written_blocks at 2. rewrite W1.
        cbn [map]. rewrite app_nil_r. exact HS. }
    destruct (write_card_body T (Z.of_nat k) loc s) as [[loc'|r] s'];
      cbn [snd] in HI; [exact HI|].
    exists (Datatypes.S k). split; [lia|exact HI]. }
  unfold write_card. fold U.
  set (st0 := printf (OutHeader (U + 1)) st).
  change (uiBlocks st0) with U. fold n.
  specialize (Hit (false, 0) st0).
  match type of Hit with
  | ?A -> _ => assert (H0 : A); [|specialize (Hit H0); clear H0]
  end.
  { split; [reflexivity|]. exists []. split; [now rewrite app_nil_r|]. split; constructor. }
  assert (Hfinal : exists s', snd
     match iterate (write_card_body T) Z.succ n 0 (false, 0) st0 with
     | (Continue (bFailure, uiWriteBlocks), st1) =>
         let '(uiWriteBlocks0, st2) :=
           print_success_or_failure bFailure uiWriteBlocks st1 in
         (true, printf (OutDone uiWriteBlocks0 (uiBlocks st2 + 1)) st2)
     | (Return r, st1) => (r, st1)
     end = s' /\ exists k, (k <= n)%nat /\ Inv k s').
  { destruct (iterate _ _ n 0 (false, 0) st0) as [[[f c]|r] s'].
    - eexists. split; [reflexivity|]. exists n. split; [lia|]. exact Hit.
    - eexists. split; [reflexivity|]. exact Hit. }
  destruct Hfinal as (s' & -> & k & Hk & HI).
  destruct (Hmono k s' Hk HI) as (HD & l & Hl & HF & HS).
  cbv zeta. rewrite (new_calls_app st _ l Hl). repeat split; assumption.
Qed.

(** ** How a pass ends *)

Lemma select_result (init : option (list byte)) (pti : bool) (st : state dev) :
  let r := nfc_initiator_select_tag T init pti st in
  calls (snd r) = calls st ++ [CallSelect init (fst r)] /\ stdout (snd r) = stdout st.
Proof.
  unfold nfc_initiator_select_tag.
  destruct (tr_select T (pnd st) init) as [[ti|] d]; [destruct pti|]; cbn; auto.
Qed.

Lemma read_card_body_return (i : Z) (loc : bool * Z) (st : state dev) :
  match read_card_body T i loc st with
  | (Return r, s') =>
      is_trailer_block i = true /\
      ((r = true /\ last (stdout s') = Some OutTagRemoved /\
        last (calls s') = Some (CallSelect None false)) \/
       (r = false /\ last (stdout s') = Some (OutAuthFailed i)))
  | (Continue _, _) => True
  end.
Proof.
  unfold read_card_body. destruct loc as [bFailure cnt].
  destruct (is_trailer_block i).
  - destruct (negb (i =? uiBlocks st)); unfold print_success_or_failure;
      destruct bFailure;
      try match goal with
        | |- context [nfc_initiator_select_tag T None true ?S] =>
            destruct (select_result None true S) as [HC _];
            destruct (nfc_initiator_select_tag T None true S) as [oks s1];
            cbn [fst snd] in HC; destruct oks; cbn [negb];
            [|split; [reflexivity|]; left; split; [reflexivity|];
              cbn [stdout calls printf]; rewrite HC, !last_snoc; auto]
        end;
      match goal with
      | |- context [authenticate T i ?S] =>
          destruct (authenticate T i S) as [oka s2]; destruct oka; cbn [negb];
          [destruct (nfc_initiator_mifare_cmd T MC_READ i s2) as [[] s3]; exact I
          |split; [reflexivity|]; right; split; [reflexivity|];
           cbn [stdout printf]; apply last_snoc]
      end.
  - destruct bFailure; cbn [negb]; [exact I|].
    destruct (nfc_initiator_mifare_cmd T MC_READ i st) as [[] s3]; exact I.
Qed.

(** X3. How [read_card] ends, on any device. It returns false exactly when
    its last output is the authentication error, which names a trailer
    block of the card. When it returns true its last output is either the
    "Done" line for [uiBlocks + 1] blocks, or the tag-removed error, in which
    case its last call to the device is the failed selection of the tag. *)
Theorem read_card_outcome (st : state dev) :
  let r := read_card T st in
  (fst r = false <-> exists b, last (stdout (snd r)) = Some (OutAuthFailed b)) /\
  (forall b, last (stdout (snd r)) = Some (OutAuthFailed b) ->
             is_trailer_block b = true /\ 0 <= b <= uiBlocks st) /\
  (fst r = true ->
   (exists n, last (stdout (snd r)) = Some (OutDone n (uiBlocks st + 1))) \/
   (last (stdout (snd r)) = Some OutTagRemoved /\
    last (calls (snd r)) = Some (CallSelect None false))).
Proof.
  set (U := uiBlocks st). set (n := Z.to_nat (U + 1)).
  pose (Post := fun (r : bool) (s' : state dev) =>
    (r = true /\ last (stdout s') = Some OutTagRemoved /\
     last (calls s') = Some (CallSelect None false)) \/
    (r = false /\ exists b, last (stdout s') = Some (OutAuthFailed b) /\
                            is_trailer_block b = true /\ 0 <= b <= U)).
  pose proof (iterate_inv (read_card_body T) Z.pred
                (fun _ (_ : bool * Z) (_ : state dev) => True) Post n U) as Hit.
  match type of Hit with
  | ?A -> _ => assert (Hb : A); [|specialize (Hit Hb); clear Hb]
  end.
  { intros k loc s Hk _. rewrite iter_pred.
    pose proof (read_card_body_return (U - Z.of_nat k) loc s) as HR.
    destruct (read_card_body T (U - Z.of_nat k) loc s) as [[loc'|r] s']; [exact I|].
    destruct HR as (Htr & [HR|[-> HR]]); [left; exact HR|].
    right. split; [reflexivity|]. exists (U - Z.of_nat k). repeat split; auto; lia. }
  unfold read_card. fold U.
  set (st0 := printf (OutHeader (U + 1)) st).
  change (uiBlocks st0) with U. fold n.
  specialize (Hit (false, 0) st0 I).
  pose proof (read_loop_evolves n U (false, 0) st0) as HE.
  destruct (iterate _ _ n U (false, 0) st0) as [[[f c]|r] s']; cbn [snd] in HE.
  - destruct HE as (HU & _). unfold print_success_or_failure.
    cbn [fst snd stdout printf uiBlocks]. rewrite HU. change (uiBlocks st0) with U.
    rewrite last_snoc.
    split; [split; [discriminate|intros [b Hb]; discriminate]|].
    split; [intros b Hb; discriminate|].
    intros _. left. eauto.
  - cbn [fst snd]. destruct Hit as [(-> & Ho & Hc)|(-> & b & Ho & Htr & Hb)].
    + split; [split; [discriminate|intros [b Hb]; congruence]|].
      split; [intros b Hb; congruence|]. intros _. right. auto.
    + split; [split; [eauto|reflexivity]|].
      split; [intros b' Hb'; assert (b' = b) by congruence; subst; auto|].
      discriminate.
Qed.

Lemma write_card_first_return (i : Z) (loc : bool * Z) (st : state dev) :
  match write_card_first T i loc st with
  | (Return r, s') =>
      r = false /\ is_first_block i = true /\
      ((last (stdout s') = Some OutTagRemoved /\
        last (calls s') = Some (CallSelect None false)) \/
       last (stdout s') = Some (OutAuthFailed i))
  | (Continue _, _) => True
  end.
Proof.
  unfold write_card_first. destruct loc as [bFailure cnt].
  destruct (is_first_block i); [|exact I].
  destruct (negb (i =? uiBlocks st)); unfold print_success_or_failure;
    destruct bFailure;
    try match goal with
      | |- context [nfc_initiator_select_tag T None true ?S] =>
          destruct (select_result None true S) as [HC _];
          destruct (nfc_initiator_select_tag T None true S) as [oks s1];
          cbn [fst snd] in HC; destruct oks; cbn [negb];
          [|split; [reflexivity|]; split; [reflexivity|]; left;
            cbn [stdout calls printf]; rewrite HC, !last_snoc; auto]
      end;
    match goal with
    | |- context [authenticate T i ?S] =>
        destruct (authenticate T i S) as [oka s2]; destruct oka; cbn [negb];
        [exact I
        |split; [reflexivity|]; split; [reflexivity|]; right;
         cbn [stdout printf]; apply last_snoc]
    end.
Qed.

Lemma write_card_block_continues (i : Z) (loc : bool * Z) (st : state dev) :
  exists loc', fst (write_card_block T i loc st) = Continue loc'.
Proof.
  unfold write_card_block. destruct loc as [bFailure cnt].
  destruct (is_trailer_block i).
  - destruct (nfc_initiator_mifare_cmd T MC_WRITE i _) as [[] s]; cbn; eauto.
  - destruct (i =? 0); [cbn; eauto|].
    destruct bFailure; cbn [negb]; [cbn; eauto|].
    destruct (nfc_initiator_mifare_cmd T MC_WRITE i _) as [[] s]; cbn; eauto.
Qed.

(** X4. How [write_card] ends, on any device. It returns true exactly when
    its last output is the "Done" line for [uiBlocks + 1] blocks. When it
    returns false its last output is the tag-removed error, its last call to
    the device being the failed selection of the tag, or the authentication
    error, which names a first block of a sector of the card. *)
Theorem write_card_outcome (st : state dev) :
  let r := write_card T st in
  (fst r = true <->
   exists n, last (stdout (snd r)) = Some (OutDone n (uiBlocks st + 1))) /\
  (fst r = false ->
   (last (stdout (snd r)) = Some OutTagRemoved /\
    last (calls (snd r)) = Some (CallSelect None false)) \/
   (exists b, last (stdout (snd r)) = Some (OutAuthFailed b) /\
              is_first_block b = true /\ 0 <= b <= uiBlocks st)).
Proof.
  set (U := uiBlocks st). set (n := Z.to_nat (U + 1)).
  pose (Post := fun (r : bool) (s' : state dev) =>
    r = false /\
    ((last (stdout s') = Some OutTagRemoved /\
      last (calls s') = Some (CallSelect None false)) \/
     (exists b, last (stdout s') = Some (OutAuthFailed b) /\
                is_first_block b = true /\ 0 <= b <= U))).
  pose proof (iterate_inv (write_card_body T) Z.succ
                (fun _ (_ : bool * Z) (_ : state dev) => True) Post n 0) as Hit.
  match type of Hit with
  | ?A -> _ => assert (Hb : A); [|specialize (Hit Hb); clear Hb]
  end.
  { intros k loc s Hk _. rewrite iter_succ.
    replace (0 + Z.of_nat k) with (Z.of_nat k) by lia.
    unfold write_card_body.
    pose proof (write_card_first_return (Z.of_nat k) loc s) as HR.
    destruct (write_card_first T (Z.of_nat k) loc s) as [[loc'|r] s'].
    - destruct (write_card_block_continues (Z.of_nat k) loc' s') as (loc'' & E).
      destruct (write_card_block T (Z.of_nat k) loc' s') as [res s''].
      cbn [fst] in E. subst res. exact I.
    - destruct HR as (-> & Hf & [HR|HR]); (split; [reflexivity|]); [left; exact HR|].
      right. exists (Z.of_nat k). repeat split; auto; lia. }
  unfold write_card. fold U.
  set (st0 := printf (OutHeader (U + 1)) st).
  change (uiBlocks st0) with U. fold n.
  specialize (Hit (false, 0) st0 I).
  pose proof (write_card_evolves (fun _ => True) st (fun _ _ _ => I)) as HE.
  unfold write_card in HE. fold U in HE. fold st0 in HE.
  change (uiBlocks st0) with U in HE. fold n in HE.
  destruct (iterate _ _ n 0 (false, 0) st0) as [[[f c]|r] s']; cbn [snd] in HE.
  - unfold print_success_or_failure in *.
    cbn [fst snd stdout printf uiBlocks] in *. destruct HE as (HU & _).
    cbn [uiBlocks printf] in HU. rewrite HU. fold U.
    rewrite last_snoc. split; [split; eauto|discriminate].
  - cbn [fst snd]. destruct Hit as (-> & Ho).
    split; [|intros _; exact Ho].
    split; [discriminate|]. intros [m Hm].
    destruct Ho as [[Ho _]|(b & Ho & _)]; congruence.
Qed.

(** ** Authentication with a key file *)

Lemma param_auth_fields (p uid key : list byte) :
  (6 <= length p)%nat -> length uid = 4%nat -> length key = 6%nat ->
  let p2 := memcpy (memcpy p off_mpa_abtUid uid 0 4) off_mpa_abtKey key 0 6 in
  mpa_abtKey p2 = key /\ mpa_abtUid p2 = uid.
Proof.
  intros Hp Hu Hk.
  do 6 (destruct p as [|? p]; [cbn in Hp; lia|]).
  do 5 (destruct uid as [|? uid]; try discriminate Hu).
  do 7 (destruct key as [|? key]; try discriminate Hk).
  cbn. auto.
Qed.

Lemma length_key_fields (blk : block) :
  length blk = 16%nat ->
  length (mbt_abtKeyA blk) = 6%nat /\ length (mbt_abtKeyB blk) = 6%nat.
Proof.
  intros Hl. do 17 (destruct blk as [|? blk]; try discriminate Hl). auto.
Qed.

(** X5. With a key file, [authenticate] sends exactly one command to the
    device: the authentication of the block, for the key letter asked for,
    with the key of that letter that the key table holds at the trailer
    block of the sector of the block, and with the uid of the tag. Its
    result is the answer of the device; there is no second attempt and no
    selection of the tag, and the key table, the dump and the tag
    information are left as they are. *)
Theorem authenticate_key_file (uiBlock : Z) (st : state dev) :
  bUseKeyFile st = true ->
  (6 <= length (mp st))%nat ->
  length (abtUid (nti st)) = 4%nat ->
  length (amb (mtKeys st) (get_trailer_block uiBlock)) = 16%nat ->
  let mc := if bUseKeyA st then MC_AUTH_A else MC_AUTH_B in
  let trailer := amb (mtKeys st) (get_trailer_block uiBlock) in
  let key := if bUseKeyA st then mbt_abtKeyA trailer else mbt_abtKeyB trailer in
  let uid := abtUid (nti st) in
  let r := authenticate T uiBlock st in
  new_calls st (snd r) = [CallAuth mc uiBlock key uid (fst r)] /\
  fst r = fst (tr_authenticate T (pnd st) mc uiBlock key uid) /\
  mtKeys (snd r) = mtKeys st /\ mtDump (snd r) = mtDump st /\
  nti (snd r) = nti st.
Proof.
  intros Hmode Hp Hu Hblk mc trailer key uid r.
  destruct (length_key_fields trailer Hblk) as [HA HB].
  subst r. unfold authenticate. rewrite Hmode. cbn [bUseKeyA set_mp mp mtKeys nti].
  fold trailer uid.
  destruct (bUseKeyA st) eqn:EA.
  - destruct (param_auth_fields (mp st) uid (mbt_abtKeyA trailer) Hp Hu HA) as [K1 K2].
    cbv zeta in K1, K2.
    match goal with
    | |- context [nfc_initiator_mifare_cmd T MC_AUTH_A uiBlock ?s] =>
        destruct (mifare_cmd_auth MC_AUTH_A uiBlock s) as (ok & d & Htr & E); [auto|];
        rewrite E; cbn [mp set_mp pnd] in Htr
    end.
    cbn [mp set_mp] in *. rewrite K1, K2 in *.
    subst mc key. rewrite Htr.
    destruct ok; cbn [fst snd]; repeat split; auto; apply new_calls_app; reflexivity.
  - destruct (param_auth_fields (mp st) uid (mbt_abtKeyB trailer) Hp Hu HB) as [K1 K2].
    cbv zeta in K1, K2.
    match goal with
    | |- context [nfc_initiator_mifare_cmd T MC_AUTH_B uiBlock ?s] =>
        destruct (mifare_cmd_auth MC_AUTH_B uiBlock s) as (ok & d & Htr & E); [auto|];
        rewrite E; cbn [mp set_mp pnd] in Htr
    end.
    cbn [mp set_mp] in *. rewrite K1, K2 in *.
    subst mc key. rewrite Htr.
    destruct ok; cbn [fst snd]; repeat split; auto; apply new_calls_app; reflexivity.
Qed.

(** ** The whole log of the brute-force authenticator *)

Lemma refused_attempts_snoc (mc : mifare_cmd) (b : Z) (uid : list byte) (ok : bool) :
  forall (sel : list bool) (j : nat),
    refused_attempts mc b uid j (sel ++ [ok])
    = refused_attempts mc b uid j sel
      ++ [CallAuth mc b (candidate (j + length sel)) uid false; CallSelect (Some uid) ok].
Proof.
  induction sel as [|x sel IH]; intros j; cbn [refused_attempts app length].
  - now rewrite Nat.add_0_r.
  - rewrite IH. replace (Datatypes.S j + length sel)%nat
      with (j + Datatypes.S (length sel))%nat by lia.
    reflexivity.
Qed.

Lemma mpa_abtUid_set (p uid : list byte) :
  (6 <= length p)%nat -> length uid = 4%nat ->
  mpa_abtUid (memcpy p off_mpa_abtUid uid 0 4) = uid.
Proof.
  intros Hp Hu.
  do 6 (destruct p as [|? p]; [cbn in Hp; lia|]).
  do 5 (destruct uid as [|? uid]; try discriminate Hu).
  reflexivity.
Qed.

Lemma mpa_abtUid_memcpy_key (p : mifare_param) (k : nat) :
  (k < num_keys)%nat ->
  mpa_abtUid (memcpy p off_mpa_abtKey keys (k * 6) 6) = mpa_abtUid p.
Proof.
  intros Hk. unfold mpa_abtUid, memcpy, sub, off_mpa_abtKey, off_mpa_abtUid.
  rewrite take_0. cbn [app Nat.add].
  fold (sub keys (k * 6) 6). fold (candidate k).
  rewrite drop_app_length' by (symmetry; now apply length_candidate). reflexivity.
Qed.

Lemma select_dropped (init : option (list byte)) (st : state dev) :
  nti (snd (nfc_initiator_select_tag T init false st)) = nti st.
Proof.
  unfold nfc_initiator_select_tag.
  destruct (tr_select T (pnd st) init) as [[ti|] d]; reflexivity.
Qed.

(** X6. Without key file, for a parameter buffer and a uid of their sizes:
    the calls of [authenticate] are, for each candidate key that is refused,
    in the order of the table, the authentication with that candidate and
    then one selection of the tag by the uid of the tag, whatever that
    selection answers; and, when the result is success, the accepted
    authentication with the next candidate, after which nothing is sent.
    On failure all candidates were refused. The tag information and the
    dump are not changed, and on failure the key table is not changed. *)
Theorem authenticate_brute_force_log (uiBlock : Z) (st : state dev) :
  bUseKeyFile st = false ->
  (6 <= length (mp st))%nat ->
  length (abtUid (nti st)) = 4%nat ->
  let mc := if bUseKeyA st then MC_AUTH_A else MC_AUTH_B in
  let uid := abtUid (nti st) in
  let r := authenticate T uiBlock st in
  exists sel : list bool,
    new_calls st (snd r)
    = refused_attempts mc uiBlock uid 0 sel
      ++ (if fst r then [CallAuth mc uiBlock (candidate (length sel)) uid true] else []) /\
    (if fst r then (length sel < num_keys)%nat else length sel = num_keys) /\
    nti (snd r) = nti st /\ mtDump (snd r) = mtDump st /\
    (fst r = false -> mtKeys (snd r) = mtKeys st).
Proof.
  intros Hmode Hp Hu mc uid r. subst r. unfold authenticate. rewrite Hmode. fold mc.
  assert (Hmc : mc = MC_AUTH_A \/ mc = MC_AUTH_B) by (subst mc; destruct (bUseKeyA st); auto).
  set (st1 := set_mp _ st).
  pose (I := fun (k : nat) (_ : unit) (s : state dev) =>
    mtKeys s = mtKeys st /\ nti s = nti st /\ mtDump s = mtDump st /\
    mpa_abtUid (mp s) = uid /\
    exists sel, length sel = k /\
      calls s = calls st ++ refused_attempts mc uiBlock uid 0 sel).
  pose (Post := fun (r : bool) (s : state dev) =>
    r = true /\ nti s = nti st /\ mtDump s = mtDump st /\
    exists sel, (length sel < num_keys)%nat /\
      calls s = calls st ++ refused_attempts mc uiBlock uid 0 sel
                ++ [CallAuth mc uiBlock (candidate (length sel)) uid true]).
  pose proof (iterate_inv (authenticate_body T mc uiBlock) Z.succ I Post num_keys 0) as Hit.
  match type of Hit with
  | ?A -> _ => assert (Hb : A); [|specialize (Hit Hb tt st1); clear Hb]
  end.
  { intros k [] s Hk (HK & HN & HD & HU & sel & Hlen & Hl).
    rewrite iter_succ. unfold authenticate_body.
    replace (Z.to_nat (0 + Z.of_nat k)) with k by lia.
    set (s1 := set_mp _ s).
    destruct (mifare_cmd_auth mc uiBlock s1 Hmc) as (ok & d & Htr & ->).
    assert (Hkey : mpa_abtKey (mp s1) = candidate k)
      by (subst s1; cbn [mp set_mp]; now apply mpa_abtKey_memcpy).
    assert (Huid : mpa_abtUid (mp s1) = uid)
      by (subst s1; cbn [mp set_mp]; rewrite mpa_abtUid_memcpy_key; auto).
    rewrite Hkey, Huid in *.
    destruct ok.
    - assert (HP : forall t, Post true
        (set_mtKeys t (set_dev d (CallAuth mc uiBlock (candidate k) uid true) s1))).
      { intros t. split; [reflexivity|]. subst s1. cbn [nti mtDump calls set_mtKeys set_dev set_mp].
        split; [exact HN|]. split; [exact HD|].
        exists sel. rewrite Hlen. split; [exact Hk|].
        rewrite Hl, <- app_assoc. reflexivity. }
      cbv zeta.
      match goal with
      | |- context [if bUseKeyA ?x then set_mtKeys _ _ else _] => destruct (bUseKeyA x)
      end; apply HP.
    - set (s2 := set_dev _ _ s1).
      pose proof (select_fields (Some (mpa_abtUid (mp s2))) false s2) as HS.
      pose proof (select_result (Some (mpa_abtUid (mp s2))) false s2) as HR.
      pose proof (select_dropped (Some (mpa_abtUid (mp s2))) s2) as HT.
      destruct (nfc_initiator_select_tag T _ false s2) as [x s3].
      cbn [fst snd] in HS, HR, HT. destruct HS as (SK & SD & SM & _ & _).
      destruct HR as (SC & _).
      assert (E2 : mpa_abtUid (mp s2) = uid) by exact Huid.
      rewrite E2 in SC.
      subst s2 s1. cbn [mtKeys nti mtDump mp calls set_dev set_mp] in SK, SD, SM, SC, HT.
      unfold I. split; [congruence|]. split; [congruence|]. split; [congruence|].
      split; [rewrite SM; exact Huid|].
      exists (sel ++ [x]). split; [rewrite length_app; cbn; lia|].
      rewrite refused_attempts_snoc, SC, Hl, <- !app_assoc. cbn [Nat.add app].
      rewrite Hlen. reflexivity. }
  match type of Hit with
  | ?A -> _ => assert (H0 : A); [|specialize (Hit H0); clear H0]
  end.
  { unfold I. subst st1. cbn [mtKeys nti mtDump mp calls set_mp].
    split; [reflexivity|]. split; [reflexivity|]. split; [reflexivity|].
    split; [now apply mpa_abtUid_set|].
    exists []. split; [reflexivity|]. cbn. now rewrite app_nil_r. }
  destruct (iterate _ _ _ _ _ _) as [[[]|x] s2]; cbn [fst snd].
  - destruct Hit as (HK & HN & HD & _ & sel & Hlen & Hl).
    exists sel. rewrite app_nil_r. split; [now apply new_calls_app|]. auto.
  - destruct Hit as (-> & HN & HD & sel & Hlen & Hl).
    exists sel. split; [now apply new_calls_app|]. split; [exact Hlen|].
    split; [exact HN|]. split; [exact HD|]. discriminate.
Qed.

(** ** What a read pass leaves in the dump and in the key table *)

Lemma mifare_cmd_mtKeys (mc : mifare_cmd) (b : Z) (st : state dev) :
  mtKeys (snd (nfc_initiator_mifare_cmd T mc b st)) = mtKeys st.
Proof.
  unfold nfc_initiator_mifare_cmd. destruct mc.
  - destruct (tr_authenticate T _ _ _ _ _); reflexivity.
  - destruct (tr_authenticate T _ _ _ _ _); reflexivity.
  - destruct (tr_read T _ _) as [[data|] d]; reflexivity.
  - destruct (tr_write T _ _ _); reflexivity.
Qed.

Lemma amb_update_ne (t : mifare_tag) (i j : Z) (f : block -> block) :
  0 <= i -> 0 <= j -> j <> i -> amb (amb_update t i f) j = amb t j.
Proof.
  intros Hi Hj Hne. unfold amb, amb_update, mifare_tag, block in *.
  apply list_lookup_total_alter_ne. lia.
Qed.

Lemma amb_update_eq (t : mifare_tag) (i : Z) (f : block -> block) :
  0 <= i < Z.of_nat (length t) -> amb (amb_update t i f) i = f (amb t i).
Proof.
  intros Hi. unfold amb, amb_update, mifare_tag, block in *.
  apply list_lookup_total_alter_eq. lia.
Qed.

Lemma amb_update_length (t : mifare_tag) (i : Z) (f : block -> block) :
  length (amb_update t i f) = length t.
Proof. unfold amb_update. apply length_alter. Qed.

Lemma amb_update_blocks (t : mifare_tag) (i : Z) (f : block -> block) :
  Forall (fun b : block => length b = 16%nat) t ->
  (forall b : block, length b = 16%nat -> length (f b) = 16%nat) ->
  Forall (fun b : block => length b = 16%nat) (amb_update t i f).
Proof.
  intros HF Hf. unfold amb_update, mifare_tag, block in *.
  apply Forall_alter; [exact HF|]. intros x _ Hx. exact (Hf x Hx).
Qed.

(** [authenticate] changes the key table at the block it is called for
    only, and not at all with a key file. *)
Lemma authenticate_mtKeys (b : Z) (st : state dev) :
  let s' := snd (authenticate T b st) in
  length (mtKeys s') = length (mtKeys st) /\
  (forall j, 0 <= b -> 0 <= j -> j <> b -> amb (mtKeys s') j = amb (mtKeys st) j) /\
  (bUseKeyFile st = true -> mtKeys s' = mtKeys st) /\
  (Forall (fun blk : block => length blk = 16%nat) (mtKeys st) ->
   Forall (fun blk : block => length blk = 16%nat) (mtKeys s')).
Proof.
  destruct (bUseKeyFile st) eqn:Emode.
  - assert (E : mtKeys (snd (authenticate T b st)) = mtKeys st).
    { unfold authenticate. rewrite Emode.
      destruct (bUseKeyA (set_mp _ st));
        match goal with
        | |- context [nfc_initiator_mifare_cmd T ?mc b ?s] =>
            pose proof (mifare_cmd_mtKeys mc b s) as H;
            destruct (nfc_initiator_mifare_cmd T mc b s) as [[] s']; exact H
        end. }
    cbv zeta. rewrite E. repeat split; auto.
  - pose proof (brute_force_run b st Emode) as Hrun. cbv zeta in Hrun.
    destruct (authenticate T b st) as [[|] s']; cbn [snd].
    + destruct Hrun as (k & Hk & -> & _).
      split; [apply amb_update_length|]. split; [|split; [discriminate|]].
      * intros j Hb Hj Hne. now apply amb_update_ne.
      * intros HF. apply amb_update_blocks; [exact HF|].
        intros blk Hblk.
        apply (memcpy_key_fields blk (candidate k) (bUseKeyA st) Hblk
                 (length_candidate k Hk)).
    + destruct Hrun as (-> & _). repeat split; auto.
Qed.

Lemma select_keeps (init : option (list byte)) (pti : bool) (st : state dev) :
  let s' := snd (nfc_initiator_select_tag T init pti st) in
  mtKeys s' = mtKeys st /\ mtDump s' = mtDump st /\
  bUseKeyFile s' = bUseKeyFile st.
Proof.
  unfold nfc_initiator_select_tag.
  destruct (tr_select T (pnd st) init) as [[ti|] d]; [destruct pti|];
    cbn; repeat split; eauto.
Qed.

(** The key table after one run of the body of the read loop: as before, or
    as [authenticate] for the block left it. *)
Lemma read_card_body_keys_src (i : Z) (loc : bool * Z) (st : state dev) :
  let s' := snd (read_card_body T i loc st) in
  mtKeys s' = mtKeys st \/
  (is_trailer_block i = true /\
   exists S, mtKeys S = mtKeys st /\ bUseKeyFile S = bUseKeyFile st /\
             mtKeys s' = mtKeys (snd (authenticate T i S))).
Proof.
  unfold read_card_body. destruct loc as [bFailure cnt].
  destruct (is_trailer_block i).
  - destruct (negb (i =? uiBlocks st)); unfold print_success_or_failure;
      destruct bFailure;
      try match goal with
        | |- context [nfc_initiator_select_tag T None true ?S] =>
            destruct (select_keeps None true S) as (SK & _ & SF);
            destruct (nfc_initiator_select_tag T None true S) as [oks s1];
            cbn [fst snd] in SK, SF; cbn [mtKeys bUseKeyFile printf] in SK, SF;
            destruct oks; cbn [negb]; [|left; exact SK]
        end;
      match goal with
      | |- context [authenticate T i ?S] =>
          right; split; [reflexivity|]; exists S;
          split; [first [exact SK|reflexivity]|];
          split; [first [exact SF|reflexivity]|];
          destruct (authenticate T i S) as [oka s2]; destruct oka; cbn [negb snd];
          [|reflexivity];
          pose proof (mifare_cmd_mtKeys MC_READ i s2) as HK;
          destruct (nfc_initiator_mifare_cmd T MC_READ i s2) as [[] s3];
          cbn [snd] in HK |- *; exact HK
      end.
  - left. destruct bFailure; cbn [negb]; [reflexivity|].
    pose proof (mifare_cmd_mtKeys MC_READ i st) as HK.
    destruct (nfc_initiator_mifare_cmd T MC_READ i st) as [[] s3];
      cbn [snd] in HK |- *; exact HK.
Qed.

Lemma read_card_body_keys (i : Z) (loc : bool * Z) (st : state dev) :
  let s' := snd (read_card_body T i loc st) in
  length (mtKeys s') = length (mtKeys st) /\
  (forall j, 0 <= i -> 0 <= j -> j <> i -> amb (mtKeys s') j = amb (mtKeys st) j) /\
  (bUseKeyFile st = true -> mtKeys s' = mtKeys st) /\
  (is_trailer_block i = false -> mtKeys s' = mtKeys st) /\
  (Forall (fun blk : block => length blk = 16%nat) (mtKeys st) ->
   Forall (fun blk : block => length blk = 16%nat) (mtKeys s')).
Proof.
  cbv zeta.
  destruct (read_card_body_keys_src i loc st) as [E|(Htr & S & SK & SF & E)];
    cbv zeta in E; rewrite E.
  - repeat split; auto.
  - destruct (authenticate_mtKeys i S) as (A1 & A2 & A3 & A4). cbv zeta in *.
    rewrite SK, SF in *. repeat split; auto.
    intros Hf. congruence.
Qed.

(** The dump after one run of the body of the read loop: as before when no
    read of the block succeeded; after a read that succeeded, with the block
    replaced by what [stored_block] makes of the data read. *)
Lemma read_card_body_dump (i : Z) (loc : bool * Z) (st : state dev) :
  let s' := snd (read_card_body T i loc st) in
  exists l0 lr,
    calls s' = calls st ++ l0 ++ lr /\ Forall (auth_at i) l0 /\
    (((lr = [] \/ lr = [CallRead i false]) /\ mtDump s' = mtDump st) \/
     (lr = [CallRead i true] /\
      exists data d0 p0, fst (tr_read T d0 i) = Some data /\
        mtDump s' = amb_update (mtDump st) i
                      (stored_block (is_trailer_block i) (amb (mtKeys s') i)
                         (memcpy p0 0 data 0 16)))).
Proof.
  assert (Hnone : forall s s' : state dev, evolves (auth_at i) s s' ->
            mtDump s' = mtDump s ->
            exists l0 lr, calls s' = calls s ++ l0 ++ lr /\ Forall (auth_at i) l0 /\
              (((lr = [] \/ lr = [CallRead i false]) /\ mtDump s' = mtDump s) \/
               (lr = [CallRead i true] /\
                exists data d0 p0, fst (tr_read T d0 i) = Some data /\
                  mtDump s' = amb_update (mtDump s) i
                      (stored_block (is_trailer_block i) (amb (mtKeys s') i)
                         (memcpy p0 0 data 0 16))))).
  { intros s s' E HD. destruct (evolves_calls _ _ _ E) as (l & Hl & HF).
    exists l, []. rewrite app_nil_r.
    split; [exact Hl|]. split; [exact HF|]. left. auto. }
  assert (Hread : forall s s2 : state dev, evolves (auth_at i) s s2 ->
            mtDump s2 = mtDump s ->
            let s' := snd
              (let '(ok, s3) := nfc_initiator_mifare_cmd T MC_READ i s2 in
               if ok then
                 (Continue tt,
                  set_mtDump (amb_update (mtDump s3) i
                     (stored_block (is_trailer_block i) (amb (mtKeys s3) i) (mp s3))) s3)
               else (Continue tt, s3)) in
            exists l0 lr, calls s' = calls s ++ l0 ++ lr /\ Forall (auth_at i) l0 /\
              (((lr = [] \/ lr = [CallRead i false]) /\ mtDump s' = mtDump s) \/
               (lr = [CallRead i true] /\
                exists data d0 p0, fst (tr_read T d0 i) = Some data /\
                  mtDump s' = amb_update (mtDump s) i
                      (stored_block (is_trailer_block i) (amb (mtKeys s') i)
                         (memcpy p0 0 data 0 16))))).
  { intros s s2 E HD. destruct (evolves_calls _ _ _ E) as (l & Hl & HF).
    unfold nfc_initiator_mifare_cmd.
    destruct (tr_read T (pnd s2) i) as [[data|] d] eqn:Er; cbv zeta; cbn [snd].
    - exists l, [CallRead i true]. cbn [calls set_mtDump set_mp set_dev].
      split; [rewrite Hl, <- app_assoc; reflexivity|]. split; [exact HF|].
      right. split; [reflexivity|]. exists data, (pnd s2), (mp s2).
      split; [now rewrite Er|].
      cbn [mtDump mtKeys mp set_mtDump set_mp set_dev]. now rewrite HD.
    - exists l, [CallRead i false]. cbn [calls mtDump set_dev].
      split; [rewrite Hl, <- app_assoc; reflexivity|]. split; [exact HF|].
      left. auto. }
  assert (Hsel : forall c, (exists ok, c = CallSelect None ok) -> auth_at i c)
    by (intros c [ok ->]; exact I).
  unfold read_card_body. destruct loc as [bFailure cnt].
  destruct (is_trailer_block i) eqn:Etr.
  - destruct (negb (i =? uiBlocks st)); unfold print_success_or_failure;
      destruct bFailure;
      try match goal with
        | |- context [nfc_initiator_select_tag T None true ?S] =>
            pose proof (select_evolves (auth_at i) None true S (fun ok => I)) as Hs;
            destruct (select_keeps None true S) as (_ & SD & _);
            destruct (nfc_initiator_select_tag T None true S) as [oks s1];
            cbn [fst snd] in Hs, SD; cbn [mtDump printf] in SD;
            destruct oks; cbn [negb];
            [|cbv zeta; cbn [snd]; apply (Hnone st); [ev_chain; auto|exact SD]]
        end;
      match goal with
      | |- context [authenticate T i ?S] =>
          pose proof (authenticate_evolves i S) as Ha;
          pose proof (authenticate_mtDump i S) as HD;
          destruct (authenticate T i S) as [oka s2]; cbn [snd] in Ha, HD;
          cbn [mtDump printf] in HD;
          assert (Hev : evolves (auth_at i) st s2) by (ev_chain; auto);
          assert (HD2 : mtDump s2 = mtDump st) by congruence;
          destruct oka; cbn [negb];
          [|cbv zeta; cbn [snd]; apply (Hnone st); [ev_chain; auto|exact HD2]];
          pose proof (Hread st s2 Hev HD2) as HR; cbv zeta in HR |- *;
          destruct (nfc_initiator_mifare_cmd T MC_READ i s2) as [[] s3];
          cbn [snd] in HR |- *;
          [|exact HR];
          cbn [mtDump mtKeys mp calls set_mtDump] in HR |- *;
          unfold amb_update in HR |- *;
          unfold mifare_tag, block in *;
          rewrite !list_alter_alter_eq; exact HR
      end.
  - destruct bFailure; cbn [negb];
      [cbv zeta; cbn [snd]; apply (Hnone st); [apply evolves_refl|reflexivity]|].
    pose proof (Hread st st (evolves_refl _ _) eq_refl) as HR; cbv zeta in HR |- *.
    destruct (nfc_initiator_mifare_cmd T MC_READ i st) as [[] s3];
      cbn [snd] in HR |- *; exact HR.
Qed.

Lemma Forall_In {A : Type} (P : A -> Prop) (l : list A) (x : A) :
  Forall P l -> In x l -> P x.
Proof.
  induction 1 as [|a l Ha HF IH]; intros Hin; [contradiction|].
  destruct Hin as [->|Hin]; auto.
Qed.

Lemma auth_at_not_read (i j : Z) (ok : bool) (l : list call) :
  Forall (auth_at i) l -> ~ In (CallRead j ok) l.
Proof. intros HF Hin. exact (Forall_In _ _ _ HF Hin). Qed.

Lemma In_new_calls (st st' : state dev) (l : list call) (c : call) :
  calls st' = calls st ++ l -> In c (new_calls st st') -> In c l.
Proof. intros H. now rewrite (new_calls_app st st' l H). Qed.

Lemma new_calls_In (st st' : state dev) (l : list call) (c : call) :
  calls st' = calls st ++ l -> In c l -> In c (new_calls st st').
Proof. intros H. now rewrite (new_calls_app st st' l H). Qed.

(** Without key file, a trailer block that the body of the read loop reads
    was authenticated with a candidate key that the device accepted, and
    that key is in the block of the key table. *)
Lemma read_card_body_found (i : Z) (loc : bool * Z) (st : state dev) :
  bUseKeyFile st = false ->
  is_trailer_block i = true ->
  let mc := if bUseKeyA st then MC_AUTH_A else MC_AUTH_B in
  let s' := snd (read_card_body T i loc st) in
  forall ok, In (CallRead i ok) (new_calls st s') ->
    exists k uid,
      (k < num_keys)%nat /\
      In (CallAuth mc i (candidate k) uid true) (new_calls st s') /\
      mtKeys s' = amb_update (mtKeys st) i
                    (fun blk => memcpy blk (key_offset (bUseKeyA st)) (candidate k) 0 6).
Proof.
  intros Hmode Htr mc s' ok. subst s'.
  assert (Htail : forall (S : state dev) (ls : list call),
    calls S = calls st ++ ls -> Forall (auth_at i) ls ->
    mtKeys S = mtKeys st -> bUseKeyA S = bUseKeyA st -> bUseKeyFile S = false ->
    forall bf cnt,
    let s' := snd
      (let '(ok, st) := authenticate T i S in
       if negb ok
       then (Return false, printf (OutAuthFailed i) st)
       else
         let '(ok, st) := nfc_initiator_mifare_cmd T MC_READ i st in
         if ok then
           let st := set_mtDump (amb_update (mtDump st) i
                       (fun b => memcpy b off_abtKeyA
                                   (amb (mtKeys st) i) off_abtKeyA 6)) st in
           let st := set_mtDump (amb_update (mtDump st) i
                       (fun b => memcpy b off_abtAccessBits (mp st) 6 4)) st in
           let st := set_mtDump (amb_update (mtDump st) i
                       (fun b => memcpy b off_abtKeyB
                                   (amb (mtKeys st) i) off_abtKeyB 6)) st in
           (Continue (bf : bool, cnt : Z), st)
         else (Continue (bf, cnt), st)) in
    In (CallRead i ok) (new_calls st s') ->
    exists k uid,
      (k < num_keys)%nat /\
      In (CallAuth mc i (candidate k) uid true) (new_calls st s') /\
      mtKeys s' = amb_update (mtKeys st) i
                    (fun blk => memcpy blk (key_offset (bUseKeyA st)) (candidate k) 0 6)).
  { intros S ls HC HF HK HA HM bf cnt.
    pose proof (brute_force_run i S HM) as Hrun. cbv zeta in Hrun.
    pose proof (authenticate_evolves i S) as (_ & _ & _ & la' & Hla' & HFa).
    destruct (authenticate T i S) as [oka s2]. cbn [snd] in Hla'.
    destruct oka; cbn [negb].
    - destruct Hrun as (k & Hk & HK2 & (la & uid & Hla & _) & _).
      destruct (mifare_cmd_read i s2) as (okr & s3 & E & Hc3 & _).
      pose proof (mifare_cmd_mtKeys MC_READ i s2) as HK3.
      rewrite E in HK3 |- *. cbn [snd] in HK3.
      assert (Hcalls : calls s3 = calls st ++ ls ++ la
                ++ [CallAuth mc i (candidate k) uid true] ++ [CallRead i okr]).
      { rewrite Hc3, Hla, HC. subst mc. rewrite HA. now rewrite <- !app_assoc. }
      assert (Hkeys : mtKeys s3 = amb_update (mtKeys st) i
                (fun blk => memcpy blk (key_offset (bUseKeyA st)) (candidate k) 0 6))
        by (rewrite HK3, HK2, HK, HA; reflexivity).
      destruct okr; cbv zeta; cbn [snd]; intros _; exists k, uid;
        (split; [exact Hk|]); (split; [|exact Hkeys]);
        (eapply new_calls_In; [exact Hcalls|]);
        rewrite !in_app_iff; cbn [In]; auto.
    - cbv zeta. cbn [snd]. intros Hin. exfalso.
      apply (In_new_calls st (printf (OutAuthFailed i) s2) (ls ++ la')) in Hin;
        [|cbn [calls printf]; rewrite Hla', HC; now rewrite <- app_assoc].
      apply in_app_or in Hin. destruct Hin as [Hin|Hin];
        [exact (auth_at_not_read i i ok ls HF Hin)
        |exact (auth_at_not_read i i ok la' HFa Hin)]. }
  unfold read_card_body. destruct loc as [bFailure cnt]. rewrite Htr.
  destruct (negb (i =? uiBlocks st)); unfold print_success_or_failure;
    destruct bFailure.
  - destruct (select_result None true (printf (OutProgress true) st)) as (SC & _).
    destruct (select_fields None true (printf (OutProgress true) st))
      as (SK & _ & _ & SA & _).
    destruct (select_keeps None true (printf (OutProgress true) st)) as (_ & _ & SF).
    destruct (nfc_initiator_select_tag T None true _) as [oks s1].
    cbn [fst snd calls mtKeys bUseKeyA bUseKeyFile printf] in SC, SK, SA, SF.
    destruct oks; cbn [negb].
    + apply (Htail s1 [CallSelect None true]); auto; [repeat constructor|congruence].
    + cbn [snd]. intros Hin.
      apply (In_new_calls st (printf OutTagRemoved s1) [CallSelect None false]) in Hin;
        [|exact SC].
      destruct Hin as [Hin|[]]. discriminate Hin.
  - apply (Htail (printf (OutProgress false) st) []); auto.
    cbn [calls printf]. now rewrite app_nil_r.
  - destruct (select_result None true st) as (SC & _).
    destruct (select_fields None true st) as (SK & _ & _ & SA & _).
    destruct (select_keeps None true st) as (_ & _ & SF).
    destruct (nfc_initiator_select_tag T None true _) as [oks s1].
    cbn [fst snd] in SC, SK, SA, SF.
    destruct oks; cbn [negb].
    + apply (Htail s1 [CallSelect None true]); auto; [repeat constructor|congruence].
    + cbn [snd]. intros Hin.
      apply (In_new_calls st (printf OutTagRemoved s1) [CallSelect None false]) in Hin;
        [|exact SC].
      destruct Hin as [Hin|[]]. discriminate Hin.
  - apply (Htail st []); auto. now rewrite app_nil_r.
Qed.

(** The dump and the key table after a read pass, on any device. *)
Lemma read_card_dump_keys (st : state dev) :
  let mc := if bUseKeyA st then MC_AUTH_A else MC_AUTH_B in
  let st' := snd (read_card T st) in
  let l := new_calls st st' in
  length (mtDump st') = length (mtDump st) /\
  length (mtKeys st') = length (mtKeys st) /\
  bUseKeyFile st' = bUseKeyFile st /\
  (bUseKeyFile st = true -> mtKeys st' = mtKeys st) /\
  (Forall (fun blk : block => length blk = 16%nat) (mtKeys st) ->
   Forall (fun blk : block => length blk = 16%nat) (mtKeys st')) /\
  (forall j, 0 <= j -> is_trailer_block j = false ->
     amb (mtKeys st') j = amb (mtKeys st) j) /\
  Forall (blocks_in (fun b => 0 <= b <= uiBlocks st)) l /\
  (forall j, 0 <= j -> ~ In (CallRead j true) l ->
     amb (mtDump st') j = amb (mtDump st) j) /\
  (forall j, In (CallRead j true) l -> j < Z.of_nat (length (mtDump st)) ->
     exists data d0 p0,
       fst (tr_read T d0 j) = Some data /\
       amb (mtDump st') j
       = stored_block (is_trailer_block j) (amb (mtKeys st') j)
           (memcpy p0 0 data 0 16) (amb (mtDump st) j)) /\
  (bUseKeyFile st = false ->
   forall j ok, In (CallRead j ok) l -> is_trailer_block j = true ->
     j < Z.of_nat (length (mtKeys st)) ->
     exists k uid,
       (k < num_keys)%nat /\
       In (CallAuth mc j (candidate k) uid true) l /\
       amb (mtKeys st') j
       = memcpy (amb (mtKeys st) j) (key_offset (bUseKeyA st)) (candidate k) 0 6).
Proof.
  intros mc.
  set (U := uiBlocks st). set (n := Z.to_nat (U + 1)).
  pose (Inv := fun (k : nat) (s : state dev) =>
    length (mtDump s) = length (mtDump st) /\
    length (mtKeys s) = length (mtKeys st) /\
    bUseKeyFile s = bUseKeyFile st /\
    bUseKeyA s = bUseKeyA st /\
    (bUseKeyFile st = true -> mtKeys s = mtKeys st) /\
    (Forall (fun blk : block => length blk = 16%nat) (mtKeys st) ->
     Forall (fun blk : block => length blk = 16%nat) (mtKeys s)) /\
    (forall j, 0 <= j -> is_trailer_block j = false ->
       amb (mtKeys s) j = amb (mtKeys st) j) /\
    (forall j, 0 <= j <= U - Z.of_nat k -> amb (mtKeys s) j = amb (mtKeys st) j) /\
    exists l, calls s = calls st ++ l /\
      Forall (blocks_in (fun b => U - Z.of_nat k < b <= U)) l /\
      (forall j, 0 <= j -> ~ In (CallRead j true) l ->
         amb (mtDump s) j = amb (mtDump st) j) /\
      (forall j, In (CallRead j true) l -> j < Z.of_nat (length (mtDump st)) ->
         exists data d0 p0,
           fst (tr_read T d0 j) = Some data /\
           amb (mtDump s) j
           = stored_block (is_trailer_block j) (amb (mtKeys s) j)
               (memcpy p0 0 data 0 16) (amb (mtDump st) j)) /\
      (bUseKeyFile st = false ->
       forall j ok, In (CallRead j ok) l -> is_trailer_block j = true ->
         j < Z.of_nat (length (mtKeys st)) ->
         exists k uid,
           (k < num_keys)%nat /\
           In (CallAuth mc j (candidate k) uid true) l /\
           amb (mtKeys s) j
           = memcpy (amb (mtKeys st) j) (key_offset (bUseKeyA st)) (candidate k) 0 6)).
  pose proof (iterate_inv (read_card_body T) Z.pred
                (fun k (_ : bool * Z) s => Inv k s)
                (fun (_ : bool) s => exists k, (k <= n)%nat /\ Inv k s) n U) as Hit.
  match type of Hit with
  | ?A -> _ => assert (Hb : A); [|specialize (Hit Hb); clear Hb]
  end.
  { intros k loc s Hk
      (ID & IK & IF & IA & IKF & I16 & INT & ILow & l & Hl & HB & Hframe & Hcont & Hfound).
    rewrite iter_pred. set (i := U - Z.of_nat k).
    assert (Hi : 0 <= i <= U) by (subst i n; lia).
    destruct (read_card_body_dump i loc s) as (l0 & lr & Hc & H0 & Hcases).
    destruct (read_card_body_keys i loc s) as (K1 & K2 & K3 & K4 & K5).
    pose proof (read_card_body_evolves i loc s) as (_ & EA & EF & _).
    pose proof (read_card_body_found i loc s) as HFound.
    cbv zeta in Hc, Hcases, K1, K2, K3, K4, K5, HFound.
    assert (Hold : forall j ok, In (CallRead j ok) l -> i < j).
    { intros j ok Hin. pose proof (Forall_In _ _ _ HB Hin) as Hj. cbn in Hj. lia. }
    assert (Hlr : forall j ok, In (CallRead j ok) lr -> j = i).
    { intros j ok Hin.
      destruct Hcases as [[[E|E] _]|(E & _)]; rewrite E in Hin; cbn in Hin;
        try contradiction; destruct Hin as [Hin|[]]; now inversion Hin. }
    assert (HI : Inv (Datatypes.S k) (snd (read_card_body T i loc s))).
    { set (s' := snd (read_card_body T i loc s)) in *.
      assert (HDlen : length (mtDump s') = length (mtDump s)).
      { destruct Hcases as [[_ ->]|(_ & data & d0 & p0 & _ & ->)];
          [reflexivity|apply amb_update_length]. }
      assert (HDne : forall j, 0 <= j -> j <> i -> amb (mtDump s') j = amb (mtDump s) j).
      { intros j Hj Hne.
        destruct Hcases as [[_ ->]|(_ & data & d0 & p0 & _ & ->)];
          [reflexivity|apply amb_update_ne; lia]. }
      split; [congruence|]. split; [congruence|]. split; [congruence|].
      split; [congruence|].
      split; [intros Hf; rewrite K3 by congruence; auto|].
      split; [auto|]. split.
      { intros j Hj Hnt. destruct (Z.eq_dec j i) as [->|Hne].
        - rewrite K4 by exact Hnt. auto.
        - rewrite K2 by lia. auto. }
      split.
      { intros j Hj. rewrite K2 by lia. apply ILow. lia. }
      exists (l ++ l0 ++ lr). split; [rewrite Hc, Hl, <- !app_assoc; reflexivity|].
      split.
      { apply Forall_app. split.
        - eapply Forall_weaken; [|exact HB]. intros c Hcb. destruct c; cbn in *; lia.
        - apply Forall_app. split.
          + eapply Forall_weaken; [|exact H0].
            intros c Hcb. destruct c; cbn in *; try contradiction; lia.
          + destruct Hcases as [[[->| ->] _]|(-> & _)]; repeat constructor; cbn; lia. }
      split.
      { intros j Hj Hnin.
        assert (Hnl : ~ In (CallRead j true) l)
          by (intros Hin; apply Hnin; apply in_or_app; now left).
        destruct (Z.eq_dec j i) as [->|Hne].
        - destruct Hcases as [[_ E]|(E & _)].
          + rewrite E. now apply Hframe.
          + exfalso. apply Hnin. apply in_or_app. right. apply in_or_app. right.
            rewrite E. now left.
        - rewrite HDne by lia. now apply Hframe. }
      split.
      { intros j Hin Hlt.
        apply in_app_or in Hin. destruct Hin as [Hin|Hin].
        - pose proof (Hold j true Hin) as Hgt.
          destruct (Hcont j Hin Hlt) as (data & d0 & p0 & Hd & E).
          exists data, d0, p0. split; [exact Hd|].
          rewrite HDne by lia. rewrite K2 by lia. exact E.
        - apply in_app_or in Hin. destruct Hin as [Hin|Hin];
            [exfalso; exact (auth_at_not_read i j true l0 H0 Hin)|].
          pose proof (Hlr j true Hin) as ->.
          destruct Hcases as [[[E|E] _]|(E & data & d0 & p0 & Hd & ED)];
            [rewrite E in Hin; contradiction
            |rewrite E in Hin; destruct Hin as [Hin|[]]; discriminate Hin|].
          exists data, d0, p0. split; [exact Hd|].
          rewrite ED. rewrite amb_update_eq by lia.
          rewrite (Hframe i) by (try lia; intros Hin'; apply Hold in Hin'; lia).
          reflexivity. }
      intros Hmode j ok Hin Htr Hlt.
      apply in_app_or in Hin. destruct Hin as [Hin|Hin].
      - pose proof (Hold j ok Hin) as Hgt.
        destruct (Hfound Hmode j ok Hin Htr Hlt) as (kk & uid & Hkk & Hau & E).
        exists kk, uid. split; [exact Hkk|]. split; [apply in_or_app; now left|].
        rewrite K2 by lia. exact E.
      - apply in_app_or in Hin. destruct Hin as [Hin|Hin];
          [exfalso; exact (auth_at_not_read i j ok l0 H0 Hin)|].
        pose proof (Hlr j ok Hin) as ->.
        destruct (HFound ltac:(congruence) Htr ok) as (kk & uid & Hkk & Hau & E).
        { eapply new_calls_In; [exact Hc|]. apply in_or_app. now right. }
        exists kk, uid. split; [exact Hkk|]. split.
        + apply in_or_app. right. rewrite IA in Hau.
          exact (In_new_calls s s' (l0 ++ lr) _ Hc Hau).
        + rewrite E, IA. rewrite amb_update_eq by lia.
          rewrite ILow by lia. reflexivity. }
    destruct (read_card_body T i loc s) as [[loc'|r] s'];
      cbn [snd] in HI; [exact HI|].
    exists (Datatypes.S k). split; [lia|exact HI]. }
  unfold read_card. fold U.
  set (st0 := printf (OutHeader (U + 1)) st).
  change (uiBlocks st0) with U. fold n.
  specialize (Hit (false, 0) st0).
  match type of Hit with
  | ?A -> _ => assert (H0 : A); [|specialize (Hit H0); clear H0]
  end.
  { unfold Inv. subst st0. cbn [mtDump mtKeys bUseKeyFile bUseKeyA calls printf].
    repeat (split; [auto|]).
    exists []. split; [now rewrite app_nil_r|]. split; [constructor|].
    split; [auto|]. split; [intros j []|]. intros _ j ok []. }
  assert (Hfinal : exists s', snd
     match iterate (read_card_body T) Z.pred n U (false, 0) st0 with
     | (Continue (bFailure, uiReadBlocks), st1) =>
         let '(uiReadBlocks0, st2) :=
           print_success_or_failure bFailure uiReadBlocks st1 in
         (true, printf (OutDone uiReadBlocks0 (uiBlocks st2 + 1)) st2)
     | (Return r, st1) => (r, st1)
     end = s' /\ exists k, (k <= n)%nat /\ Inv k s').
  { destruct (iterate _ _ n U (false, 0) st0) as [[[f c]|r] s'].
    - eexists. split; [reflexivity|]. exists n. split; [lia|]. exact Hit.
    - eexists. split; [reflexivity|]. exact Hit. }
  destruct Hfinal as (s' & -> & k & Hk & HI).
  destruct HI as
    (ID & IK & IF & IA & IKF & I16 & INT & ILow & l & Hl & HB & Hframe & Hcont & Hfound).
  cbv zeta. rewrite (new_calls_app st s' l Hl).
  repeat (split; [assumption|]).
  split; [|repeat (split; [assumption|]); assumption].
  eapply Forall_weaken; [|exact HB]. intros c Hcb. destruct c; cbn in *; lia.
Qed.

Lemma stored_trailer_keys (K : block) (p : mifare_param) (b : block) :
  length K = 16%nat -> length b = 16%nat ->
  let r := stored_block true K p b in
  mbt_abtKeyA r = mbt_abtKeyA K /\ mbt_abtKeyB r = mbt_abtKeyB K /\
  length r = 16%nat /\
  ((10 <= length p)%nat -> r = mbt_abtKeyA K ++ sub p 6 4 ++ mbt_abtKeyB K).
Proof.
  intros HK Hb.
  do 17 (destruct K as [|? K]; try discriminate HK).
  do 17 (destruct b as [|? b]; try discriminate Hb).
  unfold stored_block, mbt_abtKeyA, mbt_abtKeyB, sub, memcpy.
  unfold off_abtAccessBits, off_abtKeyA, off_abtKeyB.
  assert (Hq : (length (take 4 (drop 6 p)) <= 4)%nat) by (rewrite length_take; lia).
  assert (Hq' : (10 <= length p)%nat -> length (take 4 (drop 6 p)) = 4%nat)
    by (intros; rewrite length_take, length_drop; lia).
  set (q := take 4 (drop 6 p)) in *.
  destruct q as [|q0 [|q1 [|q2 [|q3 [|q4 q]]]]]; cbn in Hq;
    try lia; cbn; repeat split; auto; intros H10; specialize (Hq' H10);
    cbn in Hq'; try discriminate Hq'.
Qed.

Lemma stored_data_whole (K : block) (p : mifare_param) (b : block) :
  length b = 16%nat -> (16 <= length p)%nat ->
  stored_block false K p b = sub p 0 16.
Proof.
  intros Hb Hp. unfold stored_block, memcpy, sub.
  rewrite take_0, drop_0. cbn [app Nat.add].
  rewrite drop_ge by lia. apply app_nil_r.
Qed.

Lemma read_param (p0 data : list byte) :
  length data = 16%nat ->
  let p := memcpy p0 0 data 0 16 in
  sub p 0 16 = data /\ sub p 6 4 = mbt_abtAccessBits data /\ (16 <= length p)%nat.
Proof.
  intros Hd p.
  assert (Hp : (16 <= length p)%nat).
  { subst p. unfold memcpy. rewrite !length_app, !length_take, !length_drop. lia. }
  split; [|split; [|exact Hp]]; subst p;
    do 17 (destruct data as [|? data]; try discriminate Hd); reflexivity.
Qed.

Lemma In_read_dec (j : Z) (l : list call) :
  In (CallRead j true) l \/ ~ In (CallRead j true) l.
Proof.
  induction l as [|c l [IH|IH]]; [right; intros []|left; now right|].
  destruct c as [| |b ok|]; try (right; intros [H|H]; [discriminate H|contradiction]).
  destruct (Z.eq_dec b j) as [->|Hne].
  - destruct ok; [left; now left|].
    right; intros [H|H]; [discriminate H|contradiction].
  - right; intros [H|H]; [inversion H; contradiction|contradiction].
Qed.

(** X7. What a read pass leaves untouched, on any device: the dump keeps
    its length and, at every block that was not read with success, its
    content; the key table keeps its length and its content at every block
    that is not a trailer block, and is not changed at all in a pass with a
    key file. *)
Theorem read_card_dump_frame (st : state dev) :
  let st' := snd (read_card T st) in
  let l := new_calls st st' in
  length (mtDump st') = length (mtDump st) /\
  (forall j, 0 <= j -> ~ In (CallRead j true) l ->
     amb (mtDump st') j = amb (mtDump st) j) /\
  length (mtKeys st') = length (mtKeys st) /\
  (forall j, 0 <= j -> is_trailer_block j = false ->
     amb (mtKeys st') j = amb (mtKeys st) j) /\
  (bUseKeyFile st = true -> mtKeys st' = mtKeys st).
Proof.
  destruct (read_card_dump_keys st) as (H1 & H2 & _ & H4 & _ & H6 & _ & H8 & _).
  cbv zeta in *. repeat split; assumption.
Qed.

(** X8. What a read pass puts into the dump. For a card of at most 256
    blocks, dump and key table being 256 blocks of 16 bytes, and a device
    whose reads of a block, when they succeed, give the 16 bytes
    [content b]: after the pass the dump and the key table still are 256
    blocks of 16 bytes, and every block that was read with success holds,
    if it is not a trailer block, the 16 bytes read, and if it is a trailer
    block, Key A of the block of the key table, the access bits read (bytes
    6 to 9) and Key B of the block of the key table. *)
Theorem read_card_dump_content (content : Z -> list byte) (st : state dev) :
  wf_tag (mtDump st) -> wf_tag (mtKeys st) -> uiBlocks st <= 255 ->
  (forall d b data, fst (tr_read T d b) = Some data -> data = content b) ->
  (forall b, length (content b) = 16%nat) ->
  let st' := snd (read_card T st) in
  let l := new_calls st st' in
  wf_tag (mtDump st') /\ wf_tag (mtKeys st') /\
  forall j, In (CallRead j true) l ->
    amb (mtDump st') j
    = if is_trailer_block j
      then mbt_abtKeyA (amb (mtKeys st') j) ++ mbt_abtAccessBits (content j)
           ++ mbt_abtKeyB (amb (mtKeys st') j)
      else content j.
Proof.
  intros [HDl HD16] [HKl HK16] HU Hdet Hlen.
  destruct (read_card_dump_keys st)
    as (H1 & H2 & _ & _ & H5 & _ & HB & Hframe & Hcont & _).
  cbv zeta in *.
  set (st' := snd (read_card T st)) in *.
  set (l := new_calls st st') in *.
  assert (HK' : wf_tag (mtKeys st')) by (split; [congruence|auto]).
  assert (Hblock : forall j, In (CallRead j true) l ->
    amb (mtDump st') j
    = if is_trailer_block j
      then mbt_abtKeyA (amb (mtKeys st') j) ++ mbt_abtAccessBits (content j)
           ++ mbt_abtKeyB (amb (mtKeys st') j)
      else content j).
  { intros j Hin.
    pose proof (Forall_In _ _ _ HB Hin) as Hj. cbn in Hj.
    destruct (Hcont j Hin ltac:(lia)) as (data & d0 & p0 & Hd & E).
    pose proof (Hdet d0 j data Hd) as ->.
    destruct (read_param p0 (content j) (Hlen j)) as (P1 & P2 & P3). cbv zeta in *.
    assert (Hb : length (amb (mtDump st) j) = 16%nat)
      by (apply amb_length_16; [exact HD16|lia]).
    rewrite E. destruct (is_trailer_block j).
    - assert (HKj : length (amb (mtKeys st') j) = 16%nat)
        by (apply amb_length_16; [apply HK'|destruct HK' as [-> _]; lia]).
      destruct (stored_trailer_keys (amb (mtKeys st') j)
                  (memcpy p0 0 (content j) 0 16) (amb (mtDump st) j) HKj Hb)
        as (_ & _ & _ & Hall).
      cbv zeta in Hall. rewrite Hall by lia. now rewrite P2.
    - rewrite stored_data_whole by (auto; lia). exact P1. }
  split; [|split; [exact HK'|exact Hblock]].
  split; [congruence|].
  unfold mifare_tag, block in *.
  apply Forall_lookup. intros n x Hx.
  assert (Hn : (n < 256)%nat) by (apply lookup_lt_Some in Hx; lia).
  assert (Ex : x = amb (mtDump st') (Z.of_nat n)).
  { unfold amb. rewrite Nat2Z.id. symmetry.
    now apply list_lookup_total_correct. }
  rewrite Ex.
  destruct (In_read_dec (Z.of_nat n) l) as [Hin|Hnin].
  - rewrite (Hblock _ Hin).
    destruct (is_trailer_block (Z.of_nat n)); [|apply Hlen].
    assert (HKj : length (amb (mtKeys st') (Z.of_nat n)) = 16%nat)
      by (apply amb_length_16; [apply HK'|destruct HK' as [HH _];
          unfold mifare_tag, block in *; rewrite HH; lia]).
    destruct (length_key_fields _ HKj) as [LA LB].
    rewrite !length_app, LA, LB.
    unfold mbt_abtAccessBits. rewrite length_sub; [reflexivity|].
    rewrite Hlen. cbn. lia.
  - rewrite (Hframe (Z.of_nat n) ltac:(lia) Hnin).
    apply amb_length_16; [exact HD16|]. unfold mifare_tag, block in *. lia.
Qed.

(** X9. The keys a read pass without key file puts into the dump. For a
    card of at most 256 blocks, dump and key table being 256 blocks of 16
    bytes: a trailer block that was read with success was authenticated
    with a candidate key that the device accepted for it, and the dump
    holds that key in the key field of the letter used; in the key field of
    the other letter the dump holds what the key table had at that block
    before the pass. *)
Theorem read_card_keys_found (st : state dev) (j : Z) :
  bUseKeyFile st = false ->
  wf_tag (mtDump st) -> wf_tag (mtKeys st) -> uiBlocks st <= 255 ->
  let mc := if bUseKeyA st then MC_AUTH_A else MC_AUTH_B in
  let st' := snd (read_card T st) in
  let l := new_calls st st' in
  In (CallRead j true) l -> is_trailer_block j = true ->
  exists k uid,
    (k < num_keys)%nat /\
    In (CallAuth mc j (candidate k) uid true) l /\
    (if bUseKeyA st
     then mbt_abtKeyA (amb (mtDump st') j) = candidate k /\
          mbt_abtKeyB (amb (mtDump st') j) = mbt_abtKeyB (amb (mtKeys st) j)
     else mbt_abtKeyB (amb (mtDump st') j) = candidate k /\
          mbt_abtKeyA (amb (mtDump st') j) = mbt_abtKeyA (amb (mtKeys st) j)).
Proof.
  intros Hmode [HDl HD16] [HKl HK16] HU mc st' l Hin Htr.
  destruct (read_card_dump_keys st)
    as (H1 & H2 & _ & _ & H5 & _ & HB & Hframe & Hcont & Hfound).
  cbv zeta in *. fold st' in H1, H2, H5, HB, Hframe, Hcont, Hfound.
  fold l in HB, Hframe, Hcont, Hfound. fold mc in Hfound.
  pose proof (Forall_In _ _ _ HB Hin) as Hj. cbn in Hj.
  unfold mifare_tag, block in *.
  destruct (Hcont j Hin ltac:(lia)) as (data & d0 & p0 & Hd & E).
  destruct (Hfound Hmode j true Hin Htr ltac:(lia)) as (k & uid & Hk & Hau & EK).
  exists k, uid. split; [exact Hk|]. split; [exact Hau|].
  assert (Hb : length (amb (mtDump st) j) = 16%nat)
    by (apply amb_length_16; [exact HD16|unfold mifare_tag, block in *; lia]).
  assert (HK0 : length (amb (mtKeys st) j) = 16%nat)
    by (apply amb_length_16; [exact HK16|unfold mifare_tag, block in *; lia]).
  destruct (memcpy_key_fields (amb (mtKeys st) j) (candidate k) (bUseKeyA st) HK0
              (length_candidate k Hk)) as (HF & _ & HL).
  cbv zeta in HF, HL. rewrite <- EK in HF, HL.
  destruct (stored_trailer_keys (amb (mtKeys st') j) (memcpy p0 0 data 0 16)
              (amb (mtDump st) j) HL Hb) as (SA & SB & _).
  cbv zeta in SA, SB. rewrite Htr in E. rewrite <- E in SA, SB.
  rewrite SA, SB. exact HF.
Qed.

(** ** A data block that cannot be read *)

(** After the failed read of a data block, whatever is read further down is
    at or below a trailer block that lies below the failed block. *)
Lemma read_card_contain (st : state dev) :
  let l := new_calls st (snd (read_card T st)) in
  Forall (blocks_in (fun b => 0 <= b <= uiBlocks st)) l /\
  forall i j ok,
    In (CallRead i false) l -> is_trailer_block i = false ->
    In (CallRead j ok) l -> j < i ->
    exists t, j <= t < i /\ is_trailer_block t = true.
Proof.
  set (U := uiBlocks st). set (n := Z.to_nat (U + 1)).
  pose (contain := fun l : list call =>
    forall i j ok,
      In (CallRead i false) l -> is_trailer_block i = false ->
      In (CallRead j ok) l -> j < i ->
      exists t, j <= t < i /\ is_trailer_block t = true).
  pose (Inv := fun (k : nat) (loc : bool * Z) (s : state dev) =>
    exists l, calls s = calls st ++ l /\
      Forall (blocks_in (fun b => U - Z.of_nat k < b <= U)) l /\
      (forall i, In (CallRead i false) l -> is_trailer_block i = false ->
         (exists t, U - Z.of_nat k < t < i /\ is_trailer_block t = true) \/
         (fst loc = true /\
          forall t, U - Z.of_nat k < t <= i -> is_trailer_block t = false)) /\
      contain l).
  pose (Post := fun (_ : bool) (s : state dev) =>
    exists l, calls s = calls st ++ l /\
      Forall (blocks_in (fun b => 0 <= b <= U)) l /\ contain l).
  pose proof (iterate_inv (read_card_body T) Z.pred Inv Post n U) as Hit.
  match type of Hit with
  | ?A -> _ => assert (Hb : A); [|specialize (Hit Hb); clear Hb]
  end.
  { intros k [f cnt] s Hk (l & Hl & HB & Hflag & Hcon).
    rewrite iter_pred. set (i0 := U - Z.of_nat k) in *.
    assert (Hi : 0 <= i0 <= U) by (subst i0 n; lia).
    assert (Hold : forall j ok, In (CallRead j ok) l -> i0 < j <= U).
    { intros j ok Hin. pose proof (Forall_In _ _ _ HB Hin) as Hj. exact Hj. }
    assert (HB' : Forall (blocks_in (fun b => U - Z.of_nat (Datatypes.S k) < b <= U)) l).
    { eapply Forall_weaken; [|exact HB]. intros c Hcb. destruct c; cbn in *; lia. }
    destruct (is_trailer_block i0) eqn:Etr.
    - (* a trailer block *)
      destruct (read_card_body_log i0 (f, cnt) s) as (l0 & lr & Hc & H0 & Hr).
      pose proof (read_trailer_clears i0 (f, cnt) s Etr) as Hclr.
      assert (Hlr : forall j ok, In (CallRead j ok) lr -> j = i0).
      { intros j ok Hin. destruct Hr as [->|[okr ->]]; [contradiction|].
        destruct Hin as [Hin|[]]. now inversion Hin. }
      assert (Hfail : forall i, In (CallRead i false) (l ++ l0 ++ lr) ->
                is_trailer_block i = false -> In (CallRead i false) l).
      { intros i Hin Hnt. apply in_app_or in Hin. destruct Hin as [Hin|Hin]; [exact Hin|].
        apply in_app_or in Hin. destruct Hin as [Hin|Hin].
        - exfalso. exact (auth_at_not_read i0 i false l0 H0 Hin).
        - apply Hlr in Hin. subst i. congruence. }
      assert (Hcon' : contain (l ++ l0 ++ lr)).
      { intros i j ok Hi' Hnt Hj Hlt. pose proof (Hfail i Hi' Hnt) as Hil.
        apply in_app_or in Hj. destruct Hj as [Hj|Hj]; [exact (Hcon i j ok Hil Hnt Hj Hlt)|].
        apply in_app_or in Hj. destruct Hj as [Hj|Hj].
        - exfalso. exact (auth_at_not_read i0 j ok l0 H0 Hj).
        - apply Hlr in Hj. subst j. exists i0. repeat split; auto; lia. }
      assert (HBn : Forall (blocks_in (fun b => U - Z.of_nat (Datatypes.S k) < b <= U))
                      (l ++ l0 ++ lr)).
      { apply Forall_app. split; [exact HB'|]. apply Forall_app. split.
        - eapply Forall_weaken; [|exact H0].
          intros c Hcb. destruct c; cbn in *; try contradiction; lia.
        - destruct Hr as [->|[okr ->]]; repeat constructor; cbn; lia. }
      destruct (read_card_body T i0 (f, cnt) s) as [[[f' cnt']|r] s']; cbn [snd] in Hc.
      + subst f'. exists (l ++ l0 ++ lr).
        split; [rewrite Hc, Hl, <- !app_assoc; reflexivity|].
        split; [exact HBn|]. split; [|exact Hcon'].
        intros i Hi' Hnt. left. exists i0.
        pose proof (Hold i false (Hfail i Hi' Hnt)). repeat split; auto; lia.
      + exists (l ++ l0 ++ lr).
        split; [rewrite Hc, Hl, <- !app_assoc; reflexivity|].
        split; [|exact Hcon'].
        eapply Forall_weaken; [|exact HBn]. intros c Hcb. destruct c; cbn in *; lia.
    - (* a data block *)
      destruct f.
      + rewrite read_data_skipped by exact Etr.
        exists l. split; [exact Hl|]. split; [exact HB'|]. split; [|exact Hcon].
        intros i Hi' Hnt. destruct (Hflag i Hi' Hnt) as [(t & Ht & Htt)|(_ & Hno)].
        * left. exists t. split; [lia|exact Htt].
        * right. split; [reflexivity|]. intros t Ht.
          destruct (Z.eq_dec t i0) as [->|Hne]; [exact Etr|]. apply Hno. lia.
      + destruct (read_data_attempted i0 cnt s Etr) as (okr & s' & -> & Hc).
        exists (l ++ [CallRead i0 okr]).
        split; [rewrite Hc, Hl, <- app_assoc; reflexivity|].
        split; [apply Forall_app; split; [exact HB'|repeat constructor; cbn; lia]|].
        split.
        * intros i Hi' Hnt. apply in_app_or in Hi'. destruct Hi' as [Hi'|Hi'].
          -- destruct (Hflag i Hi' Hnt) as [(t & Ht & Htt)|(Hf & _)];
               [|discriminate Hf].
             left. exists t. split; [lia|exact Htt].
          -- destruct Hi' as [Hi'|[]]. inversion Hi'; subst. right.
             split; [reflexivity|]. intros t Ht.
             replace t with i0 by lia. exact Etr.
        * intros i j ok Hi' Hnt Hj Hlt.
          apply in_app_or in Hi'. apply in_app_or in Hj.
          destruct Hi' as [Hi'|Hi'].
          -- destruct Hj as [Hj|Hj]; [exact (Hcon i j ok Hi' Hnt Hj Hlt)|].
             destruct Hj as [Hj|[]]. inversion Hj; subst j.
             destruct (Hflag i Hi' Hnt) as [(t & Ht & Htt)|(Hf & _)];
               [|discriminate Hf].
             exists t. split; [lia|exact Htt].
          -- destruct Hi' as [Hi'|[]]. inversion Hi'; subst i.
             destruct Hj as [Hj|Hj].
             ++ pose proof (Hold j ok Hj). lia.
             ++ destruct Hj as [Hj|[]]. inversion Hj. lia. }
  unfold read_card. fold U.
  set (st0 := printf (OutHeader (U + 1)) st).
  change (uiBlocks st0) with U. fold n.
  specialize (Hit (false, 0) st0).
  match type of Hit with
  | ?A -> _ => assert (H0 : A); [|specialize (Hit H0); clear H0]
  end.
  { exists []. split; [now rewrite app_nil_r|]. split; [constructor|].
    split; [intros i []|intros i j ok []]. }
  assert (Hfinal : exists l, calls (snd
     match iterate (read_card_body T) Z.pred n U (false, 0) st0 with
     | (Continue (bFailure, uiReadBlocks), st1) =>
         let '(uiReadBlocks0, st2) :=
           print_success_or_failure bFailure uiReadBlocks st1 in
         (true, printf (OutDone uiReadBlocks0 (uiBlocks st2 + 1)) st2)
     | (Return r, st1) => (r, st1)
     end) = calls st ++ l /\
     Forall (blocks_in (fun b => 0 <= b <= U)) l /\ contain l).
  { destruct (iterate _ _ n U (false, 0) st0) as [[[f c]|r] s'].
    - destruct Hit as (l & Hl & HB & _ & Hcon). exists l.
      split; [exact Hl|]. split; [|exact Hcon].
      eapply Forall_weaken; [|exact HB]. intros c0 Hcb. destruct c0; cbn in *; lia.
    - exact Hit. }
  destruct Hfinal as (l & Hl & HB & Hcon).
  cbv zeta. rewrite (new_calls_app st _ l Hl). split; [exact HB|exact Hcon].
Qed.

Lemma trailer_between (j t i : Z) :
  0 <= j -> i <= 255 -> j <= t < i -> is_trailer_block t = true ->
  get_trailer_block j <> get_trailer_block i.
Proof.
  intros Hj Hi Ht Htr.
  assert (H1 : get_trailer_block j <= t).
  { clear Hi. unfold is_trailer_block, get_trailer_block, wrap32 in *.
    change (2 ^ 32) with 4294967296 in *.
    destruct (Z.ltb_spec t 128); destruct (Z.ltb_spec j 128);
      match type of Htr with (?a =? ?c) = true => destruct (Z.eqb_spec a c) end;
      try discriminate; Z.div_mod_to_equations; lia. }
  assert (H2 : i <= get_trailer_block i).
  { unfold get_trailer_block, wrap32. change (2 ^ 32) with 4294967296.
    destruct (Z.ltb_spec i 128); Z.div_mod_to_equations; lia. }
  lia.
Qed.

(** X10. A data block that cannot be read ends the reading of its sector.
    On any device, for a card of at most 256 blocks: when the read of a
    block that is not a trailer block failed, no block of the same sector
    below it is read in the pass. *)
Theorem read_card_data_failure_contained (st : state dev) (i j : Z) (ok : bool) :
  uiBlocks st <= 255 ->
  let l := new_calls st (snd (read_card T st)) in
  In (CallRead i false) l -> is_trailer_block i = false ->
  same_sector j i -> j < i ->
  ~ In (CallRead j ok) l.
Proof.
  intros HU l Hi Hnt Hsec Hlt Hj.
  destruct (read_card_contain st) as (HB & Hcon). fold l in HB, Hcon.
  pose proof (Forall_In _ _ _ HB Hi) as Bi. pose proof (Forall_In _ _ _ HB Hj) as Bj.
  cbn in Bi, Bj.
  destruct (Hcon i j ok Hi Hnt Hj Hlt) as (t & Ht & Htr).
  exact (trailer_between j t i ltac:(lia) ltac:(lia) Ht Htr Hsec).
Qed.

(** ** What a write pass sends to the card *)

Lemma mbd_abtData_whole (blk : block) :
  length blk = 16%nat -> mbd_abtData blk = blk.
Proof.
  intros Hl. do 17 (destruct blk as [|? blk]; try discriminate Hl).
  reflexivity.
Qed.

(** The write half of the body, with the data it sends: nothing, or one
    write of the 16 bytes of the block of the dump. *)
Lemma write_card_block_sends (i : Z) (loc : bool * Z) (st : state dev) :
  length (amb (mtDump st) i) = 16%nat ->
  let s' := snd (write_card_block T i loc st) in
  mtDump s' = mtDump st /\
  exists lw, calls s' = calls st ++ lw /\
    (lw = [] \/ exists ok, lw = [CallWrite i (amb (mtDump st) i) ok]).
Proof.
  intros Hlen. destruct loc as [f cnt].
  destruct (write_card_block_step i f cnt st Hlen) as (HD & Hspec & _).
  pose proof (write_card_block_evolves i (f, cnt) st) as He.
  destruct (evolves_new_calls _ _ _ He) as (Hc & _).
  cbv zeta in *. split; [exact HD|].
  exists (new_calls st (snd (write_card_block T i (f, cnt) st))).
  split; [exact Hc|].
  destruct (is_trailer_block i).
  - destruct Hspec as (ok & -> & _). right. exists ok.
    fold (trailer_fields (amb (mtDump st) i)).
    now rewrite trailer_fields_whole.
  - destruct ((i =? 0) || f).
    + destruct Hspec as (E & _). left. rewrite E. unfold new_calls.
      apply drop_all.
    + destruct Hspec as (ok & -> & _). right. exists ok.
      now rewrite mbd_abtData_whole.
Qed.

(** The dump is as before after a write pass, and every write of the pass
    carries the 16 bytes of its block of the dump. *)
Lemma write_card_sends (st : state dev) :
  (forall t, 0 <= t <= uiBlocks st -> length (amb (mtDump st) t) = 16%nat) ->
  let l := new_calls st (snd (write_card T st)) in
  mtDump (snd (write_card T st)) = mtDump st /\
  Forall (fun w : Z * list byte * bool =>
            snd (fst w) = amb (mtDump st) (fst (fst w))) (writes_of l).
Proof.
  intros Hwf.
  set (U := uiBlocks st) in *. set (n := Z.to_nat (U + 1)).
  pose (P := fun w : Z * list byte * bool =>
               snd (fst w) = amb (mtDump st) (fst (fst w))).
  pose (Inv := fun (s : state dev) =>
    mtDump s = mtDump st /\
    exists l, calls s = calls st ++ l /\ Forall P (writes_of l)).
  pose proof (iterate_inv (write_card_body T) Z.succ
                (fun (_ : nat) (_ : bool * Z) s => Inv s)
                (fun (_ : bool) s => Inv s) n 0) as Hit.
  match type of Hit with
  | ?A -> _ => assert (Hb : A); [|specialize (Hit Hb); clear Hb]
  end.
  { intros k loc s Hk (HD & l & Hl & HP). rewrite iter_succ.
    replace (0 + Z.of_nat k) with (Z.of_nat k) by lia.
    assert (HI : Inv (snd (write_card_body T (Z.of_nat k) loc s))).
    { unfold write_card_body.
      pose proof (write_card_first_evolves (Z.of_nat k) loc s) as H1.
      destruct (write_card_first_keeps (Z.of_nat k) loc s) as [HD1 _].
      destruct (write_card_first T (Z.of_nat k) loc s) as [[loc'|r] s1];
        cbn [fst snd] in *;
        destruct (evolves_calls _ _ _ H1) as (l1 & Hl1 & HF1);
        destruct (auth_at_no_transfer _ _ HF1) as (_ & W1 & _).
      - assert (Hlen : length (amb (mtDump s1) (Z.of_nat k)) = 16%nat)
          by (rewrite HD1, HD; apply Hwf; subst n; lia).
        destruct (write_card_block_sends (Z.of_nat k) loc' s1 Hlen)
          as (HD2 & lw & Hlw & Hw).
        cbv zeta in HD2, Hlw.
        split; [congruence|].
        exists (l ++ l1 ++ lw). split; [rewrite Hlw, Hl1, Hl, <- !app_assoc; reflexivity|].
        rewrite !writes_of_app, W1. cbn [app].
        apply Forall_app. split; [exact HP|].
        destruct Hw as [->|(ok & ->)]; [constructor|].
        repeat constructor. unfold P. cbn. congruence.
      - split; [congruence|].
        exists (l ++ l1). split; [rewrite Hl1, Hl, <- !app_assoc; reflexivity|].
        rewrite writes_of_app, W1, app_nil_r. exact HP. }
    destruct (write_card_body T (Z.of_nat k) loc s) as [[loc'|r] s'];
      cbn [snd] in HI; exact HI. }
  unfold write_card. fold U.
  set (st0 := printf (OutHeader (U + 1)) st).
  change (uiBlocks st0) with U. fold n.
  specialize (Hit (false, 0) st0).
  match type of Hit with
  | ?A -> _ => assert (H0 : A); [|specialize (Hit H0); clear H0]
  end.
  { split; [reflexivity|]. exists []. split; [now rewrite app_nil_r|]. constructor. }
  assert (Hfinal : Inv (snd
     match iterate (write_card_body T) Z.succ n 0 (false, 0) st0 with
     | (Continue (bFailure, uiWriteBlocks), st1) =>
         let '(uiWriteBlocks0, st2) :=
           print_success_or_failure bFailure uiWriteBlocks st1 in
         (true, printf (OutDone uiWriteBlocks0 (uiBlocks st2 + 1)) st2)
     | (Return r, st1) => (r, st1)
     end)).
  { destruct (iterate _ _ n 0 (false, 0) st0) as [[[f c]|r] s']; exact Hit. }
  destruct Hfinal as (HD & l & Hl & HP).
  cbv zeta. rewrite (new_calls_app st _ l Hl). split; [exact HD|exact HP].
Qed.

(** X11. Whatever a write pass writes is the dump. On any device, for a
    dump whose blocks [0..uiBlocks] have their 16 bytes: every write that
    [write_card] sends to the device, for whatever block, carries the 16
    bytes that the dump held for that block when the pass began. *)
Theorem write_card_sends_dump (st : state dev) :
  (forall t, 0 <= t <= uiBlocks st -> length (amb (mtDump st) t) = 16%nat) ->
  let l := new_calls st (snd (write_card T st)) in
  Forall (fun w : Z * list byte * bool =>
            snd (fst w) = amb (mtDump st) (fst (fst w))) (writes_of l).
Proof.
  intros Hwf l.
  destruct (write_card_sends st Hwf) as [_ HP].
  exact HP.
Qed.

Lemma write_card_first_all_ok (i cnt : Z) (st : state dev) :
  (forall d mc b key uid, fst (tr_authenticate T d mc b key uid) = true) ->
  exists cnt' s1, write_card_first T i (false, cnt) st = (Continue (false, cnt'), s1).
Proof.
  intros Hauth. unfold write_card_first.
  destruct (is_first_block i); [|eauto].
  destruct (negb (i =? uiBlocks st)); unfold print_success_or_failure;
    match goal with
    | |- context [authenticate T i ?S] =>
        pose proof (authenticate_all_ok i S Hauth) as Ha;
        destruct (authenticate T i S) as [ok s1]; cbn [fst] in Ha; subst ok;
        cbn [negb]; eauto
    end.
Qed.

Lemma write_card_block_all_ok (i cnt : Z) (st : state dev) :
  length (amb (mtDump st) i) = 16%nat ->
  (forall d b data, fst (tr_write T d b data) = true) ->
  exists s', write_card_block T i (false, cnt) st = (Continue (false, cnt), s') /\
    mtDump s' = mtDump st /\
    calls s' = calls st
               ++ (if i =? 0 then [] else [CallWrite i (amb (mtDump st) i) true]).
Proof.
  intros Hlen Hwrite. unfold write_card_block.
  destruct (is_trailer_block i) eqn:Etr.
  - assert (Hi : (i =? 0) = false)
      by (destruct (Z.eqb_spec i 0) as [->|]; [discriminate Etr|reflexivity]).
    rewrite Hi.
    match goal with
    | |- context [nfc_initiator_mifare_cmd T MC_WRITE i ?x] =>
        destruct (mifare_cmd_write i x) as (ok & d & Htr & ->);
        pose proof (Hwrite (pnd x) i (mpd_abtData (mp x))) as Hw;
        rewrite Htr in Hw; cbn [fst] in Hw; subst ok
    end.
    cbn [negb]. eexists. split; [reflexivity|]. split; [reflexivity|].
    cbn [calls mp set_dev set_mp mtDump].
    rewrite (trailer_param _ _ Hlen).
    fold (trailer_fields (amb (mtDump st) i)).
    now rewrite trailer_fields_whole.
  - destruct (i =? 0).
    + exists st. rewrite app_nil_r. auto.
    + cbn [negb].
      match goal with
      | |- context [nfc_initiator_mifare_cmd T MC_WRITE i ?x] =>
          destruct (mifare_cmd_write i x) as (ok & d & Htr & ->);
          pose proof (Hwrite (pnd x) i (mpd_abtData (mp x))) as Hw;
          rewrite Htr in Hw; cbn [fst] in Hw; subst ok
      end.
      cbn [negb]. eexists. split; [reflexivity|]. split; [reflexivity|].
      cbn [calls mp set_dev set_mp mtDump].
      rewrite (data_param _ _ Hlen). now rewrite mbd_abtData_whole.
Qed.

(** X12. A write pass in which nothing fails. On a device on which every
    authentication and every write succeeds, for a dump whose blocks
    [0..uiBlocks] have their 16 bytes: [write_card] returns true, and the
    writes it sends are exactly those of the blocks 1 to [uiBlocks], in
    ascending order, each once, each with the 16 bytes of the dump; block 0
    is not written. *)
Theorem write_card_all_ok (st : state dev) :
  (forall t, 0 <= t <= uiBlocks st -> length (amb (mtDump st) t) = 16%nat) ->
  (forall d mc b key uid, fst (tr_authenticate T d mc b key uid) = true) ->
  (forall d b data, fst (tr_write T d b data) = true) ->
  let r := write_card T st in
  fst r = true /\
  writes_of (new_calls st (snd r))
  = map (fun j : nat => (Z.of_nat j, amb (mtDump st) (Z.of_nat j), true))
        (seq 1 (Z.to_nat (uiBlocks st))).
Proof.
  intros Hwf Hauth Hwrite.
  set (U := uiBlocks st) in *. set (n := Z.to_nat (U + 1)).
  pose (g := fun j : nat => (Z.of_nat j, amb (mtDump st) (Z.of_nat j), true)).
  pose (Inv := fun (k : nat) (loc : bool * Z) (s : state dev) =>
    fst loc = false /\ mtDump s = mtDump st /\
    exists l, calls s = calls st ++ l /\ writes_of l = map g (seq 1 (k - 1))).
  pose proof (iterate_inv (write_card_body T) Z.succ Inv (fun _ _ => False) n 0) as Hit.
  match type of Hit with
  | ?A -> _ => assert (Hb : A); [|specialize (Hit Hb); clear Hb]
  end.
  { intros k [f cnt] s Hk (Hf & HD & l & Hl & HW). cbn [fst] in Hf. subst f.
    rewrite iter_succ. replace (0 + Z.of_nat k) with (Z.of_nat k) by lia.
    unfold write_card_body.
    destruct (write_card_first_all_ok (Z.of_nat k) cnt s Hauth) as (c1 & s1 & E1).
    pose proof (write_card_first_evolves (Z.of_nat k) (false, cnt) s) as H1.
    destruct (write_card_first_keeps (Z.of_nat k) (false, cnt) s) as [HD1 _].
    rewrite E1 in H1, HD1 |- *. cbn [fst snd] in H1, HD1.
    destruct (evolves_calls _ _ _ H1) as (l1 & Hl1 & HF1).
    destruct (auth_at_no_transfer _ _ HF1) as (_ & W1 & _).
    assert (Hlen : length (amb (mtDump s1) (Z.of_nat k)) = 16%nat)
      by (rewrite HD1, HD; apply Hwf; subst n; lia).
    destruct (write_card_block_all_ok (Z.of_nat k) c1 s1 Hlen Hwrite)
      as (s2 & -> & HD2 & Hc2).
    split; [reflexivity|]. split; [congruence|].
    eexists. split; [rewrite Hc2, Hl1, Hl, <- !app_assoc; reflexivity|].
    rewrite !writes_of_app, W1, HW. cbn [app].
    destruct k as [|k]; [cbn; reflexivity|].
    replace (Z.of_nat (Datatypes.S k) =? 0) with false
      by (symmetry; apply Z.eqb_neq; lia).
    replace (Datatypes.S (Datatypes.S k) - 1)%nat with (Datatypes.S k) by lia.
    replace (Datatypes.S k - 1)%nat with k by lia.
    rewrite seq_S, map_app. cbn [map writes_of omap Nat.add].
    unfold g at 3. rewrite HD1, HD. reflexivity. }
  unfold write_card. fold U.
  set (st0 := printf (OutHeader (U + 1)) st).
  change (uiBlocks st0) with U. fold n.
  specialize (Hit (false, 0) st0).
  match type of Hit with
  | ?A -> _ => assert (H0 : A); [|specialize (Hit H0); clear H0]
  end.
  { split; [reflexivity|]. split; [reflexivity|].
    exists []. split; [now rewrite app_nil_r|reflexivity]. }
  destruct (iterate _ _ n 0 (false, 0) st0) as [[[f c]|r] s']; [|contradiction].
  destruct Hit as (_ & _ & l & Hl & HW).
  unfold print_success_or_failure. cbn [fst snd].
  split; [reflexivity|].
  match goal with
  | |- writes_of (new_calls st ?x) = _ => rewrite (new_calls_app st x l Hl)
  end.
  rewrite HW. fold g. f_equal. f_equal. subst n. lia.
Qed.

(** ** A block that cannot be written *)

Lemma write_first_clears (i : Z) (loc : bool * Z) (st : state dev) :
  is_first_block i = true ->
  match write_card_first T i loc st with
  | (Continue (f, _), _) => f = false
  | (Return _, _) => True
  end.
Proof.
  intros Hfb. unfold write_card_first. destruct loc as [bFailure cnt]. rewrite Hfb.
  destruct (negb (i =? uiBlocks st)); unfold print_success_or_failure;
    destruct bFailure;
    repeat match goal with
      | |- context [nfc_initiator_select_tag T ?a ?b ?c] =>
          destruct (nfc_initiator_select_tag T a b c) as [[] ?]; cbn [negb]
      | |- context [authenticate T ?a ?b] =>
          destruct (authenticate T a b) as [[] ?]; cbn [negb]
      end; auto.
Qed.

(** The write half of the body and the failure flag. *)
Lemma write_card_block_flag (i : Z) (f : bool) (cnt : Z) (st : state dev) :
  exists lw f2 s2,
    write_card_block T i (f, cnt) st = (Continue (f2, cnt), s2) /\
    calls s2 = calls st ++ lw /\
    ((lw = [] /\ f2 = f) \/
     (exists data ok, lw = [CallWrite i data ok] /\
        (is_trailer_block i = true \/ f = false) /\
        (ok = false -> f2 = true) /\ (f = true -> f2 = true))).
Proof.
  unfold write_card_block. destruct (is_trailer_block i) eqn:Etr.
  - match goal with
    | |- context [nfc_initiator_mifare_cmd T MC_WRITE i ?x] =>
        destruct (mifare_cmd_write i x) as (ok & d & _ & ->)
    end.
    destruct ok; cbn [negb]; eexists _, _, _; (split; [reflexivity|]);
      (split; [reflexivity|]); right; eexists _, _; (split; [reflexivity|]);
      repeat split; auto; discriminate.
  - destruct (i =? 0).
    + exists [], f, st. rewrite app_nil_r. auto.
    + destruct f; cbn [negb].
      * exists [], true, st. rewrite app_nil_r. auto.
      * match goal with
        | |- context [nfc_initiator_mifare_cmd T MC_WRITE i ?x] =>
            destruct (mifare_cmd_write i x) as (ok & d & _ & ->)
        end.
        destruct ok; cbn [negb]; eexists _, _, _; (split; [reflexivity|]);
          (split; [reflexivity|]); right; eexists _, _; (split; [reflexivity|]);
          repeat split; auto; discriminate.
Qed.

Lemma auth_at_not_write (i j : Z) (data : list byte) (ok : bool) (l : list call) :
  Forall (auth_at i) l -> ~ In (CallWrite j data ok) l.
Proof. intros HF Hin. exact (Forall_In _ _ _ HF Hin). Qed.

(** After a write that failed, whatever is written further up is a trailer
    block, or is at or above a first block of a sector that lies above the
    block of the failure. *)
Lemma write_card_contain (st : state dev) :
  let l := new_calls st (snd (write_card T st)) in
  Forall (blocks_in (fun b => 0 <= b <= uiBlocks st)) l /\
  forall i data j data' ok,
    In (CallWrite i data false) l -> In (CallWrite j data' ok) l -> i < j ->
    is_trailer_block j = true \/ exists t, i < t <= j /\ is_first_block t = true.
Proof.
  set (U := uiBlocks st). set (n := Z.to_nat (U + 1)).
  pose (contain := fun l : list call =>
    forall i data j data' ok,
      In (CallWrite i data false) l -> In (CallWrite j data' ok) l -> i < j ->
      is_trailer_block j = true \/ exists t, i < t <= j /\ is_first_block t = true).
  pose (flagged := fun (l : list call) (f : bool) (hi : Z) =>
    forall i data, In (CallWrite i data false) l ->
      (exists t, i < t < hi /\ is_first_block t = true) \/
      (f = true /\ forall t, i < t < hi -> is_first_block t = false)).
  pose (Inv := fun (k : nat) (loc : bool * Z) (s : state dev) =>
    exists l, calls s = calls st ++ l /\
      Forall (blocks_in (fun b => 0 <= b < Z.of_nat k)) l /\
      flagged l (fst loc) (Z.of_nat k) /\ contain l).
  pose (Post := fun (_ : bool) (s : state dev) =>
    exists l, calls s = calls st ++ l /\
      Forall (blocks_in (fun b => 0 <= b <= U)) l /\ contain l).
  pose proof (iterate_inv (write_card_body T) Z.succ Inv Post n 0) as Hit.
  match type of Hit with
  | ?A -> _ => assert (Hb : A); [|specialize (Hit Hb); clear Hb]
  end.
  { intros k [f cnt] s Hk (l & Hl & HB & Hflag & Hcon). cbn [fst] in Hflag.
    rewrite iter_succ. replace (0 + Z.of_nat k) with (Z.of_nat k) by lia.
    set (c := Z.of_nat k) in *.
    assert (Hc : 0 <= c <= U) by (subst c n; lia).
    assert (Hold : forall j data ok, In (CallWrite j data ok) l -> 0 <= j < c).
    { intros j data ok Hin. exact (Forall_In _ _ _ HB Hin). }
    unfold write_card_body.
    pose proof (write_card_first_evolves c (f, cnt) s) as H1.
    destruct (evolves_calls _ _ _ H1) as (l1 & Hl1 & HF1).
    assert (HB1 : Forall (blocks_in (fun b => 0 <= b < Z.of_nat (Datatypes.S k))) (l ++ l1)).
    { apply Forall_app. split.
      - eapply Forall_weaken; [|exact HB]. intros x Hx. destruct x; cbn in *; lia.
      - eapply Forall_weaken; [|exact HF1].
        intros x Hx. destruct x; cbn in *; try contradiction; lia. }
    assert (Hw1 : forall j data ok, In (CallWrite j data ok) (l ++ l1) ->
                                    In (CallWrite j data ok) l).
    { intros j data ok Hin. apply in_app_or in Hin. destruct Hin as [Hin|Hin]; [exact Hin|].
      exfalso. exact (auth_at_not_write c j data ok l1 HF1 Hin). }
    assert (Hcon1 : contain (l ++ l1)).
    { intros i data j data' ok Hi' Hj Hlt.
      exact (Hcon i data j data' ok (Hw1 _ _ _ Hi') (Hw1 _ _ _ Hj) Hlt). }
    assert (Hmid : match write_card_first T c (f, cnt) s with
                   | (Continue (f1, _), _) =>
                       forall i data, In (CallWrite i data false) l ->
                         (exists t, i < t <= c /\ is_first_block t = true) \/
                         (f1 = true /\ forall t, i < t <= c -> is_first_block t = false)
                   | (Return _, _) => True
                   end).
    { destruct (is_first_block c) eqn:Efb.
      - pose proof (write_first_clears c (f, cnt) s Efb) as Hclr.
        destruct (write_card_first T c (f, cnt) s) as [[[f1 c1]|r] s1]; [|exact I].
        intros i data Hin. left. exists c.
        pose proof (Hold i data false Hin). repeat split; auto; lia.
      - unfold write_card_first. rewrite Efb.
        intros i data Hin. destruct (Hflag i data Hin) as [(t & Ht & Htt)|(Hf & Hno)].
        + left. exists t. split; [lia|exact Htt].
        + right. split; [exact Hf|]. intros t Ht.
          destruct (Z.eq_dec t c) as [->|Hne]; [exact Efb|]. apply Hno. lia. }
    destruct (write_card_first T c (f, cnt) s) as [[[f1 c1]|r] s1]; cbn [snd] in Hl1.
    - destruct (write_card_block_flag c f1 c1 s1) as (lw & f2 & s2 & -> & Hc2 & Hw).
      exists (l ++ l1 ++ lw).
      split; [rewrite Hc2, Hl1, Hl, <- !app_assoc; reflexivity|].
      assert (Hlw : forall j data ok, In (CallWrite j data ok) lw -> j = c).
      { intros j data ok Hin. destruct Hw as [[-> _]|(d0 & o0 & -> & _)]; [contradiction|].
        destruct Hin as [Hin|[]]. now inversion Hin. }
      split.
      { rewrite app_assoc. apply Forall_app. split; [exact HB1|].
        destruct Hw as [[-> _]|(d0 & o0 & -> & _)]; repeat constructor; cbn; lia. }
      split.
      + intros i data Hin. cbn [fst].
        rewrite app_assoc in Hin. apply in_app_or in Hin. destruct Hin as [Hin|Hin].
        * apply Hw1 in Hin. destruct (Hmid i data Hin) as [(t & Ht & Htt)|(Hf & Hno)].
          -- left. exists t. split; [lia|exact Htt].
          -- right. split.
             ++ destruct Hw as [[_ ->]|(d0 & o0 & _ & _ & _ & Hk2)]; auto.
             ++ intros t Ht. apply Hno. lia.
        * pose proof (Hlw _ _ _ Hin) as ->. right.
          destruct Hw as [[-> _]|(d0 & o0 & -> & _ & Hk1 & _)]; [contradiction|].
          destruct Hin as [Hin|[]]. inversion Hin; subst.
          split; [now apply Hk1|]. intros t Ht. lia.
      + intros i data j data' ok Hi' Hj Hlt.
        rewrite app_assoc in Hi', Hj.
        apply in_app_or in Hi'. apply in_app_or in Hj.
        destruct Hi' as [Hi'|Hi'].
        * destruct Hj as [Hj|Hj]; [exact (Hcon1 i data j data' ok Hi' Hj Hlt)|].
          pose proof (Hlw _ _ _ Hj) as ->. apply Hw1 in Hi'.
          destruct (Hmid i data Hi') as [(t & Ht & Htt)|(Hf & Hno)].
          -- right. exists t. split; [lia|exact Htt].
          -- left. destruct Hw as [[-> _]|(d0 & o0 & _ & [Htr|Hf1] & _)];
               [contradiction|exact Htr|congruence].
        * pose proof (Hlw _ _ _ Hi') as ->.
          destruct Hj as [Hj|Hj].
          -- apply Hw1 in Hj. pose proof (Hold _ _ _ Hj). lia.
          -- pose proof (Hlw _ _ _ Hj). lia.
    - exists (l ++ l1). split; [rewrite Hl1, Hl, <- app_assoc; reflexivity|].
      split; [|exact Hcon1].
      eapply Forall_weaken; [|exact HB1]. intros x Hx. destruct x; cbn in *; lia. }
  unfold write_card. fold U.
  set (st0 := printf (OutHeader (U + 1)) st).
  change (uiBlocks st0) with U. fold n.
  specialize (Hit (false, 0) st0).
  match type of Hit with
  | ?A -> _ => assert (H0 : A); [|specialize (Hit H0); clear H0]
  end.
  { exists []. split; [now rewrite app_nil_r|]. split; [constructor|].
    split; [intros i data []|intros i data j data' ok []]. }
  assert (Hfinal : exists l, calls (snd
     match iterate (write_card_body T) Z.succ n 0 (false, 0) st0 with
     | (Continue (bFailure, uiWriteBlocks), st1) =>
         let '(uiWriteBlocks0, st2) :=
           print_success_or_failure bFailure uiWriteBlocks st1 in
         (true, printf (OutDone uiWriteBlocks0 (uiBlocks st2 + 1)) st2)
     | (Return r, st1) => (r, st1)
     end) = calls st ++ l /\
     Forall (blocks_in (fun b => 0 <= b <= U)) l /\ contain l).
  { destruct (iterate _ _ n 0 (false, 0) st0) as [[[f c]|r] s'].
    - destruct Hit as (l & Hl & HB & _ & Hcon). exists l.
      split; [exact Hl|]. split; [|exact Hcon].
      eapply Forall_weaken; [|exact HB]. intros c0 Hcb.
      destruct c0; cbn in *; subst n; lia.
    - exact Hit. }
  destruct Hfinal as (l & Hl & HB & Hcon).
  cbv zeta. rewrite (new_calls_app st _ l Hl). split; [exact HB|exact Hcon].
Qed.

Lemma first_between (i t j : Z) :
  0 <= i -> j <= 255 -> i < t <= j -> is_first_block t = true ->
  get_trailer_block i <> get_trailer_block j.
Proof.
  intros Hi Hj Ht Hfb.
  assert (H1 : get_trailer_block i < t).
  { clear Hj. unfold is_first_block, get_trailer_block, wrap32 in *.
    change (2 ^ 32) with 4294967296 in *.
    destruct (Z.ltb_spec t 128); destruct (Z.ltb_spec i 128);
      match type of Hfb with (?a =? ?c) = true => destruct (Z.eqb_spec a c) end;
      try discriminate; Z.div_mod_to_equations; lia. }
  assert (H2 : j <= get_trailer_block j).
  { unfold get_trailer_block, wrap32. change (2 ^ 32) with 4294967296.
    destruct (Z.ltb_spec j 128); Z.div_mod_to_equations; lia. }
  lia.
Qed.

(** X13. A block that cannot be written ends the writing of the data of its
    sector. On any device, for a card of at most 256 blocks: when a write
    failed, no block of the same sector above it is written in the pass,
    except the trailer block of the sector. *)
Theorem write_card_failure_contained (st : state dev) (i j : Z)
    (data data' : list byte) (ok : bool) :
  uiBlocks st <= 255 ->
  let l := new_calls st (snd (write_card T st)) in
  In (CallWrite i data false) l ->
  same_sector i j -> i < j -> is_trailer_block j = false ->
  ~ In (CallWrite j data' ok) l.
Proof.
  intros HU l Hi Hsec Hlt Hnt Hj.
  destruct (write_card_contain st) as (HB & Hcon). fold l in HB, Hcon.
  pose proof (Forall_In _ _ _ HB Hi) as Bi. pose proof (Forall_In _ _ _ HB Hj) as Bj.
  cbn in Bi, Bj.
  destruct (Hcon i data j data' ok Hi Hj Hlt) as [Htr|(t & Ht & Hfb)]; [congruence|].
  exact (first_between i t j ltac:(lia) ltac:(lia) Ht Hfb Hsec).
Qed.

(** ** The progress marks and the count of a pass *)

Lemma mifare_cmd_stdout (mc : mifare_cmd) (b : Z) (st : state dev) :
  stdout (snd (nfc_initiator_mifare_cmd T mc b st)) = stdout st.
Proof.
  unfold nfc_initiator_mifare_cmd. destruct mc.
  - destruct (tr_authenticate T _ _ _ _ _); reflexivity.
  - destruct (tr_authenticate T _ _ _ _ _); reflexivity.
  - destruct (tr_read T _ _) as [[data|] d]; reflexivity.
  - destruct (tr_write T _ _ _); reflexivity.
Qed.

Lemma authenticate_stdout (b : Z) (st : state dev) :
  stdout (snd (authenticate T b st)) = stdout st.
Proof.
  unfold authenticate. destruct (bUseKeyFile st).
  - destruct (bUseKeyA (set_mp _ st));
      match goal with
      | |- context [nfc_initiator_mifare_cmd T ?mc b ?s] =>
          pose proof (mifare_cmd_stdout mc b s) as H;
          destruct (nfc_initiator_mifare_cmd T mc b s) as [[] s']; exact H
      end.
  - match goal with
    | |- context [iterate ?body ?next ?n ?i ?loc ?s] =>
        pose proof (iterate_rel body next (fun x y : state dev => stdout y = stdout x)
                      (fun _ => eq_refl)
                      (fun x y z (h1 : stdout y = stdout x)
                           (h2 : stdout z = stdout y) => eq_trans h2 h1)
                      n i loc s) as Hit
    end.
    match type of Hit with
    | ?A -> _ => assert (Hb : A); [|specialize (Hit Hb); clear Hb]
    end.
    { intros k loc0 s0 _. unfold authenticate_body.
      match goal with
      | |- context [nfc_initiator_mifare_cmd T ?mc b ?s] =>
          pose proof (mifare_cmd_stdout mc b s) as H;
          destruct (nfc_initiator_mifare_cmd T mc b s) as [[] s1]; cbn [snd] in H
      end.
      - destruct (bUseKeyA s1); exact H.
      - match goal with
        | |- context [nfc_initiator_select_tag T ?a ?p ?s] =>
            destruct (select_result a p s) as (_ & HD);
            destruct (nfc_initiator_select_tag T a p s) as [x s2]; cbn [snd] in *
        end.
        cbn [stdout set_mp] in H. congruence. }
    destruct (iterate _ _ _ _ _ _) as [[[]|r] s2]; exact Hit.
Qed.

Lemma marks_of_app (l1 l2 : list output) :
  marks_of (l1 ++ l2) = marks_of l1 ++ marks_of l2.
Proof. unfold marks_of. apply omap_app. Qed.

Lemma successes_snoc (marks : list bool) (f : bool) :
  successes (marks ++ [f]) = (successes marks + (if f then 0 else 1))%nat.
Proof.
  unfold successes. rewrite List.filter_app, length_app.
  destruct f; reflexivity.
Qed.

Lemma wrap32_count (c : nat) (f : bool) :
  wrap32 (wrap32 (4 * Z.of_nat c) + (if f then 0 else 4))
  = wrap32 (4 * Z.of_nat (c + (if f then 0 else 1))).
Proof.
  unfold wrap32. destruct f.
  - rewrite Z.add_0_r, Nat.add_0_r. apply Z.mod_mod. discriminate.
  - rewrite Zplus_mod_idemp_l. f_equal. lia.
Qed.

(** The marks and the counter in one run of the body of the read loop. *)
Lemma read_card_body_marks (i : Z) (f : bool) (cnt : Z) (st : state dev) :
  match read_card_body T i (f, cnt) st with
  | (Continue (f', cnt'), s') =>
      (if is_trailer_block i && negb (i =? uiBlocks st)
       then stdout s' = stdout st ++ [OutProgress f] /\
            cnt' = wrap32 (cnt + (if f then 0 else 4))
       else stdout s' = stdout st /\ cnt' = cnt) /\
      ((forall d b, fst (tr_read T d b) <> None) -> f = false -> f' = false)
  | (Return _, _) => True
  end.
Proof.
  unfold read_card_body.
  destruct (is_trailer_block i); cbn [andb].
  - destruct (negb (i =? uiBlocks st)); unfold print_success_or_failure;
      destruct f;
      try match goal with
        | |- context [nfc_initiator_select_tag T None true ?S] =>
            destruct (select_result None true S) as (_ & SO);
            destruct (nfc_initiator_select_tag T None true S) as [oks s1];
            cbn [fst snd] in SO; cbn [stdout printf] in SO;
            destruct oks; cbn [negb]; [|exact I]
        end;
      match goal with
      | |- context [authenticate T i ?S] =>
          pose proof (authenticate_stdout i S) as HA;
          destruct (authenticate T i S) as [oka s2]; cbn [snd] in HA;
          cbn [stdout printf] in HA;
          destruct oka; cbn [negb]; [|exact I];
          pose proof (mifare_cmd_stdout MC_READ i s2) as HR;
          destruct (nfc_initiator_mifare_cmd T MC_READ i s2) as [[] s3];
          cbn [snd] in HR; cbn [stdout set_mtDump];
          (split; [split; [congruence|reflexivity]|auto])
      end.
  - destruct f; cbn [negb]; [split; [auto|intros _ H; discriminate H]|].
    pose proof (mifare_cmd_stdout MC_READ i st) as HR.
    unfold nfc_initiator_mifare_cmd in *.
    destruct (tr_read T (pnd st) i) as [[data|] d] eqn:Er; cbn [snd] in HR |- *.
    + split; [auto|reflexivity].
    + split; [auto|]. intros Hall _. exfalso. apply (Hall (pnd st) i). now rewrite Er.
Qed.

Lemma marks_of_map (marks : list bool) : marks_of (map OutProgress marks) = marks.
Proof.
  unfold marks_of. induction marks as [|b marks IH]; [reflexivity|].
  cbn. now f_equal.
Qed.

Lemma successes_le (marks : list bool) : (successes marks <= length marks)%nat.
Proof.
  unfold successes. induction marks as [|b marks IH]; [cbn; lia|].
  cbn. destruct b; cbn; lia.
Qed.

Lemma count_below_succ (p : Z -> bool) (i : Z) :
  0 <= i ->
  count_below p (Z.to_nat (i + 1))
  = ((if p i then 1 else 0) + count_below p (Z.to_nat i))%nat.
Proof.
  intros Hi. replace (Z.to_nat (i + 1)) with (Datatypes.S (Z.to_nat i)) by lia.
  cbn [count_below]. now rewrite Z2Nat.id by lia.
Qed.

(** X14. The count of a read pass. On any device, when [read_card] ends
    with its "Done" line: the line reports [uiBlocks + 1] as the total; the
    pass printed one progress mark for each trailer block below the last
    block and one more at the end; and the number of blocks it reports as
    read is 4 times the number of '.' marks (as a 32-bit number), whatever
    the size of the sectors. On a device whose reads never fail all marks
    are '.'. So a 1K card gives 16 marks and at most 64 blocks, and a 4K
    card gives 40 marks and at most 160 blocks of 256. *)
Theorem read_card_count (st : state dev) (n total : Z) :
  last (stdout (snd (read_card T st))) = Some (OutDone n total) ->
  let marks := marks_of (new_stdout st (snd (read_card T st))) in
  total = uiBlocks st + 1 /\
  length marks
  = Datatypes.S (count_below is_trailer_block (Z.to_nat (uiBlocks st))) /\
  n = wrap32 (4 * Z.of_nat (successes marks)) /\
  ((forall d b, fst (tr_read T d b) <> None) -> successes marks = length marks) /\
  (uiBlocks st = 63 -> length marks = 16%nat /\ n <= 64) /\
  (uiBlocks st = 255 -> length marks = 40%nat /\ n <= 160).
Proof.
  intros Hlast.
  set (U := uiBlocks st) in *. set (N := Z.to_nat (U + 1)).
  pose (p := is_trailer_block).
  pose (m := fun k : nat => Z.to_nat (Z.min U (U + 1 - Z.of_nat k))).
  pose (Inv := fun (k : nat) (loc : bool * Z) (s : state dev) =>
    uiBlocks s = U /\
    exists marks,
      stdout s = stdout st ++ OutHeader (U + 1) :: map OutProgress marks /\
      (length marks + count_below p (m k) = count_below p (Z.to_nat U))%nat /\
      snd loc = wrap32 (4 * Z.of_nat (successes marks)) /\
      ((forall d b, fst (tr_read T d b) <> None) ->
       fst loc = false /\ successes marks = length marks)).
  pose (Post := fun (_ : bool) (s : state dev) =>
    last (stdout s) = Some OutTagRemoved \/
    exists b, last (stdout s) = Some (OutAuthFailed b)).
  pose proof (iterate_inv (read_card_body T) Z.pred Inv Post N U) as Hit.
  match type of Hit with
  | ?A -> _ => assert (Hb : A); [|specialize (Hit Hb); clear Hb]
  end.
  { intros k [f cnt] s Hk (HU & marks & Ho & Hcnt & Hc & Hall).
    cbn [fst snd] in Hc, Hall.
    rewrite iter_pred. set (i := U - Z.of_nat k) in *.
    assert (Hi : 0 <= i <= U) by (subst i N; lia).
    pose proof (read_card_body_marks i f cnt s) as HM.
    pose proof (read_card_body_return i (f, cnt) s) as HR.
    pose proof (read_card_body_evolves i (f, cnt) s) as (EU & _).
    destruct (read_card_body T i (f, cnt) s) as [[[f' cnt']|r] s']; cbn [snd] in EU.
    - destruct HM as (HM & Hf'). rewrite HU in HM.
      split; [congruence|].
      destruct (is_trailer_block i) eqn:Etr; cbn [andb] in HM;
        [destruct (Z.eqb_spec i U) as [E|E]; cbn [negb] in HM|].
      + (* the last block of the card, a trailer block: no mark *)
        destruct HM as (HO & ->). exists marks.
        split; [congruence|]. split.
        * assert (Hk0 : k = 0%nat) by (subst i; lia). subst k.
          subst m. cbv beta in *.
          replace (Z.min U (U + 1 - Z.of_nat 1)) with U by lia.
          replace (Z.min U (U + 1 - Z.of_nat 0)) with U in Hcnt by lia. exact Hcnt.
        * split; [exact Hc|]. intros Ha. destruct (Hall Ha) as [Hf Hs].
          split; [now apply Hf'|exact Hs].
      + (* another trailer block: a mark *)
        destruct HM as (HO & ->). exists (marks ++ [f]).
        split; [rewrite HO, Ho, map_app, <- app_assoc; reflexivity|].
        split.
        * rewrite length_app. cbn [length]. subst m. cbv beta in *.
          replace (Z.min U (U + 1 - Z.of_nat (Datatypes.S k))) with i by (subst i; lia).
          replace (Z.min U (U + 1 - Z.of_nat k)) with (i + 1) in Hcnt by (subst i; lia).
          rewrite count_below_succ in Hcnt by lia. unfold p in Hcnt at 1.
          rewrite Etr in Hcnt. lia.
        * split.
          -- cbn [snd]. rewrite Hc, successes_snoc. apply wrap32_count.
          -- intros Ha. destruct (Hall Ha) as [Hf Hs]. subst f.
             split; [now apply Hf'|].
             rewrite successes_snoc, length_app. cbn. lia.
      + (* a data block: no mark *)
        destruct HM as (HO & ->). exists marks.
        split; [congruence|]. split.
        * subst m. cbv beta in *.
          destruct (Z.eq_dec i U) as [E|E].
          -- assert (Hk0 : k = 0%nat) by (subst i; lia). subst k.
             replace (Z.min U (U + 1 - Z.of_nat 1)) with U by lia.
             replace (Z.min U (U + 1 - Z.of_nat 0)) with U in Hcnt by lia. exact Hcnt.
          -- replace (Z.min U (U + 1 - Z.of_nat (Datatypes.S k))) with i
               by (subst i; lia).
             replace (Z.min U (U + 1 - Z.of_nat k)) with (i + 1) in Hcnt
               by (subst i; lia).
             rewrite count_below_succ in Hcnt by lia. unfold p in Hcnt at 1.
             rewrite Etr in Hcnt. lia.
        * split; [exact Hc|]. intros Ha. destruct (Hall Ha) as [Hf Hs].
          split; [now apply Hf'|exact Hs].
    - destruct HR as (_ & [(_ & HR & _)|(_ & HR)]); [left; exact HR|right; eauto]. }
  revert Hlast. unfold read_card. fold U.
  set (st0 := printf (OutHeader (U + 1)) st).
  change (uiBlocks st0) with U. fold N.
  specialize (Hit (false, 0) st0).
  match type of Hit with
  | ?A -> _ => assert (H0 : A); [|specialize (Hit H0); clear H0]
  end.
  { split; [reflexivity|]. exists []. split; [reflexivity|].
    split; [subst m; cbv beta; cbn [length Nat.add]; f_equal; lia|].
    split; [reflexivity|]. intros _. split; reflexivity. }
  destruct (iterate _ _ N U (false, 0) st0) as [[[f c]|r] s']; cbn [snd].
  - destruct Hit as (HU & marks & Ho & Hcnt & Hc & Hall). cbn [fst snd] in Hc, Hall.
    unfold print_success_or_failure. cbn [fst snd stdout printf uiBlocks].
    rewrite last_snoc. intros Hlast. inversion Hlast as [[Hn Ht]]. clear Hlast.
    assert (Hmarks : marks_of (new_stdout st
              (printf (OutDone (wrap32 (c + (if f then 0 else 4))) (uiBlocks s' + 1))
                 (printf (OutProgress f) s'))) = marks ++ [f]).
    { unfold new_stdout. cbn [stdout printf]. rewrite Ho.
      rewrite <- !app_assoc. rewrite drop_app_length.
      cbn [app]. change (OutHeader (U + 1) :: ?l) with ([OutHeader (U + 1)] ++ l).
      rewrite !marks_of_app, marks_of_map. reflexivity. }
    cbv zeta. rewrite Hmarks.
    assert (Hlen : length (marks ++ [f])
                   = Datatypes.S (count_below p (Z.to_nat U))).
    { rewrite length_app. cbn [length]. subst m. cbv beta in Hcnt.
      replace (Z.to_nat (Z.min U (U + 1 - Z.of_nat N))) with 0%nat in Hcnt
        by (subst N; lia).
      cbn [count_below] in Hcnt. lia. }
    assert (Hn' : wrap32 (c + (if f then 0 else 4))
                  = wrap32 (4 * Z.of_nat (successes (marks ++ [f]))))
      by (rewrite Hc, successes_snoc; apply wrap32_count).
    assert (Hle : forall q : nat, length (marks ++ [f]) = q -> Z.of_nat q <= 1000 ->
              wrap32 (4 * Z.of_nat (successes (marks ++ [f]))) <= 4 * Z.of_nat q).
    { intros q Hq Hq'. pose proof (successes_le (marks ++ [f])) as Hs.
      unfold wrap32. rewrite Z.mod_small; change (2 ^ 32) with 4294967296; lia. }
    split; [rewrite HU; reflexivity|]. split; [exact Hlen|].
    split; [exact Hn'|]. split.
    { intros Ha. destruct (Hall Ha) as [Hf Hs]. subst f.
      rewrite successes_snoc, length_app. cbn. lia. }
    split; intros HU'; rewrite HU' in Hlen; rewrite Hn'.
    + assert (E : length (marks ++ [f]) = 16%nat) by (rewrite Hlen; vm_compute; reflexivity).
      split; [exact E|]. apply (Hle 16%nat E). lia.
    + assert (E : length (marks ++ [f]) = 40%nat) by (rewrite Hlen; vm_compute; reflexivity).
      split; [exact E|]. apply (Hle 40%nat E). lia.
  - intros Hlast. destruct Hit as [Hit|[b Hit]]; congruence.
Qed.

(** The marks and the counter in the two halves of the body of the write
    loop. *)
Lemma write_card_first_marks (i : Z) (f : bool) (cnt : Z) (st : state dev) :
  match write_card_first T i (f, cnt) st with
  | (Continue (f1, cnt1), s1) =>
      (if is_first_block i && negb (i =? uiBlocks st)
       then stdout s1 = stdout st ++ [OutProgress f] /\
            cnt1 = wrap32 (cnt + (if f then 0 else 4))
       else stdout s1 = stdout st /\ cnt1 = cnt) /\
      (f = false -> f1 = false)
  | (Return _, _) => True
  end.
Proof.
  unfold write_card_first.
  destruct (is_first_block i); cbn [andb]; [|auto].
  destruct (negb (i =? uiBlocks st)); unfold print_success_or_failure;
    destruct f;
    try match goal with
      | |- context [nfc_initiator_select_tag T None true ?S] =>
          destruct (select_result None true S) as (_ & SO);
          destruct (nfc_initiator_select_tag T None true S) as [oks s1];
          cbn [fst snd] in SO; cbn [stdout printf] in SO;
          destruct oks; cbn [negb]; [|exact I]
      end;
    match goal with
    | |- context [authenticate T i ?S] =>
        pose proof (authenticate_stdout i S) as HA;
        destruct (authenticate T i S) as [oka s2]; cbn [snd] in HA;
        cbn [stdout printf] in HA;
        destruct oka; cbn [negb]; [|exact I];
        (split; [split; [congruence|reflexivity]|auto])
    end.
Qed.

Lemma write_card_block_marks (i : Z) (f : bool) (cnt : Z) (st : state dev) :
  exists f2 s2 o,
    write_card_block T i (f, cnt) st = (Continue (f2, cnt), s2) /\
    stdout s2 = stdout st ++ o /\ marks_of o = [] /\
    ((forall d b data, fst (tr_write T d b data) = true) -> f = false -> f2 = false).
Proof.
  unfold write_card_block. destruct (is_trailer_block i).
  - match goal with
    | |- context [nfc_initiator_mifare_cmd T MC_WRITE i ?x] =>
        destruct (mifare_cmd_write i x) as (ok & d & Htr & ->);
        assert (Hok : (forall d b data, fst (tr_write T d b data) = true) -> ok = true)
          by (intros Hall; specialize (Hall (pnd x) i (mpd_abtData (mp x)));
              rewrite Htr in Hall; exact Hall)
    end.
    destruct ok; cbn [negb].
    + eexists _, _, []. split; [reflexivity|]. rewrite app_nil_r. repeat split; auto.
    + eexists _, _, [OutTrailerFailed i]. split; [reflexivity|]. repeat split.
      intros Hall _. specialize (Hok Hall). discriminate Hok.
  - destruct (i =? 0).
    + exists f, st, []. rewrite app_nil_r. repeat split; auto.
    + destruct f; cbn [negb].
      * exists true, st, []. rewrite app_nil_r. repeat split; auto.
      * match goal with
        | |- context [nfc_initiator_mifare_cmd T MC_WRITE i ?x] =>
            destruct (mifare_cmd_write i x) as (ok & d & Htr & ->);
            assert (Hok : (forall d b data, fst (tr_write T d b data) = true) -> ok = true)
              by (intros Hall; specialize (Hall (pnd x) i (mpd_abtData (mp x)));
                  rewrite Htr in Hall; exact Hall)
        end.
        destruct ok; cbn [negb]; eexists _, _, []; (split; [reflexivity|]);
          rewrite app_nil_r; repeat split; auto.
        intros Hall _. specialize (Hok Hall). discriminate Hok.
Qed.

(** X15. The count of a write pass. On any device, when [write_card] ends
    with its "Done" line: the line reports [uiBlocks + 1] as the total; the
    pass printed one progress mark for each first block of a sector below
    the last block and one more at the end; and the number of blocks it
    reports as written is 4 times the number of '.' marks (as a 32-bit
    number). On a device whose writes never fail all marks are '.'. So a 1K
    card gives 17 marks and at most 68 blocks of 64, and a 4K card gives 41
    marks and at most 164 blocks of 256. *)
Theorem write_card_count (st : state dev) (n total : Z) :
  last (stdout (snd (write_card T st))) = Some (OutDone n total) ->
  let marks := marks_of (new_stdout st (snd (write_card T st))) in
  total = uiBlocks st + 1 /\
  length marks
  = Datatypes.S (count_below is_first_block (Z.to_nat (uiBlocks st))) /\
  n = wrap32 (4 * Z.of_nat (successes marks)) /\
  ((forall d b data, fst (tr_write T d b data) = true) ->
   successes marks = length marks) /\
  (uiBlocks st = 63 -> length marks = 17%nat /\ n <= 68) /\
  (uiBlocks st = 255 -> length marks = 41%nat /\ n <= 164).
Proof.
  intros Hlast.
  set (U := uiBlocks st) in *. set (N := Z.to_nat (U + 1)).
  pose (p := is_first_block).
  pose (m := fun k : nat => Z.to_nat (Z.min (Z.of_nat k) U)).
  pose (Inv := fun (k : nat) (loc : bool * Z) (s : state dev) =>
    uiBlocks s = U /\
    exists out,
      stdout s = stdout st ++ OutHeader (U + 1) :: out /\
      length (marks_of out) = count_below p (m k) /\
      snd loc = wrap32 (4 * Z.of_nat (successes (marks_of out))) /\
      ((forall d b data, fst (tr_write T d b data) = true) ->
       fst loc = false /\ successes (marks_of out) = length (marks_of out))).
  pose (Post := fun (_ : bool) (s : state dev) =>
    last (stdout s) = Some OutTagRemoved \/
    exists b, last (stdout s) = Some (OutAuthFailed b)).
  pose proof (iterate_inv (write_card_body T) Z.succ Inv Post N 0) as Hit.
  match type of Hit with
  | ?A -> _ => assert (Hb : A); [|specialize (Hit Hb); clear Hb]
  end.
  { intros k [f cnt] s Hk (HU & out & Ho & Hcnt & Hc & Hall).
    cbn [fst snd] in Hc, Hall.
    rewrite iter_succ. replace (0 + Z.of_nat k) with (Z.of_nat k) by lia.
    set (i := Z.of_nat k) in *.
    assert (Hi : 0 <= i <= U) by (subst i N; lia).
    unfold write_card_body.
    pose proof (write_card_first_marks i f cnt s) as HM.
    pose proof (write_card_first_return i (f, cnt) s) as HR.
    pose proof (write_card_first_evolves i (f, cnt) s) as (EU & _).
    destruct (write_card_first T i (f, cnt) s) as [[[f1 cnt1]|r] s1]; cbn [snd] in EU.
    - destruct HM as (HM & Hf1). rewrite HU in HM.
      destruct (write_card_block_marks i f1 cnt1 s1) as (f2 & s2 & o & E & Ho2 & Hm2 & Hf2).
      pose proof (write_card_block_evolves i (f1, cnt1) s1) as (EU2 & _).
      rewrite E in EU2 |- *. cbn [snd] in EU2.
      split; [congruence|].
      assert (Hm : m k = Z.to_nat i) by (subst m i; cbv beta; lia).
      destruct (is_first_block i) eqn:Efb; cbn [andb] in HM;
        [destruct (Z.eqb_spec i U) as [EiU|EiU]; cbn [negb] in HM|].
      + destruct HM as (HO & ->). exists (out ++ o).
        split; [rewrite Ho2, HO, Ho, <- app_assoc; reflexivity|].
        rewrite marks_of_app, Hm2, app_nil_r.
        split; [|split; [exact Hc|]].
        * rewrite Hcnt. f_equal. subst m i. cbv beta. lia.
        * intros Ha. destruct (Hall Ha) as [Hf Hs].
          split; [apply Hf2; auto|exact Hs].
      + destruct HM as (HO & ->). exists ((out ++ [OutProgress f]) ++ o).
        split; [rewrite Ho2, HO, Ho, <- !app_assoc; reflexivity|].
        rewrite !marks_of_app, Hm2, app_nil_r.
        change (marks_of [OutProgress f]) with [f].
        split; [|split].
        * rewrite length_app, Hcnt, Hm. cbn [length].
          replace (m (Datatypes.S k)) with (Z.to_nat (i + 1))
            by (subst m i; cbv beta; lia).
          rewrite count_below_succ by lia. unfold p at 2. rewrite Efb. lia.
        * cbn [snd]. rewrite Hc, successes_snoc. apply wrap32_count.
        * intros Ha. destruct (Hall Ha) as [Hf Hs]. subst f.
          split; [apply Hf2; auto|].
          rewrite successes_snoc, length_app. cbn. lia.
      + destruct HM as (HO & ->). exists (out ++ o).
        split; [rewrite Ho2, HO, Ho, <- app_assoc; reflexivity|].
        rewrite marks_of_app, Hm2, app_nil_r.
        split; [|split; [exact Hc|]].
        * rewrite Hcnt, Hm. destruct (Z.eq_dec i U) as [EiU|EiU].
          -- f_equal. subst m i. cbv beta. lia.
          -- replace (m (Datatypes.S k)) with (Z.to_nat (i + 1))
               by (subst m i; cbv beta; lia).
             rewrite count_below_succ by lia. unfold p at 2. rewrite Efb. lia.
        * intros Ha. destruct (Hall Ha) as [Hf Hs].
          split; [apply Hf2; auto|exact Hs].
    - destruct HR as (_ & _ & [(HR & _)|HR]); [left; exact HR|right; eauto]. }
  revert Hlast. unfold write_card. fold U.
  set (st0 := printf (OutHeader (U + 1)) st).
  change (uiBlocks st0) with U. fold N.
  specialize (Hit (false, 0) st0).
  match type of Hit with
  | ?A -> _ => assert (H0 : A); [|specialize (Hit H0); clear H0]
  end.
  { split; [reflexivity|]. exists []. split; [reflexivity|].
    split; [subst m; cbv beta; cbn [length marks_of omap];
            replace (Z.to_nat (Z.min (Z.of_nat 0) U)) with 0%nat by lia; reflexivity|].
    split; [reflexivity|]. intros _. split; reflexivity. }
  destruct (iterate _ _ N 0 (false, 0) st0) as [[[f c]|r] s']; cbn [snd].
  - destruct Hit as (HU & out & Ho & Hcnt & Hc & Hall). cbn [fst snd] in Hc, Hall.
    unfold print_success_or_failure. cbn [fst snd stdout printf uiBlocks].
    rewrite last_snoc. intros Hlast. inversion Hlast as [[Hn Ht]]. clear Hlast.
    set (marks := marks_of out) in *.
    assert (Hmarks : marks_of (new_stdout st
              (printf (OutDone (wrap32 (c + (if f then 0 else 4))) (uiBlocks s' + 1))
                 (printf (OutProgress f) s'))) = marks ++ [f]).
    { unfold new_stdout. cbn [stdout printf]. rewrite Ho.
      rewrite <- !app_assoc. rewrite drop_app_length.
      cbn [app]. change (OutHeader (U + 1) :: ?l) with ([OutHeader (U + 1)] ++ l).
      rewrite !marks_of_app. reflexivity. }
    cbv zeta. rewrite Hmarks.
    assert (Hlen : length (marks ++ [f])
                   = Datatypes.S (count_below p (Z.to_nat U))).
    { rewrite length_app. cbn [length]. rewrite Hcnt. subst m. cbv beta.
      replace (Z.to_nat (Z.min (Z.of_nat N) U)) with (Z.to_nat U) by (subst N; lia).
      lia. }
    assert (Hn' : wrap32 (c + (if f then 0 else 4))
                  = wrap32 (4 * Z.of_nat (successes (marks ++ [f]))))
      by (rewrite Hc, successes_snoc; apply wrap32_count).
    assert (Hle : forall q : nat, length (marks ++ [f]) = q -> Z.of_nat q <= 1000 ->
              wrap32 (4 * Z.of_nat (successes (marks ++ [f]))) <= 4 * Z.of_nat q).
    { intros q Hq Hq'. pose proof (successes_le (marks ++ [f])) as Hs.
      unfold wrap32. rewrite Z.mod_small; change (2 ^ 32) with 4294967296; lia. }
    split; [rewrite HU; reflexivity|]. split; [exact Hlen|].
    split; [exact Hn'|]. split.
    { intros Ha. destruct (Hall Ha) as [Hf Hs]. subst f.
      rewrite successes_snoc, length_app. cbn. lia. }
    split; intros HU'; rewrite HU' in Hlen; rewrite Hn'.
    + assert (E : length (marks ++ [f]) = 17%nat) by (rewrite Hlen; vm_compute; reflexivity).
      split; [exact E|]. apply (Hle 17%nat E). lia.
    + assert (E : length (marks ++ [f]) = 41%nat) by (rewrite Hlen; vm_compute; reflexivity).
      split; [exact E|]. apply (Hle 41%nat E). lia.
  - intros Hlast. destruct Hit as [Hit|[b Hit]]; congruence.
Qed.

(** ** The session of [main] *)





(** ** The dump file *)


Lemma chunk_of_concat (t : mifare_tag) :
  Forall (fun b : block => length b = 16%nat) t ->
  forall (k : nat) (x : block), t !! k = Some x -> sub (concat t) (k * 16) 16 = x.
Proof.
  induction 1 as [|a t Ha HF IH]; intros k x Hk; [discriminate|].
  cbn [concat]. destruct k as [|k]; cbn in Hk.
  - inversion Hk; subst. unfold sub. rewrite drop_0.
    rewrite take_app_length'; auto.
  - unfold sub. replace (Datatypes.S k * 16)%nat with (length a + k * 16)%nat by lia.
    unfold block in *. rewrite drop_app_add. apply (IH k x Hk).
Qed.

Lemma tag_of_bytes_of_tag (t : mifare_tag) :
  wf_tag t -> tag_of_bytes (bytes_of_tag t) = t.
Proof.
  intros [Hl HF]. unfold tag_of_bytes, bytes_of_tag.
  apply list_eq. intros k. rewrite list_lookup_fmap.
  destruct (Nat.lt_ge_cases k 256) as [Hk|Hk].
  - rewrite lookup_seq_lt by exact Hk. cbn [fmap option_fmap option_map Nat.add].
    unfold mifare_tag, block in *.
    destruct (lookup_lt_is_Some_2 t k ltac:(lia)) as [x Hx].
    rewrite Hx. f_equal. exact (chunk_of_concat t HF k x Hx).
  - rewrite lookup_seq_ge by exact Hk. cbn.
    unfold mifare_tag, block in *.
    symmetry. apply lookup_ge_None. lia.
Qed.

Lemma tag_of_bytes_wf (bs : list byte) :
  (4096 <= length bs)%nat -> wf_tag (tag_of_bytes bs).
Proof.
  intros Hl. unfold tag_of_bytes. split; [now rewrite length_map, length_seq|].
  apply Forall_map. apply Forall_forall. intros k Hk.
  apply elem_of_seq in Hk. cbn. apply length_sub. lia.
Qed.

Lemma amb_tag_of_bytes (bs : list byte) (j : Z) :
  0 <= j < 256 -> amb (tag_of_bytes bs) j = sub bs (Z.to_nat j * 16) 16.
Proof.
  intros Hj. unfold amb, tag_of_bytes.
  apply list_lookup_total_correct.
  rewrite list_lookup_fmap, lookup_seq_lt by lia. reflexivity.
Qed.

Lemma length_bytes_of_tag (t : mifare_tag) :
  wf_tag t -> length (bytes_of_tag t) = 4096%nat.
Proof.
  intros [Hl HF]. unfold bytes_of_tag.
  assert (H : forall (u : mifare_tag), Forall (fun b : block => length b = 16%nat) u ->
                length (concat u) = (16 * length u)%nat).
  { induction 1 as [|a u Ha HFu IH]; [reflexivity|].
    cbn [concat length]. rewrite length_app, IH, Ha. lia. }
  rewrite (H t HF). unfold mifare_tag, block in *. rewrite Hl. reflexivity.
Qed.


(** ** The actions read and write of [main] *)

Lemma stored_data_length (K : block) (p0 data : list byte) (b : block) :
  length data = 16%nat -> length b = 16%nat ->
  length (stored_block false K (memcpy p0 0 data 0 16) b) = 16%nat.
Proof.
  intros Hd Hb. destruct (read_param p0 data Hd) as (P1 & _ & P3). cbv zeta in *.
  rewrite stored_data_whole by (auto; lia). now rewrite P1.
Qed.

(** The tables after a read pass on a device whose reads give 16 bytes. *)
Lemma read_card_wf (st : state dev) :
  wf_tag (mtDump st) -> wf_tag (mtKeys st) -> uiBlocks st <= 255 ->
  (forall d b data, fst (tr_read T d b) = Some data -> length data = 16%nat) ->
  wf_tag (mtDump (snd (read_card T st))) /\ wf_tag (mtKeys (snd (read_card T st))).
Proof.
  intros [HDl HD16] [HKl HK16] HU Hlen.
  destruct (read_card_dump_keys st)
    as (H1 & H2 & _ & _ & H5 & _ & HB & Hframe & Hcont & _).
  cbv zeta in *.
  set (st' := snd (read_card T st)) in *.
  set (l := new_calls st st') in *.
  assert (HK' : wf_tag (mtKeys st')) by (split; [congruence|auto]).
  split; [|exact HK'].
  split; [congruence|].
  unfold mifare_tag, block in *.
  apply Forall_lookup. intros n x Hx.
  assert (Hn : (n < 256)%nat) by (apply lookup_lt_Some in Hx; lia).
  assert (Ex : x = amb (mtDump st') (Z.of_nat n)).
  { unfold amb. rewrite Nat2Z.id. symmetry.
    now apply list_lookup_total_correct. }
  rewrite Ex.
  assert (Hb : length (amb (mtDump st) (Z.of_nat n)) = 16%nat)
    by (apply amb_length_16; [exact HD16|unfold mifare_tag, block in *; lia]).
  destruct (In_read_dec (Z.of_nat n) l) as [Hin|Hnin].
  - destruct (Hcont (Z.of_nat n) Hin ltac:(lia)) as (data & d0 & p0 & Hd & E).
    rewrite E. destruct (is_trailer_block (Z.of_nat n)).
    + assert (HKj : length (amb (mtKeys st') (Z.of_nat n)) = 16%nat)
        by (apply amb_length_16; [apply HK'|destruct HK' as [HH _];
            unfold mifare_tag, block in *; rewrite HH; lia]).
      apply (stored_trailer_keys _ _ _ HKj Hb).
    + apply stored_data_length; [exact (Hlen d0 _ data Hd)|exact Hb].
  - rewrite (Hframe (Z.of_nat n) ltac:(lia) Hnin). exact Hb.
Qed.

Lemma repeat_replicate {A : Type} (x : A) (n : nat) : repeat x n = replicate n x.
Proof. induction n as [|n IH]; [reflexivity|]. cbn. now f_equal. Qed.

Lemma amb_zero_tag (j : Z) : 0 <= j < 256 -> amb zero_tag j = zero_block.
Proof.
  intros Hj. unfold amb, zero_tag. rewrite repeat_replicate.
  apply list_lookup_total_correct. apply lookup_replicate_2. lia.
Qed.

Lemma keys_loaded_wf (useKeyFile : bool) (keys_file : option (list byte))
    (keys : mifare_tag) :
  (if useKeyFile
   then match keys_file with
        | None => None
        | Some f => option_map tag_of_bytes (fread_4096 f)
        end
   else Some zero_tag) = Some keys ->
  wf_tag keys.
Proof.
  destruct useKeyFile.
  - destruct keys_file as [f|]; [|discriminate].
    unfold fread_4096. destruct (Nat.ltb_spec (length f) 4096); [discriminate|].
    cbn. intros E. inversion E. apply tag_of_bytes_wf. rewrite length_take. lia.
  - intros E. inversion E. split; [reflexivity|]. vm_compute. repeat constructor.
Qed.

(** X18. The dump file of the action read (lines 381-497). On a device
    whose reads give 16 bytes, whatever the arguments, the files and the
    card: when the action writes the dump file, it exits with success; the
    file has 4096 bytes, also for a 1K card; loaded again it gives the dump
    that was in memory; and every block that was not read with success,
    among them all blocks from 64 on for a 1K card, is 16 zero bytes in the
    file. The dump file that may exist before is not read. *)
Theorem main_rw_read (useA useKeyFile : bool) (keys_file dump_file : option (list byte))
    (connect : option dev) (fw : bool) :
  (forall d b data, fst (tr_read T d b) = Some data -> length data = 16%nat) ->
  let r := main_rw T true useA useKeyFile keys_file dump_file connect fw in
  r = main_rw T true useA useKeyFile keys_file None connect fw /\
  match dump_written r with
  | None => True
  | Some bytes =>
      exit_code r = EXIT_SUCCESS /\
      length bytes = 4096%nat /\
      fread_4096 bytes = Some bytes /\
      exists st', final r = Some st' /\
        tag_of_bytes bytes = mtDump st' /\
        (forall j, 0 <= j <= 255 -> ~ In (CallRead j true) (calls st') ->
           sub bytes (Z.to_nat j * 16) 16 = zero_block) /\
        (uiBlocks st' = 63 ->
         forall j, 64 <= j <= 255 -> sub bytes (Z.to_nat j * 16) 16 = zero_block)
  end.
Proof.
  intros Hlen r. split; [reflexivity|]. subst r. unfold main_rw.
  destruct (if useKeyFile then _ else _) as [keys|] eqn:Ekeys; [|exact I].
  pose proof (keys_loaded_wf _ _ _ Ekeys) as Hkwf.
  destruct connect as [d|]; [|exact I].
  set (st := session_start d keys zero_tag useA useKeyFile).
  unfold main_tag, nfc_initiator_select_tag.
  destruct (tr_select T (pnd st) None) as [[ti|] d1]; [|exact I].
  cbn [negb nti set_nti set_dev].
  destruct (Z.land (byte_to_Z (btSak ti)) 8 =? 0); [exact I|].
  set (U := if Byte.eqb (nth 1 (abtAtqa ti) x00) x02 then 255 else 63).
  set (sp := set_uiBlocks U (set_nti ti (set_dev d1 (CallSelect None true) st))).
  assert (HU : U = 63 \/ U = 255) by (subst U; destruct (Byte.eqb _ _); auto).
  assert (Hdz : wf_tag (mtDump sp)).
  { split; [reflexivity|]. vm_compute. repeat constructor. }
  destruct (read_card_wf sp Hdz Hkwf ltac:(cbn; lia) Hlen) as [Hwf _].
  destruct (read_card_dump_keys sp) as (_ & _ & _ & _ & _ & _ & HB & Hframe & _).
  cbv zeta in HB, Hframe.
  assert (Hcalls : calls (snd (read_card T sp))
                   = [CallSelect None true] ++ new_calls sp (snd (read_card T sp))).
  { destruct (evolves_new_calls (fun _ => True) sp (snd (read_card T sp))) as (Hc2 & _);
      [|exact Hc2].
    unfold read_card.
    pose proof (read_loop_evolves (Z.to_nat (uiBlocks sp + 1)) (uiBlocks sp)
                  (false, 0) (printf (OutHeader (uiBlocks sp + 1)) sp)) as HE.
    change (uiBlocks (printf (OutHeader (uiBlocks sp + 1)) sp)) with (uiBlocks sp) in *.
    destruct (iterate _ _ _ _ _ _) as [[[f c]|x] s']; cbn [snd] in *;
      unfold print_success_or_failure; cbn [snd];
      (eapply evolves_mono; [|ev_chain; eauto]); auto. }
  assert (HUs : uiBlocks (snd (read_card T sp)) = U).
  { unfold read_card.
    pose proof (read_loop_evolves (Z.to_nat (uiBlocks sp + 1)) (uiBlocks sp)
                  (false, 0) (printf (OutHeader (uiBlocks sp + 1)) sp)) as (EU & _).
    change (uiBlocks (printf (OutHeader (uiBlocks sp + 1)) sp)) with (uiBlocks sp) in *.
    destruct (iterate _ _ _ _ _ _) as [[[f c]|x] s']; cbn [snd] in *; exact EU. }
  unfold main_pass.
  destruct (read_card T sp) as [ok s'] eqn:Erc. cbn [fst snd] in *.
  destruct ok; [|exact I]. destruct fw; [|exact I].
  cbn [dump_written exit_code final].
  assert (Hzero : forall j, 0 <= j <= 255 -> ~ In (CallRead j true) (calls s') ->
            sub (bytes_of_tag (mtDump s')) (Z.to_nat j * 16) 16 = zero_block).
  { intros j Hj Hnin.
    rewrite <- amb_tag_of_bytes by lia. rewrite tag_of_bytes_of_tag by exact Hwf.
    rewrite Hframe; [apply amb_zero_tag; lia|lia|].
    intros Hin. apply Hnin. rewrite Hcalls. apply in_or_app. now right. }
  split; [reflexivity|]. split; [now apply length_bytes_of_tag|].
  split.
  { unfold fread_4096. rewrite (length_bytes_of_tag _ Hwf). cbn.
    now rewrite <- (length_bytes_of_tag _ Hwf), firstn_all. }
  eexists. split; [reflexivity|]. split; [now apply tag_of_bytes_of_tag|].
  split; [exact Hzero|].
  intros HU63. rewrite HUs in HU63.
  assert (Hnr : forall j, 64 <= j <= 255 -> ~ In (CallRead j true) (calls s')).
  { intros j Hj Hin. rewrite Hcalls in Hin. apply in_app_or in Hin.
    destruct Hin as [[Hin|[]]|Hin]; [discriminate Hin|].
    pose proof (Forall_In _ _ _ HB Hin) as Hb. cbn in Hb.
    change (uiBlocks sp) with U in Hb. lia. }
  intros j Hj. apply Hzero; [lia|]. now apply Hnr.
Qed.

Lemma sub_take (f : list byte) (a n m : nat) :
  (a + n <= m)%nat -> sub (take m f) a n = sub f a n.
Proof.
  intros H. unfold sub. rewrite take_drop_commute, take_take.
  replace ((a + n) `min` m)%nat with (a + n)%nat by lia.
  now rewrite <- take_drop_commute.
Qed.

Lemma writes_of_Forall (Q : call -> Prop) (l : list call) :
  Forall Q l ->
  Forall (fun w : Z * list byte * bool =>
            Q (CallWrite (fst (fst w)) (snd (fst w)) (snd w))) (writes_of l).
Proof.
  induction 1 as [|c l Hc HF IH]; [constructor|].
  destruct c; cbn; auto.
Qed.

(** X19. The action write of [main] (lines 381-497), on any device. It
    never writes a dump file. It does not touch the reader unless the dump
    file, and the key file when one is used, could be opened and had their
    4096 bytes: a file of a 1K dump alone (1024 bytes) is refused with
    failure. When the reader was touched, the dump in memory is, to the end,
    the first 4096 bytes of the dump file, and every write that was sent to
    the card, for a block [b] between 1 and 255, carries the 16 bytes of the
    file at offset [16 * b]. *)
Theorem main_rw_write (useA useKeyFile : bool) (keys_file dump_file : option (list byte))
    (connect : option dev) (fw : bool) :
  let r := main_rw T false useA useKeyFile keys_file dump_file connect fw in
  dump_written r = None /\
  (forall f, dump_file = Some f -> (length f < 4096)%nat ->
     exit_code r = EXIT_FAILURE /\ final r = None) /\
  (forall st', final r = Some st' ->
     (useKeyFile = true ->
      exists kf, keys_file = Some kf /\ (4096 <= length kf)%nat) /\
     exists f, dump_file = Some f /\ (4096 <= length f)%nat /\
       mtDump st' = tag_of_bytes (take 4096 f) /\
       Forall (fun w : Z * list byte * bool =>
                 1 <= fst (fst w) <= 255 /\
                 snd (fst w) = sub f (Z.to_nat (fst (fst w)) * 16) 16)
              (writes_of (calls st'))).
Proof.
  intros r. subst r. unfold main_rw.
  assert (Hkeys : forall keys,
    (if useKeyFile
     then match keys_file with
          | None => None
          | Some f => option_map tag_of_bytes (fread_4096 f)
          end
     else Some zero_tag) = Some keys ->
    useKeyFile = true -> exists kf, keys_file = Some kf /\ (4096 <= length kf)%nat).
  { intros keys E ->. destruct keys_file as [kf|]; [|discriminate].
    exists kf. split; [reflexivity|]. unfold fread_4096 in E.
    destruct (Nat.ltb_spec (length kf) 4096); [discriminate|lia]. }
  destruct (if useKeyFile then _ else _) as [keys|] eqn:Ekeys;
    [|cbn; repeat split; auto; discriminate].
  specialize (Hkeys keys eq_refl).
  destruct dump_file as [f|]; [|cbn; repeat split; auto; discriminate].
  unfold fread_4096.
  destruct (Nat.ltb_spec (length f) 4096) as [Hlt|Hge];
    [cbn; repeat split; auto; discriminate|].
  cbn [option_map].
  destruct connect as [d|];
    [|cbn; repeat split; auto; try discriminate;
      intros f0 E Hl; inversion E; subst; lia].
  set (st := session_start d keys (tag_of_bytes (take 4096 f)) useA useKeyFile).
  assert (Hgoal : forall res : session_result dev,
    dump_written res = None ->
    (forall st', final res = Some st' ->
       mtDump st' = tag_of_bytes (take 4096 f) /\
       Forall (fun w : Z * list byte * bool =>
                 1 <= fst (fst w) <= 255 /\
                 snd (fst w) = sub f (Z.to_nat (fst (fst w)) * 16) 16)
              (writes_of (calls st'))) ->
    dump_written res = None /\
    (forall f0, Some f = Some f0 -> (length f0 < 4096)%nat ->
       exit_code res = EXIT_FAILURE /\ final res = None) /\
    (forall st', final res = Some st' ->
       (useKeyFile = true ->
        exists kf, keys_file = Some kf /\ (4096 <= length kf)%nat) /\
       exists f0, Some f = Some f0 /\ (4096 <= length f0)%nat /\
         mtDump st' = tag_of_bytes (take 4096 f0) /\
         Forall (fun w : Z * list byte * bool =>
                   1 <= fst (fst w) <= 255 /\
                   snd (fst w) = sub f0 (Z.to_nat (fst (fst w)) * 16) 16)
                (writes_of (calls st')))).
  { intros res H1 H2. split; [exact H1|]. split.
    - intros f0 E Hl. inversion E; subst. lia.
    - intros st' Hst. split; [exact Hkeys|]. exists f.
      destruct (H2 st' Hst) as [HD HW]. auto. }
  apply Hgoal; clear Hgoal.
  - unfold main_tag, nfc_initiator_select_tag.
    destruct (tr_select T (pnd st) None) as [[ti|] d1]; [|reflexivity].
    cbn [negb nti set_nti set_dev].
    destruct (Z.land (byte_to_Z (btSak ti)) 8 =? 0); [reflexivity|].
    unfold main_pass. destruct (write_card T _) as [ok s']. reflexivity.
  - unfold main_tag, nfc_initiator_select_tag.
    destruct (tr_select T (pnd st) None) as [[ti|] d1];
      [|cbn; intros st' E; inversion E; cbn; split; [reflexivity|constructor]].
    cbn [negb nti set_nti set_dev].
    destruct (Z.land (byte_to_Z (btSak ti)) 8 =? 0);
      [cbn; intros st' E; inversion E; cbn; split; [reflexivity|constructor]|].
    set (U := if Byte.eqb (nth 1 (abtAtqa ti) x00) x02 then 255 else 63).
    set (sp := set_uiBlocks U (set_nti ti (set_dev d1 (CallSelect None true) st))).
    assert (HU : U = 63 \/ U = 255) by (subst U; destruct (Byte.eqb _ _); auto).
    assert (Hwf : wf_tag (mtDump sp))
      by (apply tag_of_bytes_wf; rewrite length_take; lia).
    assert (Hwf' : forall t, 0 <= t <= uiBlocks sp -> length (amb (mtDump sp) t) = 16%nat).
    { intros t Ht. change (uiBlocks sp) with U in Ht.
      apply amb_length_16; [apply Hwf|]. destruct Hwf as [-> _]. lia. }
    destruct (write_card_sends sp Hwf') as (HD & HP). cbv zeta in HP.
    destruct (write_card_contain sp) as (HB & _). cbv zeta in HB.
    pose proof (write_card_evolves not_write0 sp) as HE.
    match type of HE with
    | ?A -> _ => assert (Hq : A); [|specialize (HE Hq); clear Hq]
    end.
    { intros i c [Hc|[Hi (dd & o & ->)]]; [destruct c; cbn in *; tauto|exact Hi]. }
    destruct (evolves_new_calls _ _ _ HE) as (Hc2 & H0).
    unfold main_pass.
    destruct (write_card T sp) as [ok s']. cbn [fst snd final] in *.
    intros st' E. inversion E; subst st'. clear E.
    split; [exact HD|].
    rewrite Hc2. change (calls sp) with (calls st ++ [CallSelect None true]).
    rewrite !writes_of_app. cbn [calls st session_start writes_of omap app].
    pose proof (writes_of_Forall _ _ HB) as WB.
    pose proof (writes_of_Forall _ _ H0) as W0.
    apply Forall_forall. intros w Hw.
    rewrite Forall_forall in HP, WB, W0.
    specialize (HP w Hw). specialize (WB w Hw). specialize (W0 w Hw).
    cbn in WB, W0. change (uiBlocks sp) with U in WB.
    split; [lia|].
    rewrite HP. change (mtDump sp) with (tag_of_bytes (take 4096 f)).
    rewrite amb_tag_of_bytes by lia. apply sub_take. lia.
Qed.

(** ** The action extract of [main] *)





End EngineProps.

(** ** The properties on concrete cards *)


Lemma authenticate_brute_force_witness :
  let T := card_transport (card_with_key (candidate 2)) in
  let st := read_start true 63 in
  let r := authenticate T 4 st in
  bUseKeyFile st = false /\
  exists n : nat,
    (n <= num_keys)%nat /\
    auths_of (new_calls st (snd r)) =
      map (fun j => (MC_AUTH_A, 4, candidate j, fst r && Nat.eqb (Datatypes.S j) n))
          (seq 0 n) /\
    (if fst r then (1 <= n)%nat else n = num_keys) /\
    (forall accept : list byte -> bool,
       (forall d key uid, fst (tr_authenticate T d MC_AUTH_A 4 key uid) = accept key) ->
       match first_accepted accept with
       | Some j => fst r = true /\ n = Datatypes.S j
       | None => fst r = false /\ n = num_keys
       end) /\
    ((forall d key uid,
        fst (tr_authenticate T d MC_AUTH_A 4 key uid) = bytes_eqb key (candidate 2)) ->
     fst r = true /\ n = 3%nat).
Proof.
  intros T st r. split; [reflexivity|].
  exact (authenticate_brute_force T 4 st eq_refl).
Defined.

Lemma authenticate_caches_at_block_witness :
  let T := card_transport (card_with_key (candidate 2)) in
  let st := read_start false 63 in
  let st' := snd (authenticate T 4 st) in
  let old := amb (mtKeys st) 4 in
  let new := amb (mtKeys st') 4 in
  authenticate T 4 st = (true, st') /\
  exists (k : nat) (uid : list byte),
    (k < num_keys)%nat /\
    last (calls st') = Some (CallAuth MC_AUTH_B 4 (candidate k) uid true) /\
    (mbt_abtKeyB new = candidate k /\ mbt_abtKeyA new = mbt_abtKeyA old) /\
    mbt_abtAccessBits new = mbt_abtAccessBits old /\
    (forall j, 0 <= j -> j <> 4 -> amb (mtKeys st') j = amb (mtKeys st) j) /\
    length (mtKeys st') = length (mtKeys st) /\
    (is_first_block 4 = true ->
     get_trailer_block 4 <> 4 /\
     amb (mtKeys st') (get_trailer_block 4) = amb (mtKeys st) (get_trailer_block 4)).
Proof.
  intros T st st' old new.
  assert (H : authenticate T 4 st = (true, st')) by (vm_compute; reflexivity).
  split; [exact H|].
  apply (authenticate_caches_at_block T 4 st st').
  - reflexivity.
  - vm_compute. split; [discriminate|reflexivity].
  - vm_compute. reflexivity.
  - exact H.
Defined.

Lemma marker_tag_blocks : Forall (fun b : block => length b = 16%nat) marker_tag.
Proof. vm_compute. repeat constructor. Qed.

Lemma write_card_block_spec_witness :
  let T := card_transport (card_unwritable_at true (Z.eqb 7)) in
  let st := write_start true 63 marker_tag in
  let blk := amb (mtDump st) 7 in
  let r := write_card_block T 7 (true, 0) st in
  length blk = 16%nat /\
  (forall t, 0 <= t <= uiBlocks st -> length (amb (mtDump st) t) = 16%nat) /\
  fst (write_card T st) = true /\
  mtDump (snd r) = mtDump st /\
  (exists ok,
     new_calls st (snd r) = [CallWrite 7 (trailer_fields blk) ok] /\
     fst r = Continue (true || negb ok, 0)) /\
  (exists ok,
     writes_to 7 (new_calls st (snd (write_card T st)))
     = [(trailer_fields (amb (mtDump st) 7), ok)]).
Proof.
  intros T st blk r.
  assert (H : length blk = 16%nat) by (vm_compute; reflexivity).
  assert (Hwf : forall t, 0 <= t <= uiBlocks st ->
                          length (amb (mtDump st) t) = 16%nat).
  { intros t Ht. apply amb_length_16; [exact marker_tag_blocks|].
    change (uiBlocks st) with 63 in Ht.
    replace (length (mtDump st)) with 256%nat by (vm_compute; reflexivity). lia. }
  assert (Hret : fst (write_card T st) = true) by (vm_compute; reflexivity).
  destruct (write_card_block_spec T) as [Hstep Hpass].
  destruct (Hstep 7 true 0 st H) as (H1 & H2 & _).
  split; [exact H|]. split; [exact Hwf|]. split; [exact Hret|].
  split; [exact H1|]. split; [exact H2|].
  apply (Hpass st Hwf Hret 7); [cbn; lia|reflexivity].
Defined.

(** ** Where the program departs from its description *)

(** C1. A 1K card whose trailer block 63 cannot be read, everything else
    succeeding: after the failed read of block 63 the blocks 62, 61 and 60
    of the same sector are read all the same, the sector is printed as read
    ('.') and counted (64 of 64 blocks), although block 63 of the dump was
    not filled. On the card whose data block 62 cannot be read, the blocks
    61 and 60 are not read and the sector is printed as failed ('x', 60 of
    64 blocks). *)
Theorem read_card_trailer_failure_not_contained :
  let r := read_card (card_transport (card_unreadable_at (Z.eqb 63)))
             (read_start true 63) in
  let r' := read_card (card_transport (card_unreadable_at (Z.eqb 62)))
              (read_start true 63) in
  fst r = true /\
  take 5 (reads_of (calls (snd r)))
  = [(63, false); (62, true); (61, true); (60, true); (59, true)] /\
  amb (mtDump (snd r)) 63 = zero_block /\
  amb (mtDump (snd r)) 62 = fill_block xa5 /\
  take 2 (stdout (snd r)) = [OutHeader 64; OutProgress false] /\
  last (stdout (snd r)) = Some (OutDone 64 64) /\
  fst r' = true /\
  take 3 (reads_of (calls (snd r'))) = [(63, true); (62, false); (59, true)] /\
  amb (mtDump (snd r')) 61 = zero_block /\
  take 2 (stdout (snd r')) = [OutHeader 64; OutProgress true] /\
  last (stdout (snd r')) = Some (OutDone 60 64).
Proof. vm_compute. repeat split; reflexivity. Qed.

(** C2. A 1K card whose data block 62 cannot be read and which is gone when
    the program selects it again: [read_card] prints that the tag was
    removed and returns true, after which [main] writes the dump, of which
    only block 63 was read, to the file. In the same situation (block 1
    cannot be written, the card is gone) [write_card] returns false. *)
Theorem read_card_tag_removed_returns_true :
  let T := card_transport (card_removed (Z.eqb 62)) in
  let r := read_card T (read_start true 63) in
  let w := write_card (card_transport (card_unwritable_at false (Z.eqb 1)))
             (write_start true 63 marker_tag) in
  fst r = true /\
  last (calls (snd r)) = Some (CallSelect None false) /\
  last (stdout (snd r)) = Some OutTagRemoved /\
  (exists dump, fst (main_pass T true (read_start true 63)) = Some dump /\
                reads_of (calls (snd r)) = [(63, true); (62, false)] /\
                amb dump 62 = zero_block /\ amb dump 0 = zero_block) /\
  fst w = false /\
  last (calls (snd w)) = Some (CallSelect None false) /\
  last (stdout (snd w)) = Some OutTagRemoved.
Proof.
  vm_compute. repeat split; try reflexivity.
  eexists. repeat split; reflexivity.
Qed.

(** C5. A 1K card on which every authentication and every write succeeds:
    [write_card] prints 17 progress marks and reports 68 of 64 blocks
    written, where [read_card] on such a card prints 16 marks and reports 64
    of 64 blocks read. *)
Theorem write_card_reports_68_of_64 :
  let w := write_card (card_transport good_card) (write_start true 63 marker_tag) in
  let r := read_card (card_transport good_card) (read_start true 63) in
  fst w = true /\
  stdout (snd w) = OutHeader 64 :: repeat (OutProgress false) 17 ++ [OutDone 68 64] /\
  fst r = true /\
  stdout (snd r) = OutHeader 64 :: repeat (OutProgress false) 16 ++ [OutDone 64 64].
Proof. vm_compute. repeat split; reflexivity. Qed.

(** ** The further properties on concrete cards *)

Lemma authenticate_key_file_witness :
  let T := card_transport (card_with_key (repeat x07 6)) in
  let st := keyfile_start true 63 marker_tag zero_tag in
  let trailer := amb (mtKeys st) (get_trailer_block 4) in
  let r := authenticate T 4 st in
  bUseKeyFile st = true /\
  (6 <= length (mp st))%nat /\
  length (abtUid (nti st)) = 4%nat /\
  length trailer = 16%nat /\
  new_calls st (snd r)
  = [CallAuth MC_AUTH_A 4 (mbt_abtKeyA trailer) (abtUid (nti st)) (fst r)] /\
  fst r = fst (tr_authenticate T (pnd st) MC_AUTH_A 4 (mbt_abtKeyA trailer)
                 (abtUid (nti st))) /\
  mtKeys (snd r) = mtKeys st /\ mtDump (snd r) = mtDump st /\
  nti (snd r) = nti st.
Proof.
  intros T st trailer r.
  assert (H1 : (6 <= length (mp st))%nat) by (vm_compute; lia).
  assert (H2 : length (abtUid (nti st)) = 4%nat) by reflexivity.
  assert (H3 : length trailer = 16%nat) by (vm_compute; reflexivity).
  split; [reflexivity|]. split; [exact H1|]. split; [exact H2|]. split; [exact H3|].
  exact (authenticate_key_file T 4 st eq_refl H1 H2 H3).
Defined.

Lemma authenticate_brute_force_log_witness :
  let T := card_transport (card_with_key (candidate 2)) in
  let st := read_start true 63 in
  let uid := abtUid (nti st) in
  let r := authenticate T 7 st in
  bUseKeyFile st = false /\
  (6 <= length (mp st))%nat /\
  length (abtUid (nti st)) = 4%nat /\
  exists sel : list bool,
    new_calls st (snd r)
    = refused_attempts MC_AUTH_A 7 uid 0 sel
      ++ (if fst r then [CallAuth MC_AUTH_A 7 (candidate (length sel)) uid true] else []) /\
    (if fst r then (length sel < num_keys)%nat else length sel = num_keys) /\
    nti (snd r) = nti st /\ mtDump (snd r) = mtDump st /\
    (fst r = false -> mtKeys (snd r) = mtKeys st).
Proof.
  intros T st uid r.
  assert (H1 : (6 <= length (mp st))%nat) by (vm_compute; lia).
  assert (H2 : length (abtUid (nti st)) = 4%nat) by reflexivity.
  split; [reflexivity|]. split; [exact H1|]. split; [exact H2|].
  exact (authenticate_brute_force_log T 7 st eq_refl H1 H2).
Defined.

Lemma zero_tag_wf : wf_tag zero_tag.
Proof. split; [reflexivity|]. vm_compute. repeat constructor. Qed.

Lemma marker_tag_wf : wf_tag marker_tag.
Proof. split; [reflexivity|exact marker_tag_blocks]. Qed.

Lemma read_card_dump_content_witness :
  let T := card_transport good_card in
  let content := fun _ : Z => fill_block xa5 in
  let st := read_start true 63 in
  let st' := snd (read_card T st) in
  let l := new_calls st st' in
  wf_tag (mtDump st) /\ wf_tag (mtKeys st) /\ uiBlocks st <= 255 /\
  (forall d b data, fst (tr_read T d b) = Some data -> data = content b) /\
  (forall b, length (content b) = 16%nat) /\
  wf_tag (mtDump st') /\ wf_tag (mtKeys st') /\
  forall j, In (CallRead j true) l ->
    amb (mtDump st') j
    = if is_trailer_block j
      then mbt_abtKeyA (amb (mtKeys st') j) ++ mbt_abtAccessBits (content j)
           ++ mbt_abtKeyB (amb (mtKeys st') j)
      else content j.
Proof.
  intros T content st st' l.
  assert (H1 : wf_tag (mtDump st)) by exact zero_tag_wf.
  assert (H2 : wf_tag (mtKeys st)) by exact zero_tag_wf.
  assert (H3 : uiBlocks st <= 255) by (cbn; lia).
  assert (H4 : forall d b data, fst (tr_read T d b) = Some data -> data = content b)
    by (intros d b data H; cbn in H; now inversion H).
  assert (H5 : forall b, length (content b) = 16%nat) by reflexivity.
  split; [exact H1|]. split; [exact H2|]. split; [exact H3|].
  split; [exact H4|]. split; [exact H5|].
  exact (read_card_dump_content T content st H1 H2 H3 H4 H5).
Defined.

Lemma read_card_keys_found_witness :
  let T := card_transport (card_with_key (candidate 2)) in
  let st := read_start true 63 in
  let st' := snd (read_card T st) in
  let l := new_calls st st' in
  bUseKeyFile st = false /\
  wf_tag (mtDump st) /\ wf_tag (mtKeys st) /\ uiBlocks st <= 255 /\
  In (CallRead 63 true) l /\ is_trailer_block 63 = true /\
  exists k uid,
    (k < num_keys)%nat /\
    In (CallAuth MC_AUTH_A 63 (candidate k) uid true) l /\
    mbt_abtKeyA (amb (mtDump st') 63) = candidate k /\
    mbt_abtKeyB (amb (mtDump st') 63) = mbt_abtKeyB (amb (mtKeys st) 63).
Proof.
  intros T st st' l.
  assert (H1 : wf_tag (mtDump st)) by exact zero_tag_wf.
  assert (H2 : wf_tag (mtKeys st)) by exact zero_tag_wf.
  assert (H3 : uiBlocks st <= 255) by (cbn; lia).
  assert (H4 : In (CallRead 63 true) l)
    by (vm_compute; repeat first [left; reflexivity | right]).
  split; [reflexivity|]. split; [exact H1|]. split; [exact H2|]. split; [exact H3|].
  split; [exact H4|]. split; [reflexivity|].
  exact (read_card_keys_found T st 63 eq_refl H1 H2 H3 H4 eq_refl).
Defined.

Lemma read_card_data_failure_contained_witness :
  let T := card_transport (card_unreadable_at (Z.eqb 5)) in
  let st := read_start true 63 in
  let l := new_calls st (snd (read_card T st)) in
  uiBlocks st <= 255 /\
  In (CallRead 5 false) l /\ is_trailer_block 5 = false /\
  same_sector 4 5 /\ 4 < 5 /\
  ~ In (CallRead 4 true) l.
Proof.
  intros T st l.
  assert (H1 : uiBlocks st <= 255) by (cbn; lia).
  assert (H2 : In (CallRead 5 false) l)
    by (apply (nth_error_In l 73); vm_compute; reflexivity).
  assert (H3 : same_sector 4 5) by reflexivity.
  assert (H4 : 4 < 5) by lia.
  split; [exact H1|]. split; [exact H2|]. split; [reflexivity|].
  split; [exact H3|]. split; [exact H4|].
  exact (read_card_data_failure_contained T st 5 4 true H1 H2 eq_refl H3 H4).
Defined.

Lemma marker_dump_blocks (blocks : Z) :
  blocks <= 255 ->
  forall t, 0 <= t <= blocks ->
    length (amb (mtDump (write_start true blocks marker_tag)) t) = 16%nat.
Proof.
  intros Hb t Ht. apply amb_length_16; [exact marker_tag_blocks|].
  replace (length (mtDump (write_start true blocks marker_tag))) with 256%nat
    by (vm_compute; reflexivity).
  lia.
Qed.

Lemma write_card_sends_dump_witness :
  let T := card_transport (card_unwritable_at true (Z.eqb 7)) in
  let st := write_start true 63 marker_tag in
  let l := new_calls st (snd (write_card T st)) in
  (forall t, 0 <= t <= uiBlocks st -> length (amb (mtDump st) t) = 16%nat) /\
  Forall (fun w : Z * list byte * bool =>
            snd (fst w) = amb (mtDump st) (fst (fst w))) (writes_of l).
Proof.
  intros T st l.
  assert (Hwf : forall t, 0 <= t <= uiBlocks st ->
                          length (amb (mtDump st) t) = 16%nat)
    by (apply (marker_dump_blocks 63); lia).
  split; [exact Hwf|].
  exact (write_card_sends_dump T st Hwf).
Defined.

Lemma write_card_all_ok_witness :
  let T := card_transport good_card in
  let st := write_start true 63 marker_tag in
  let r := write_card T st in
  (forall t, 0 <= t <= uiBlocks st -> length (amb (mtDump st) t) = 16%nat) /\
  (forall d mc b key uid, fst (tr_authenticate T d mc b key uid) = true) /\
  (forall d b data, fst (tr_write T d b data) = true) /\
  fst r = true /\
  writes_of (new_calls st (snd r))
  = map (fun j : nat => (Z.of_nat j, amb (mtDump st) (Z.of_nat j), true))
        (seq 1 (Z.to_nat (uiBlocks st))).
Proof.
  intros T st r.
  assert (Hwf : forall t, 0 <= t <= uiBlocks st ->
                          length (amb (mtDump st) t) = 16%nat)
    by (apply (marker_dump_blocks 63); lia).
  assert (Ha : forall d mc b key uid, fst (tr_authenticate T d mc b key uid) = true)
    by reflexivity.
  assert (Hw : forall d b data, fst (tr_write T d b data) = true) by reflexivity.
  split; [exact Hwf|]. split; [exact Ha|]. split; [exact Hw|].
  exact (write_card_all_ok T st Hwf Ha Hw).
Defined.

Lemma write_card_failure_contained_witness :
  let T := card_transport (card_unwritable_at true (Z.eqb 5)) in
  let st := write_start true 63 marker_tag in
  let l := new_calls st (snd (write_card T st)) in
  uiBlocks st <= 255 /\
  In (CallWrite 5 (repeat x05 16) false) l /\
  same_sector 5 6 /\ 5 < 6 /\ is_trailer_block 6 = false /\
  ~ In (CallWrite 6 (repeat x06 16) true) l.
Proof.
  intros T st l.
  assert (H1 : uiBlocks st <= 255) by (cbn; lia).
  assert (H2 : In (CallWrite 5 (repeat x05 16) false) l)
    by (apply (nth_error_In l 6); vm_compute; reflexivity).
  assert (H3 : same_sector 5 6) by reflexivity.
  assert (H4 : 5 < 6) by lia.
  split; [exact H1|]. split; [exact H2|]. split; [exact H3|].
  split; [exact H4|]. split; [reflexivity|].
  exact (write_card_failure_contained T st 5 6 (repeat x05 16) (repeat x06 16) true
           H1 H2 H3 H4 eq_refl).
Defined.

Lemma read_card_count_witness :
  let T := card_transport good_card in
  let st := read_start true 255 in
  let marks := marks_of (new_stdout st (snd (read_card T st))) in
  last (stdout (snd (read_card T st))) = Some (OutDone 160 256) /\
  256 = uiBlocks st + 1 /\
  length marks
  = Datatypes.S (count_below is_trailer_block (Z.to_nat (uiBlocks st))) /\
  160 = wrap32 (4 * Z.of_nat (successes marks)) /\
  ((forall d b, fst (tr_read T d b) <> None) -> successes marks = length marks) /\
  (uiBlocks st = 63 -> length marks = 16%nat /\ 160 <= 64) /\
  (uiBlocks st = 255 -> length marks = 40%nat /\ 160 <= 160).
Proof.
  intros T st marks.
  assert (H : last (stdout (snd (read_card T st))) = Some (OutDone 160 256))
    by (vm_compute; reflexivity).
  split; [exact H|].
  exact (read_card_count T st 160 256 H).
Defined.

Lemma write_card_count_witness :
  let T := card_transport good_card in
  let st := write_start true 255 marker_tag in
  let marks := marks_of (new_stdout st (snd (write_card T st))) in
  last (stdout (snd (write_card T st))) = Some (OutDone 164 256) /\
  256 = uiBlocks st + 1 /\
  length marks
  = Datatypes.S (count_below is_first_block (Z.to_nat (uiBlocks st))) /\
  164 = wrap32 (4 * Z.of_nat (successes marks)) /\
  ((forall d b data, fst (tr_write T d b data) = true) ->
   successes marks = length marks) /\
  (uiBlocks st = 63 -> length marks = 17%nat /\ 164 <= 68) /\
  (uiBlocks st = 255 -> length marks = 41%nat /\ 164 <= 164).
Proof.
  intros T st marks.
  assert (H : last (stdout (snd (write_card T st))) = Some (OutDone 164 256))
    by (vm_compute; reflexivity).
  split; [exact H|].
  exact (write_card_count T st 164 256 H).
Defined.

Lemma main_rw_read_witness :
  let T := card_transport good_card in
  let r := main_rw T true true false None (Some []) (Some tt) true in
  (forall d b data, fst (tr_read T d b) = Some data -> length data = 16%nat) /\
  (exists bytes, dump_written r = Some bytes) /\
  r = main_rw T true true false None None (Some tt) true /\
  match dump_written r with
  | None => True
  | Some bytes =>
      exit_code r = EXIT_SUCCESS /\
      length bytes = 4096%nat /\
      fread_4096 bytes = Some bytes /\
      exists st', final r = Some st' /\
        tag_of_bytes bytes = mtDump st' /\
        (forall j, 0 <= j <= 255 -> ~ In (CallRead j true) (calls st') ->
           sub bytes (Z.to_nat j * 16) 16 = zero_block) /\
        (uiBlocks st' = 63 ->
         forall j, 64 <= j <= 255 -> sub bytes (Z.to_nat j * 16) 16 = zero_block)
  end.
Proof.
  intros T r.
  assert (H : forall d b data, fst (tr_read T d b) = Some data -> length data = 16%nat)
    by (intros d b data E; cbn in E; now inversion E).
  split; [exact H|]. split; [vm_compute; eexists; reflexivity|].
  exact (main_rw_read T true false None (Some []) (Some tt) true H).
Defined.

